(** * figma-ad-agent: command channel, tree serializer, checkpoints and batch engines

    A shallow embedding of the protocol layer of the repository:

    - [Bridge]      backend/src/bridge.ts        (createBridge)
    - [Plugin]      plugin/src/code.ts           (serializeNode, restore, batch handler)
    - [Dsl]         backend/src/tools/dsl-parser.ts and batch-operations.ts
    - [Pipeline]    backend/src/tools/batch-pipeline.ts and checkpoint.ts

    Part I holds the definitions, Part II the theorems. *)

From Stdlib Require Import ZArith Ascii String.
From stdpp Require Import gmap strings list fin_maps pretty.

Set Warnings "-register-all".

(* ===================================================================== *)
(** * Part I: definitions                                                 *)
(* ===================================================================== *)

(** ** JavaScript values

    Values that cross the wire are JSON-like.  Numbers are modelled by [Z]:
    the code under study only copies numbers and tests them against the
    constants 0 and 1, so no arithmetic on them is ever needed.  Objects are
    association lists, in property order. *)
Module JS.

Inductive value :=
  | Undefined
  | Null
  | Bool (b : bool)
  | Num (n : Z)
  | Str (s : string)
  | Arr (items : list value)
  | Obj (fields : list (string * value)).

(** [assoc k fs]: own property [k] of an object literal. *)
Fixpoint assoc {A} (k : string) (fs : list (string * A)) : option A :=
  match fs with
  | [] => None
  | (k', v) :: fs' => if String.eqb k k' then Some v else assoc k fs'
  end.

(** JavaScript truthiness of a value. *)
Definition truthy (v : value) : bool :=
  match v with
  | Undefined | Null => false
  | Bool b => b
  | Num n => negb (n =? 0)%Z
  | Str s => negb (String.eqb s "")
  | Arr _ | Obj _ => true
  end.

(** A thrown Error, by message. *)
Inductive result (A : Type) :=
  | Ok (a : A)
  | Throw (message : string).
Arguments Ok {A} a.
Arguments Throw {A} message.

(** [s.split(sep)] for a one-character separator: never empty, and an empty
    piece between two separators or at either end. *)
Fixpoint split_on (sep : ascii) (s : string) : list string :=
  match s with
  | EmptyString => [EmptyString]
  | String c s' =>
      if Ascii.eqb c sep then EmptyString :: split_on sep s'
      else match split_on sep s' with
           | [] => [String c EmptyString]
           | piece :: pieces => String c piece :: pieces
           end
  end.

(** [parts.join(sep)] *)
Fixpoint join (sep : string) (parts : list string) : string :=
  match parts with
  | [] => ""
  | [a] => a
  | a :: rest => a +:+ sep +:+ join sep rest
  end.

(** [s.startsWith(c)] for one character. *)
Definition starts_with (c : ascii) (s : string) : bool :=
  match s with
  | String c' _ => Ascii.eqb c' c
  | EmptyString => false
  end.

(** [s.substring(1)] *)
Definition tail (s : string) : string :=
  match s with
  | String _ s' => s'
  | EmptyString => EmptyString
  end.

Definition digit_of (c : ascii) : option nat :=
  let n := nat_of_ascii c in
  if (48 <=? n)%nat && (n <=? 57)%nat then Some (n - 48) else None.

(** The value of a string of decimal digits. *)
Fixpoint digits_value (acc : nat) (s : string) : option nat :=
  match s with
  | EmptyString => Some acc
  | String c s' =>
      match digit_of c with
      | Some d => digits_value (10 * acc + d) s'
      | None => None
      end
  end.

(** An array index as a property key: the canonical decimal numeral. *)
Definition array_index (key : string) : option nat :=
  match key with
  | EmptyString => None
  | String c rest =>
      if Ascii.eqb c "0" && negb (String.eqb rest "") then None
      else digits_value 0 key
  end.

(** [value[key]] for a value that is neither null nor undefined.  Own
    properties only: objects answer for their fields, arrays and strings for
    their indices and their length.  Members inherited from a prototype
    (methods, [constructor]) are not data of a tool result and read as
    undefined here. *)
Definition get_property (v : value) (key : string) : value :=
  match v with
  | Obj fields => default Undefined (assoc key fields)
  | Arr items =>
      if String.eqb key "length" then Num (Z.of_nat (length items))
      else match array_index key with
           | Some i => default Undefined (items !! i)
           | None => Undefined
           end
  | Str s =>
      if String.eqb key "length" then Num (Z.of_nat (String.length s))
      else match array_index key with
           | Some i =>
               match String.get i s with
               | Some c => Str (String c EmptyString)
               | None => Undefined
               end
           | None => Undefined
           end
  | _ => Undefined
  end.

(** The double quote, for error messages. *)
Definition dq : string := String (ascii_of_nat 34) EmptyString.

(** The string holds no separator. *)
Fixpoint no_sep (sep : ascii) (s : string) : bool :=
  match s with
  | EmptyString => true
  | String c s' => negb (Ascii.eqb c sep) && no_sep sep s'
  end.

(** All the results, or the first error thrown. *)
Fixpoint all_ok {A} (l : list (result A)) : result (list A) :=
  match l with
  | [] => Ok []
  | Throw m :: _ => Throw m
  | Ok a :: l' =>
      match all_ok l' with
      | Ok rest => Ok (a :: rest)
      | Throw m => Throw m
      end
  end.

(** Map.set on a Map kept in insertion order. *)
Fixpoint map_set {A} (k : string) (v : A) (m : list (string * A)) : list (string * A) :=
  match m with
  | [] => [(k, v)]
  | (k', v') :: m' =>
      if String.eqb k k' then (k, v) :: m' else (k', v') :: map_set k v m'
  end.

(** null or undefined *)
Definition nullish (v : value) : bool :=
  match v with
  | Undefined | Null => true
  | _ => false
  end.

End JS.

(** ** The command channel (bridge.ts) *)
Module Bridge.

(** WebSocket.readyState *)
Inductive ready_state := CONNECTING | OPEN | CLOSING | CLOSED.

Definition is_open (rs : ready_state) : bool :=
  match rs with OPEN => true | _ => false end.

(** The argument of [sendCommand]: a [PluginCommand] without its id. *)
Record Command := { type : string; body : JS.value }.

Inductive PluginResponse :=
  | result (id : string) (data : JS.value)
  | error (id : string) (err : string)
  | selection_changed (nodes : JS.value)
  | page_changed (pageId : string).

(** How a command promise was settled.  Each constructor is one call site of
    [resolve] or [reject] in createBridge. *)
Inductive outcome :=
  | Resolved (data : JS.value)          (* handleResponse, type result *)
  | RejectedError (err : string)        (* handleResponse, type error *)
  | RejectedTimeout (cmd_type : string) (* the setTimeout callback *)
  | RejectedSocketClosed                (* socket.on('close') *)
  | RejectedBridgeClosed                (* close() *)
  | RejectedSendFailed (err : string).  (* catch around socket.send *)

Definition COMMAND_TIMEOUT_MS : Z := 30000.

(** The message of the Error passed to [reject]. *)
Definition error_message (o : outcome) : option string :=
  match o with
  | Resolved _ => None
  | RejectedError e => Some e
  | RejectedTimeout ty => Some ("Command timeout after 30000ms: " +:+ ty)
  | RejectedSocketClosed => Some "WebSocket connection closed"
  | RejectedBridgeClosed => Some "Bridge closed"
  | RejectedSendFailed e => Some e
  end.

(** State of one bridge.  A promise created by [sendCommand] is named by the
    index of the [uuidv4()] draw made just before it; its [resolve], [reject]
    and [timer] are named by the same index.
    - [pending]: the Map<string, PendingCommand>;
    - [timers]: the armed timeout timers, with what their callback captured
      (the id and command.type);
    - [issued]: how many ids have been drawn;
    - [settled]: every call of a resolve or reject function, oldest first;
    - [wire]: the frames handed to socket.send without a throw;
    - [warnings]: console.warn lines of handleResponse. *)
Record bridge := {
  pending : gmap string nat;
  timers : gmap nat (string * string);
  issued : nat;
  settled : list (nat * outcome);
  wire : list (string * Command);
  warnings : list string
}.

Definition init : bridge :=
  {| pending := ∅; timers := ∅; issued := 0; settled := [];
     wire := []; warnings := [] |}.

(** What [sendCommand] returns: a promise that is already rejected, or the
    promise of a registered command. *)
Inductive future :=
  | AlreadyRejected (message : string)
  | Promise (p : nat).

Section WithUuid.

(** The id generator: the n-th call of uuidv4() returns [uuidv4 n]. *)
Variable uuidv4 : nat -> string.

(** [send_throws]: whether socket.send throws, and with what. *)
Definition sendCommand (readyState : ready_state) (send_throws : option string)
    (command : Command) (b : bridge) : bridge * future :=
  if negb (is_open readyState) then
    (b, AlreadyRejected "WebSocket not connected")
  else
    let p := issued b in
    let id := uuidv4 p in
    (* setTimeout, then pending.set *)
    let b1 := {| pending := <[id := p]> (pending b);
                 timers := <[p := (id, type command)]> (timers b);
                 issued := S p;
                 settled := settled b;
                 wire := wire b;
                 warnings := warnings b |} in
    match send_throws with
    | None =>
        ({| pending := pending b1; timers := timers b1; issued := issued b1;
            settled := settled b1;
            wire := wire b1 ++ [(id, command)];
            warnings := warnings b1 |}, Promise p)
    | Some e =>
        (* clearTimeout(timer); pending.delete(id); reject(error) *)
        ({| pending := delete id (pending b1);
            timers := delete p (timers b1);
            issued := issued b1;
            settled := settled b1 ++ [(p, RejectedSendFailed e)];
            wire := wire b1;
            warnings := warnings b1 |}, Promise p)
    end.

End WithUuid.

(** The body shared by the two response kinds: look the id up, warn and
    return when absent, otherwise clear the timer, delete the entry and
    settle. *)
Definition settle_response (id : string) (o : outcome) (b : bridge) : bridge :=
  match pending b !! id with
  | None =>
      {| pending := pending b; timers := timers b; issued := issued b;
         settled := settled b; wire := wire b;
         warnings := warnings b ++
           ["[Bridge] No pending command for response id: " +:+ id] |}
  | Some p =>
      {| pending := delete id (pending b);
         timers := delete p (timers b);
         issued := issued b;
         settled := settled b ++ [(p, o)];
         wire := wire b;
         warnings := warnings b |}
  end.

Definition handleResponse (response : PluginResponse) (b : bridge) : bridge :=
  match response with
  | result id data => settle_response id (Resolved data) b
  | error id err => settle_response id (RejectedError err) b
  | selection_changed _ | page_changed _ => b
  end.

(** The id a response carries; notifications carry none. *)
Definition response_id (r : PluginResponse) : option string :=
  match r with
  | result id _ | error id _ => Some id
  | selection_changed _ | page_changed _ => None
  end.

(** The setTimeout callback of promise [p].  A timer that was cleared, or that
    already fired, never runs: the step is then the identity. *)
Definition timeout (p : nat) (b : bridge) : bridge :=
  match timers b !! p with
  | None => b
  | Some (id, ty) =>
      {| pending := delete id (pending b);
         timers := delete p (timers b);
         issued := issued b;
         settled := settled b ++ [(p, RejectedTimeout ty)];
         wire := wire b;
         warnings := warnings b |}
  end.

(** The loop shared by socket.on('close') and close(): every pending entry
    has its timer cleared and is rejected, then the table is cleared.  (The
    Map is walked in insertion order; the table is walked in key order. Only
    the set of rejected promises is used below.) *)
Definition reject_all (o : outcome) (b : bridge) : bridge :=
  let entries := map_to_list (pending b) in
  {| pending := ∅;
     timers := foldr (fun e t => delete (snd e) t) (timers b) entries;
     issued := issued b;
     settled := settled b ++ List.map (fun e => (snd e, o)) entries;
     wire := wire b;
     warnings := warnings b |}.

Definition on_socket_close (b : bridge) : bridge := reject_all RejectedSocketClosed b.

(** close(): reject everything; socket.close() has no effect on the table. *)
Definition close (b : bridge) : bridge := reject_all RejectedBridgeClosed b.

(** What can happen to a bridge. *)
Inductive event :=
  | EvSend (readyState : ready_state) (send_throws : option string) (c : Command)
  | EvResponse (r : PluginResponse)
  | EvTimeout (p : nat)
  | EvSocketClose
  | EvClose.

Definition step (uuidv4 : nat -> string) (b : bridge) (e : event) : bridge :=
  match e with
  | EvSend rs th c => fst (sendCommand uuidv4 rs th c b)
  | EvResponse r => handleResponse r b
  | EvTimeout p => timeout p b
  | EvSocketClose => on_socket_close b
  | EvClose => close b
  end.

Definition run (uuidv4 : nat -> string) (b : bridge) (es : list event) : bridge :=
  foldl (step uuidv4) b es.

(** The calls of resolve/reject made on promise [p], oldest first. *)
Definition calls (p : nat) (b : bridge) : list outcome :=
  List.map snd (List.filter (fun e => Nat.eqb (fst e) p) (settled b)).

Section Outcomes.

Variable uuidv4 : nat -> string.

(** [terminal p c o post]: the call [o] made on the promise [p] of command [c]
    is one of the four terminal outcomes of a transmitted command, and the
    matching event occurs in [post]. *)
Definition terminal (p : nat) (c : Command) (o : outcome) (post : list event) : Prop :=
  match o with
  | Resolved d => In (EvResponse (result (uuidv4 p) d)) post
  | RejectedError e => In (EvResponse (error (uuidv4 p) e)) post
  | RejectedTimeout ty => ty = type c /\ In (EvTimeout p) post
  | RejectedSocketClosed => In EvSocketClose post
  | RejectedBridgeClosed => In EvClose post
  | RejectedSendFailed _ => False
  end.

(** The two states a transmitted command can be in. *)
Definition in_flight (p : nat) (c : Command) (b : bridge) : Prop :=
  timers b !! p = Some (uuidv4 p, type c) /\ calls p b = [].

Definition finished (p : nat) (c : Command) (post : list event) (b : bridge) : Prop :=
  timers b !! p = None /\ exists o, calls p b = [o] /\ terminal p c o post.

(** The invariant of the bridge state. *)
Record inv (b : bridge) : Prop := {
  inv_pending : forall id p, pending b !! id = Some p ->
      exists ty, timers b !! p = Some (id, ty);
  inv_timer : forall p id ty, timers b !! p = Some (id, ty) ->
      id = uuidv4 p /\ p < issued b /\ calls p b = [];
  inv_settled : forall p, p < issued b -> timers b !! p = None ->
      exists o, calls p b = [o];
  inv_fresh : forall p, issued b <= p -> calls p b = []
}.

End Outcomes.

End Bridge.

(** ** The plugin main thread (code.ts): host document model

    The Figma document is owned by the host.  The model keeps, for every
    scene node, the properties that code.ts reads or writes.  Property
    setters are plain stores: the host's own reactions to a write (auto-layout
    reflow, validation errors) are outside the repository and not modelled. *)
Module Plugin.

(** [figma.mixed]: a property whose value differs across a node's parts. *)
Inductive mixed (A : Type) :=
  | Mixed
  | Value (a : A).
Arguments Mixed {A}.
Arguments Value {A} a.

Record RGB := { r : Z; g : Z; b : Z }.
Record RGBA := { red : Z; green : Z; blue : Z; alpha : Z }.
Record ColorStop := { position : Z; stop_color : RGBA }.
Definition Transform := list (list Z).
Record Vector := { vx : Z; vy : Z }.
Record FontName := { family : string; style : string }.
Record LineHeight := { lh_value : option Z; lh_unit : string }.
Record LetterSpacing := { ls_value : Z; ls_unit : string }.

(** Paint and SerializedPaint are the same plain object shape: the fields
    that serializePaint copies.  [imageHash] is [None] for null and for
    undefined alike. *)
Record SerializedPaint := {
  paint_type : string;
  paint_visible : option bool;
  paint_opacity : option Z;
  color : option RGB;
  gradientStops : option (list ColorStop);
  gradientTransform : option Transform;
  imageHash : option string;
  scaleMode : option string;
  imageTransform : option Transform
}.
Definition Paint := SerializedPaint.

Record SerializedEffect := {
  effect_type : string;
  effect_visible : option bool;
  radius : option Z;
  effect_color : option RGBA;
  offset : option Vector;
  spread : option Z
}.
Definition Effect := SerializedEffect.

(** x, y, size, rotation and the auto-layout child properties. *)
Record LayoutProps := {
  x : Z; y : Z; width : Z; height : Z; rotation : Z;
  layoutPositioning : string;
  layoutSizingHorizontal : string;
  layoutSizingVertical : string
}.

(** Paint and blend properties; [None] when the property is not 'in' the
    node. *)
Record VisualProps := {
  fills : option (mixed (list Paint));
  strokes : option (mixed (list Paint));
  strokeWeight : option Z;
  cornerRadius : option (mixed Z);
  effects : option (mixed (list Effect));
  opacity : option Z
}.

(** Auto-layout container properties, read for FRAME nodes only. *)
Record FrameProps := {
  layoutMode : string;
  itemSpacing : Z;
  paddingTop : Z; paddingRight : Z; paddingBottom : Z; paddingLeft : Z;
  primaryAxisAlignItems : string;
  counterAxisAlignItems : string;
  primaryAxisSizingMode : string;
  counterAxisSizingMode : string;
  clipsContent : bool
}.

(** Text properties, read for TEXT nodes only. *)
Record TextProps := {
  characters : string;
  fontSize : mixed Z;
  fontName : mixed FontName;
  textAlignHorizontal : string;
  textAlignVertical : string;
  textAutoResize : string;
  lineHeight : mixed LineHeight;
  letterSpacing : mixed LetterSpacing;
  textCase : string;
  textDecoration : string
}.

Record NodeProps := {
  id : string;
  type : string;
  name : string;
  visible : bool;
  locked : bool;
  layout : LayoutProps;
  visual : VisualProps;
  frame : FrameProps;
  text : TextProps
}.

(** A scene node with its subtree; [children] is [None] when the node kind
    has no 'children' property. *)
Inductive SceneNode :=
  mkNode { props : NodeProps; children : option (list SceneNode) }.

(** *** Property stores

    [node.field = a] rebuilds the record with one field replaced.  The
    stores of fills, strokes, cornerRadius, effects and of the text
    properties that can read as figma.mixed write a plain value. *)

Definition with_layout (f : LayoutProps -> LayoutProps) (n : NodeProps) : NodeProps :=
  {| id := id n; type := type n; name := name n; visible := visible n;
     locked := locked n; layout := f (layout n); visual := visual n;
     frame := frame n; text := text n |}.
Definition with_visual (f : VisualProps -> VisualProps) (n : NodeProps) : NodeProps :=
  {| id := id n; type := type n; name := name n; visible := visible n;
     locked := locked n; layout := layout n; visual := f (visual n);
     frame := frame n; text := text n |}.
Definition with_frame (f : FrameProps -> FrameProps) (n : NodeProps) : NodeProps :=
  {| id := id n; type := type n; name := name n; visible := visible n;
     locked := locked n; layout := layout n; visual := visual n;
     frame := f (frame n); text := text n |}.
Definition with_text (f : TextProps -> TextProps) (n : NodeProps) : NodeProps :=
  {| id := id n; type := type n; name := name n; visible := visible n;
     locked := locked n; layout := layout n; visual := visual n;
     frame := frame n; text := f (text n) |}.

Definition set_id (a : string) (n : NodeProps) : NodeProps :=
  {| id := a; type := type n; name := name n; visible := visible n;
     locked := locked n; layout := layout n; visual := visual n;
     frame := frame n; text := text n |}.
Definition set_type (a : string) (n : NodeProps) : NodeProps :=
  {| id := id n; type := a; name := name n; visible := visible n;
     locked := locked n; layout := layout n; visual := visual n;
     frame := frame n; text := text n |}.
Definition set_name (a : string) (n : NodeProps) : NodeProps :=
  {| id := id n; type := type n; name := a; visible := visible n;
     locked := locked n; layout := layout n; visual := visual n;
     frame := frame n; text := text n |}.
Definition set_visible (a : bool) (n : NodeProps) : NodeProps :=
  {| id := id n; type := type n; name := name n; visible := a;
     locked := locked n; layout := layout n; visual := visual n;
     frame := frame n; text := text n |}.
Definition set_locked (a : bool) (n : NodeProps) : NodeProps :=
  {| id := id n; type := type n; name := name n; visible := visible n;
     locked := a; layout := layout n; visual := visual n; frame := frame n;
     text := text n |}.

Definition set_x (a : Z) (p : LayoutProps) : LayoutProps :=
  {| x := a; y := y p; width := width p; height := height p;
     rotation := rotation p; layoutPositioning := layoutPositioning p;
     layoutSizingHorizontal := layoutSizingHorizontal p;
     layoutSizingVertical := layoutSizingVertical p |}.
Definition set_y (a : Z) (p : LayoutProps) : LayoutProps :=
  {| x := x p; y := a; width := width p; height := height p;
     rotation := rotation p; layoutPositioning := layoutPositioning p;
     layoutSizingHorizontal := layoutSizingHorizontal p;
     layoutSizingVertical := layoutSizingVertical p |}.
Definition set_rotation (a : Z) (p : LayoutProps) : LayoutProps :=
  {| x := x p; y := y p; width := width p; height := height p; rotation := a;
     layoutPositioning := layoutPositioning p;
     layoutSizingHorizontal := layoutSizingHorizontal p;
     layoutSizingVertical := layoutSizingVertical p |}.
Definition set_layoutPositioning (a : string) (p : LayoutProps) : LayoutProps :=
  {| x := x p; y := y p; width := width p; height := height p;
     rotation := rotation p; layoutPositioning := a;
     layoutSizingHorizontal := layoutSizingHorizontal p;
     layoutSizingVertical := layoutSizingVertical p |}.
Definition set_layoutSizingHorizontal (a : string) (p : LayoutProps) : LayoutProps :=
  {| x := x p; y := y p; width := width p; height := height p;
     rotation := rotation p; layoutPositioning := layoutPositioning p;
     layoutSizingHorizontal := a;
     layoutSizingVertical := layoutSizingVertical p |}.
Definition set_layoutSizingVertical (a : string) (p : LayoutProps) : LayoutProps :=
  {| x := x p; y := y p; width := width p; height := height p;
     rotation := rotation p; layoutPositioning := layoutPositioning p;
     layoutSizingHorizontal := layoutSizingHorizontal p;
     layoutSizingVertical := a |}.
(** node.resize(w, h) *)
Definition resize (w h : Z) (p : LayoutProps) : LayoutProps :=
  {| x := x p; y := y p; width := w; height := h; rotation := rotation p;
     layoutPositioning := layoutPositioning p;
     layoutSizingHorizontal := layoutSizingHorizontal p;
     layoutSizingVertical := layoutSizingVertical p |}.

Definition set_fills (a : list Paint) (p : VisualProps) : VisualProps :=
  {| fills := Some (Value a); strokes := strokes p;
     strokeWeight := strokeWeight p; cornerRadius := cornerRadius p;
     effects := effects p; opacity := opacity p |}.
Definition set_strokes (a : list Paint) (p : VisualProps) : VisualProps :=
  {| fills := fills p; strokes := Some (Value a);
     strokeWeight := strokeWeight p; cornerRadius := cornerRadius p;
     effects := effects p; opacity := opacity p |}.
Definition set_strokeWeight (a : Z) (p : VisualProps) : VisualProps :=
  {| fills := fills p; strokes := strokes p; strokeWeight := Some a;
     cornerRadius := cornerRadius p; effects := effects p;
     opacity := opacity p |}.
Definition set_cornerRadius (a : Z) (p : VisualProps) : VisualProps :=
  {| fills := fills p; strokes := strokes p; strokeWeight := strokeWeight p;
     cornerRadius := Some (Value a); effects := effects p;
     opacity := opacity p |}.
Definition set_effects (a : list Effect) (p : VisualProps) : VisualProps :=
  {| fills := fills p; strokes := strokes p; strokeWeight := strokeWeight p;
     cornerRadius := cornerRadius p; effects := Some (Value a);
     opacity := opacity p |}.
Definition set_opacity (a : Z) (p : VisualProps) : VisualProps :=
  {| fills := fills p; strokes := strokes p; strokeWeight := strokeWeight p;
     cornerRadius := cornerRadius p; effects := effects p; opacity := Some a |}.

Definition set_layoutMode (a : string) (p : FrameProps) : FrameProps :=
  {| layoutMode := a; itemSpacing := itemSpacing p; paddingTop := paddingTop p;
     paddingRight := paddingRight p; paddingBottom := paddingBottom p;
     paddingLeft := paddingLeft p;
     primaryAxisAlignItems := primaryAxisAlignItems p;
     counterAxisAlignItems := counterAxisAlignItems p;
     primaryAxisSizingMode := primaryAxisSizingMode p;
     counterAxisSizingMode := counterAxisSizingMode p;
     clipsContent := clipsContent p |}.
Definition set_itemSpacing (a : Z) (p : FrameProps) : FrameProps :=
  {| layoutMode := layoutMode p; itemSpacing := a; paddingTop := paddingTop p;
     paddingRight := paddingRight p; paddingBottom := paddingBottom p;
     paddingLeft := paddingLeft p;
     primaryAxisAlignItems := primaryAxisAlignItems p;
     counterAxisAlignItems := counterAxisAlignItems p;
     primaryAxisSizingMode := primaryAxisSizingMode p;
     counterAxisSizingMode := counterAxisSizingMode p;
     clipsContent := clipsContent p |}.
Definition set_paddingTop (a : Z) (p : FrameProps) : FrameProps :=
  {| layoutMode := layoutMode p; itemSpacing := itemSpacing p; paddingTop := a;
     paddingRight := paddingRight p; paddingBottom := paddingBottom p;
     paddingLeft := paddingLeft p;
     primaryAxisAlignItems := primaryAxisAlignItems p;
     counterAxisAlignItems := counterAxisAlignItems p;
     primaryAxisSizingMode := primaryAxisSizingMode p;
     counterAxisSizingMode := counterAxisSizingMode p;
     clipsContent := clipsContent p |}.
Definition set_paddingRight (a : Z) (p : FrameProps) : FrameProps :=
  {| layoutMode := layoutMode p; itemSpacing := itemSpacing p;
     paddingTop := paddingTop p; paddingRight := a;
     paddingBottom := paddingBottom p; paddingLeft := paddingLeft p;
     primaryAxisAlignItems := primaryAxisAlignItems p;
     counterAxisAlignItems := counterAxisAlignItems p;
     primaryAxisSizingMode := primaryAxisSizingMode p;
     counterAxisSizingMode := counterAxisSizingMode p;
     clipsContent := clipsContent p |}.
Definition set_paddingBottom (a : Z) (p : FrameProps) : FrameProps :=
  {| layoutMode := layoutMode p; itemSpacing := itemSpacing p;
     paddingTop := paddingTop p; paddingRight := paddingRight p;
     paddingBottom := a; paddingLeft := paddingLeft p;
     primaryAxisAlignItems := primaryAxisAlignItems p;
     counterAxisAlignItems := counterAxisAlignItems p;
     primaryAxisSizingMode := primaryAxisSizingMode p;
     counterAxisSizingMode := counterAxisSizingMode p;
     clipsContent := clipsContent p |}.
Definition set_paddingLeft (a : Z) (p : FrameProps) : FrameProps :=
  {| layoutMode := layoutMode p; itemSpacing := itemSpacing p;
     paddingTop := paddingTop p; paddingRight := paddingRight p;
     paddingBottom := paddingBottom p; paddingLeft := a;
     primaryAxisAlignItems := primaryAxisAlignItems p;
     counterAxisAlignItems := counterAxisAlignItems p;
     primaryAxisSizingMode := primaryAxisSizingMode p;
     counterAxisSizingMode := counterAxisSizingMode p;
     clipsContent := clipsContent p |}.
Definition set_primaryAxisAlignItems (a : string) (p : FrameProps) : FrameProps :=
  {| layoutMode := layoutMode p; itemSpacing := itemSpacing p;
     paddingTop := paddingTop p; paddingRight := paddingRight p;
     paddingBottom := paddingBottom p; paddingLeft := paddingLeft p;
     primaryAxisAlignItems := a;
     counterAxisAlignItems := counterAxisAlignItems p;
     primaryAxisSizingMode := primaryAxisSizingMode p;
     counterAxisSizingMode := counterAxisSizingMode p;
     clipsContent := clipsContent p |}.
Definition set_counterAxisAlignItems (a : string) (p : FrameProps) : FrameProps :=
  {| layoutMode := layoutMode p; itemSpacing := itemSpacing p;
     paddingTop := paddingTop p; paddingRight := paddingRight p;
     paddingBottom := paddingBottom p; paddingLeft := paddingLeft p;
     primaryAxisAlignItems := primaryAxisAlignItems p;
     counterAxisAlignItems := a;
     primaryAxisSizingMode := primaryAxisSizingMode p;
     counterAxisSizingMode := counterAxisSizingMode p;
     clipsContent := clipsContent p |}.
Definition set_primaryAxisSizingMode (a : string) (p : FrameProps) : FrameProps :=
  {| layoutMode := layoutMode p; itemSpacing := itemSpacing p;
     paddingTop := paddingTop p; paddingRight := paddingRight p;
     paddingBottom := paddingBottom p; paddingLeft := paddingLeft p;
     primaryAxisAlignItems := primaryAxisAlignItems p;
     counterAxisAlignItems := counterAxisAlignItems p;
     primaryAxisSizingMode := a;
     counterAxisSizingMode := counterAxisSizingMode p;
     clipsContent := clipsContent p |}.
Definition set_counterAxisSizingMode (a : string) (p : FrameProps) : FrameProps :=
  {| layoutMode := layoutMode p; itemSpacing := itemSpacing p;
     paddingTop := paddingTop p; paddingRight := paddingRight p;
     paddingBottom := paddingBottom p; paddingLeft := paddingLeft p;
     primaryAxisAlignItems := primaryAxisAlignItems p;
     counterAxisAlignItems := counterAxisAlignItems p;
     primaryAxisSizingMode := primaryAxisSizingMode p;
     counterAxisSizingMode := a; clipsContent := clipsContent p |}.
Definition set_clipsContent (a : bool) (p : FrameProps) : FrameProps :=
  {| layoutMode := layoutMode p; itemSpacing := itemSpacing p;
     paddingTop := paddingTop p; paddingRight := paddingRight p;
     paddingBottom := paddingBottom p; paddingLeft := paddingLeft p;
     primaryAxisAlignItems := primaryAxisAlignItems p;
     counterAxisAlignItems := counterAxisAlignItems p;
     primaryAxisSizingMode := primaryAxisSizingMode p;
     counterAxisSizingMode := counterAxisSizingMode p; clipsContent := a |}.

Definition set_characters (a : string) (p : TextProps) : TextProps :=
  {| characters := a; fontSize := fontSize p; fontName := fontName p;
     textAlignHorizontal := textAlignHorizontal p;
     textAlignVertical := textAlignVertical p;
     textAutoResize := textAutoResize p; lineHeight := lineHeight p;
     letterSpacing := letterSpacing p; textCase := textCase p;
     textDecoration := textDecoration p |}.
Definition set_fontSize (a : Z) (p : TextProps) : TextProps :=
  {| characters := characters p; fontSize := Value a; fontName := fontName p;
     textAlignHorizontal := textAlignHorizontal p;
     textAlignVertical := textAlignVertical p;
     textAutoResize := textAutoResize p; lineHeight := lineHeight p;
     letterSpacing := letterSpacing p; textCase := textCase p;
     textDecoration := textDecoration p |}.
Definition set_fontName (a : FontName) (p : TextProps) : TextProps :=
  {| characters := characters p; fontSize := fontSize p; fontName := Value a;
     textAlignHorizontal := textAlignHorizontal p;
     textAlignVertical := textAlignVertical p;
     textAutoResize := textAutoResize p; lineHeight := lineHeight p;
     letterSpacing := letterSpacing p; textCase := textCase p;
     textDecoration := textDecoration p |}.
Definition set_textAlignHorizontal (a : string) (p : TextProps) : TextProps :=
  {| characters := characters p; fontSize := fontSize p; fontName := fontName p;
     textAlignHorizontal := a; textAlignVertical := textAlignVertical p;
     textAutoResize := textAutoResize p; lineHeight := lineHeight p;
     letterSpacing := letterSpacing p; textCase := textCase p;
     textDecoration := textDecoration p |}.
Definition set_textAlignVertical (a : string) (p : TextProps) : TextProps :=
  {| characters := characters p; fontSize := fontSize p; fontName := fontName p;
     textAlignHorizontal := textAlignHorizontal p; textAlignVertical := a;
     textAutoResize := textAutoResize p; lineHeight := lineHeight p;
     letterSpacing := letterSpacing p; textCase := textCase p;
     textDecoration := textDecoration p |}.
Definition set_textAutoResize (a : string) (p : TextProps) : TextProps :=
  {| characters := characters p; fontSize := fontSize p; fontName := fontName p;
     textAlignHorizontal := textAlignHorizontal p;
     textAlignVertical := textAlignVertical p; textAutoResize := a;
     lineHeight := lineHeight p; letterSpacing := letterSpacing p;
     textCase := textCase p; textDecoration := textDecoration p |}.
Definition set_lineHeight (a : LineHeight) (p : TextProps) : TextProps :=
  {| characters := characters p; fontSize := fontSize p; fontName := fontName p;
     textAlignHorizontal := textAlignHorizontal p;
     textAlignVertical := textAlignVertical p;
     textAutoResize := textAutoResize p; lineHeight := Value a;
     letterSpacing := letterSpacing p; textCase := textCase p;
     textDecoration := textDecoration p |}.
Definition set_letterSpacing (a : LetterSpacing) (p : TextProps) : TextProps :=
  {| characters := characters p; fontSize := fontSize p; fontName := fontName p;
     textAlignHorizontal := textAlignHorizontal p;
     textAlignVertical := textAlignVertical p;
     textAutoResize := textAutoResize p; lineHeight := lineHeight p;
     letterSpacing := Value a; textCase := textCase p;
     textDecoration := textDecoration p |}.
Definition set_textCase (a : string) (p : TextProps) : TextProps :=
  {| characters := characters p; fontSize := fontSize p; fontName := fontName p;
     textAlignHorizontal := textAlignHorizontal p;
     textAlignVertical := textAlignVertical p;
     textAutoResize := textAutoResize p; lineHeight := lineHeight p;
     letterSpacing := letterSpacing p; textCase := a;
     textDecoration := textDecoration p |}.
Definition set_textDecoration (a : string) (p : TextProps) : TextProps :=
  {| characters := characters p; fontSize := fontSize p; fontName := fontName p;
     textAlignHorizontal := textAlignHorizontal p;
     textAlignVertical := textAlignVertical p;
     textAutoResize := textAutoResize p; lineHeight := lineHeight p;
     letterSpacing := letterSpacing p; textCase := textCase p;
     textDecoration := a |}.

(** *** SerializedNode (shared/types.ts)

    The fields that serializeNode writes or restoreNodeProperties reads.
    The position and size are required by the type, but the restore code
    tests them for absence, so they are optional here. *)
Module Serialized.

Record Props := {
  id : string;
  type : string;
  name : string;
  x : option Z; y : option Z; width : option Z; height : option Z;
  rotation : option Z;
  fills : option (list SerializedPaint);
  strokes : option (list SerializedPaint);
  strokeWeight : option Z;
  cornerRadius : option Z;
  effects : option (list SerializedEffect);
  opacity : option Z;
  visible : option bool;
  locked : option bool;
  layoutMode : option string;
  layoutPositioning : option string;
  itemSpacing : option Z;
  paddingTop : option Z; paddingRight : option Z;
  paddingBottom : option Z; paddingLeft : option Z;
  primaryAxisAlignItems : option string;
  counterAxisAlignItems : option string;
  primaryAxisSizingMode : option string;
  counterAxisSizingMode : option string;
  layoutSizingHorizontal : option string;
  layoutSizingVertical : option string;
  clipsContent : option bool;
  characters : option string;
  fontSize : option Z;
  fontName : option FontName;
  textAlignHorizontal : option string;
  textAlignVertical : option string;
  textAutoResize : option string;
  lineHeight : option LineHeight;
  letterSpacing : option LetterSpacing;
  textCase : option string;
  textDecoration : option string
}.

Inductive Node :=
  mk { props : Props; children : option (list Node) }.

(** The same captured properties under another id. *)
Definition set_id (i : string) (d : Props) : Props :=
  {| id := i;
     type := type d;
     name := name d;
     x := x d;
     y := y d;
     width := width d;
     height := height d;
     rotation := rotation d;
     fills := fills d;
     strokes := strokes d;
     strokeWeight := strokeWeight d;
     cornerRadius := cornerRadius d;
     effects := effects d;
     opacity := opacity d;
     visible := visible d;
     locked := locked d;
     layoutMode := layoutMode d;
     layoutPositioning := layoutPositioning d;
     itemSpacing := itemSpacing d;
     paddingTop := paddingTop d;
     paddingRight := paddingRight d;
     paddingBottom := paddingBottom d;
     paddingLeft := paddingLeft d;
     primaryAxisAlignItems := primaryAxisAlignItems d;
     counterAxisAlignItems := counterAxisAlignItems d;
     primaryAxisSizingMode := primaryAxisSizingMode d;
     counterAxisSizingMode := counterAxisSizingMode d;
     layoutSizingHorizontal := layoutSizingHorizontal d;
     layoutSizingVertical := layoutSizingVertical d;
     clipsContent := clipsContent d;
     characters := characters d;
     fontSize := fontSize d;
     fontName := fontName d;
     textAlignHorizontal := textAlignHorizontal d;
     textAlignVertical := textAlignVertical d;
     textAutoResize := textAutoResize d;
     lineHeight := lineHeight d;
     letterSpacing := letterSpacing d;
     textCase := textCase d;
     textDecoration := textDecoration d |}.

(** A snapshot with every id blanked: what is compared when identities are
    excluded. *)
Fixpoint anonymous (d : Node) : Node :=
  match d with
  | mk p ch => mk (set_id "" p) (List.map anonymous <$> ch)
  end.

End Serialized.

Abbreviation SerializedNode := Serialized.Node.

(** [unmixed m]: the value when it is not figma.mixed. *)
Definition unmixed {A} (m : mixed A) : option A :=
  match m with Mixed => None | Value a => Some a end.

(** [when c v]: the assignment is made only under condition [c]. *)
Definition when {A} (c : bool) (v : option A) : option A :=
  if c then v else None.

(** *** serializePaint, serializeEffect, serializeNode *)

(** A gradient stop is copied, with a copy of its colour. *)
Definition copy_stop (s : ColorStop) : ColorStop :=
  {| position := position s; stop_color := stop_color s |}.

(** In the gradient branch the host value always has its stops
    (GradientPaint.gradientStops is required); were they missing, the
    [.map] would throw.  The model leaves them missing. *)
Definition serializePaint (paint : Paint) : SerializedPaint :=
  let ty := paint_type paint in
  let solid := String.eqb ty "SOLID" in
  let gradient := negb solid && String.prefix "GRADIENT" ty in
  let image := negb solid && negb gradient && String.eqb ty "IMAGE" in
  {| paint_type := ty;
     paint_visible := paint_visible paint;
     paint_opacity := paint_opacity paint;
     color := when solid (color paint);
     gradientStops := when gradient (List.map copy_stop <$> gradientStops paint);
     gradientTransform := when gradient (gradientTransform paint);
     imageHash := when image (imageHash paint);
     scaleMode := when image (scaleMode paint);
     imageTransform := when image (imageTransform paint) |}.

Definition serializeEffect (effect : Effect) : SerializedEffect :=
  {| effect_type := effect_type effect;
     effect_visible := effect_visible effect;
     radius := radius effect;
     effect_color := effect_color effect;
     offset := offset effect;
     spread := spread effect |}.

(** The own properties of one node, as serializeNode captures them. *)
Definition serializeProps (node : NodeProps) : Serialized.Props :=
  let ln := layout node in
  let geo := visual node in
  let is_frame := String.eqb (type node) "FRAME" in
  let is_text := String.eqb (type node) "TEXT" in
  let fr := frame node in
  let tx := text node in
  let auto := is_frame && negb (String.eqb (layoutMode fr) "NONE") in
  {| Serialized.id := id node;
     Serialized.type := type node;
     Serialized.name := name node;
     Serialized.x := Some (x ln);
     Serialized.y := Some (y ln);
     Serialized.width := Some (width ln);
     Serialized.height := Some (height ln);
     Serialized.rotation := when (negb (rotation ln =? 0)%Z) (Some (rotation ln));
     Serialized.visible := when (negb (visible node)) (Some false);
     Serialized.locked := when (locked node) (Some true);
     Serialized.fills := List.map serializePaint <$> (fills geo ≫= unmixed);
     Serialized.strokes := List.map serializePaint <$> (strokes geo ≫= unmixed);
     Serialized.strokeWeight := strokeWeight geo;
     Serialized.cornerRadius := cornerRadius geo ≫= unmixed;
     Serialized.effects := List.map serializeEffect <$> (effects geo ≫= unmixed);
     Serialized.opacity :=
       match opacity geo with
       | Some o => when (negb (o =? 1)%Z) (Some o)
       | None => None
       end;
     Serialized.layoutMode := when is_frame (Some (layoutMode fr));
     Serialized.layoutPositioning := when is_frame (Some (layoutPositioning ln));
     Serialized.itemSpacing := when auto (Some (itemSpacing fr));
     Serialized.paddingTop := when auto (Some (paddingTop fr));
     Serialized.paddingRight := when auto (Some (paddingRight fr));
     Serialized.paddingBottom := when auto (Some (paddingBottom fr));
     Serialized.paddingLeft := when auto (Some (paddingLeft fr));
     Serialized.primaryAxisAlignItems := when auto (Some (primaryAxisAlignItems fr));
     Serialized.counterAxisAlignItems := when auto (Some (counterAxisAlignItems fr));
     Serialized.primaryAxisSizingMode := when auto (Some (primaryAxisSizingMode fr));
     Serialized.counterAxisSizingMode := when auto (Some (counterAxisSizingMode fr));
     Serialized.layoutSizingHorizontal := when auto (Some (layoutSizingHorizontal ln));
     Serialized.layoutSizingVertical := when auto (Some (layoutSizingVertical ln));
     Serialized.clipsContent := when is_frame (Some (clipsContent fr));
     Serialized.characters := when is_text (Some (characters tx));
     Serialized.fontSize := when is_text (unmixed (fontSize tx));
     Serialized.fontName := when is_text (unmixed (fontName tx));
     Serialized.textAlignHorizontal := when is_text (Some (textAlignHorizontal tx));
     Serialized.textAlignVertical := when is_text (Some (textAlignVertical tx));
     Serialized.textAutoResize := when is_text (Some (textAutoResize tx));
     Serialized.lineHeight := when is_text (unmixed (lineHeight tx));
     Serialized.letterSpacing := when is_text (unmixed (letterSpacing tx));
     Serialized.textCase := None;
     Serialized.textDecoration := None |}.

(** serializeNode(node, maxDepth, currentDepth): children are captured only
    while [currentDepth < maxDepth]. *)
Fixpoint serializeNode (node : SceneNode) (maxDepth currentDepth : nat) : SerializedNode :=
  match node with
  | mkNode p ch =>
      Serialized.mk (serializeProps p)
        (match ch with
         | Some cs =>
             if (currentDepth <? maxDepth)%nat
             then Some (List.map (fun child => serializeNode child maxDepth (S currentDepth)) cs)
             else None
         | None => None
         end)
  end.

(** *** The host: node creation and font loading

    What figma.createFrame() and its siblings return is decided by the host.
    A [Host] gives the initial property values of a freshly created node of
    each kind and tells which fonts loadFontAsync can load.  The kind and the
    id of a new node are set by the creation function. *)
Record Host := {
  newFrame : NodeProps;
  newText : NodeProps;
  newRectangle : NodeProps;
  newEllipse : NodeProps;
  fontAvailable : FontName -> bool;
  (* the message of the Error loadFontAsync rejects with *)
  fontError : FontName -> string;
  (* figma.listAvailableFontsAsync() *)
  availableFonts : list FontName;
  (* figma.createImage(figma.base64Decode(base64)).hash *)
  imageHashOf : string -> string
}.

(** The id of the n-th node created in a session. *)
Definition node_id (n : nat) : string := "1:" +:+ pretty n.

Definition createFrame (h : Host) (n : nat) : NodeProps :=
  set_id (node_id n) (set_type "FRAME" (newFrame h)).
Definition createText (h : Host) (n : nat) : NodeProps :=
  set_id (node_id n) (set_type "TEXT" (newText h)).
Definition createRectangle (h : Host) (n : nat) : NodeProps :=
  set_id (node_id n) (set_type "RECTANGLE" (newRectangle h)).
Definition createEllipse (h : Host) (n : nat) : NodeProps :=
  set_id (node_id n) (set_type "ELLIPSE" (newEllipse h)).

Definition identity_transform : Transform := [[1; 0; 0]; [0; 1; 0]]%Z.

Export JS (result, Ok, Throw).

(** *** restorePaint, restoreEffect, restoreNodeProperties *)

Definition is_some {A} (o : option A) : bool :=
  match o with Some _ => true | None => false end.

(** Truthiness of an optional string: present and not empty. *)
Definition truthy_string (o : option string) : bool :=
  match o with Some s => negb (String.eqb s "") | None => false end.

Definition restorePaint (fill : SerializedPaint) : option Paint :=
  let ty := paint_type fill in
  let vis := Some (default true (paint_visible fill)) in
  let op := Some (default 1%Z (paint_opacity fill)) in
  if String.eqb ty "SOLID" && is_some (color fill) then
    Some {| paint_type := "SOLID"; paint_visible := vis; paint_opacity := op;
            color := color fill;
            gradientStops := None; gradientTransform := None;
            imageHash := None; scaleMode := None; imageTransform := None |}
  else if String.prefix "GRADIENT" ty && is_some (gradientStops fill) then
    Some {| paint_type := ty; paint_visible := vis; paint_opacity := op;
            color := None;
            gradientStops :=
              List.map (fun s => {| position := position s; stop_color := stop_color s |})
                <$> gradientStops fill;
            gradientTransform :=
              Some (default identity_transform (gradientTransform fill));
            imageHash := None; scaleMode := None; imageTransform := None |}
  else if String.eqb ty "IMAGE" && truthy_string (imageHash fill) then
    Some {| paint_type := "IMAGE"; paint_visible := vis; paint_opacity := op;
            color := None; gradientStops := None; gradientTransform := None;
            imageHash := imageHash fill;
            scaleMode :=
              Some (if truthy_string (scaleMode fill)
                    then default "FILL" (scaleMode fill) else "FILL");
            imageTransform :=
              Some (default identity_transform (imageTransform fill)) |}
  else None.

Definition restoreEffect (data : SerializedEffect) : Effect :=
  {| effect_type := effect_type data;
     effect_visible := Some (default true (effect_visible data));
     radius := radius data;
     effect_color := effect_color data;
     offset := offset data;
     spread := spread data |}.

(** [if (v !== undefined) target.field = v] *)
Definition assign {A R} (v : option A) (store : A -> R -> R) (target : R) : R :=
  match v with Some a => store a target | None => target end.

(** The paints of a snapshot that restorePaint accepts, in order. *)
Definition restorePaints (l : list SerializedPaint) : list Paint :=
  omap restorePaint l.

(** restoreNodeProperties, block by block as the source comments divide it.
    Every block takes the node as the blocks before it left it; a block
    works on the node through the cast the source uses ([ln], the geometry
    and blend mixins, [frame], [text]). *)

(** Name *)
Definition restore_name (data : Serialized.Props) (node : NodeProps) : NodeProps :=
  if negb (String.eqb (Serialized.name data) "")
  then set_name (Serialized.name data) node else node.

(** [if (data.width !== undefined && data.height !== undefined) resize(...)] *)
Definition restore_size (data : Serialized.Props) (ln : LayoutProps) : LayoutProps :=
  match Serialized.width data, Serialized.height data with
  | Some w, Some ht => resize w ht ln
  | _, _ => ln
  end.

(** Position and dimensions *)
Definition restore_position (data : Serialized.Props) (ln : LayoutProps) : LayoutProps :=
  let ln := assign (Serialized.x data) set_x ln in
  let ln := assign (Serialized.y data) set_y ln in
  let ln := restore_size data ln in
  assign (Serialized.rotation data) set_rotation ln.

(** Visibility and locked state *)
Definition restore_visibility (data : Serialized.Props) (node : NodeProps) : NodeProps :=
  let node := match Serialized.visible data with
              | Some false => set_visible false node
              | _ => node
              end in
  match Serialized.locked data with
  | Some true => set_locked true node
  | _ => node
  end.

(** Opacity *)
Definition restore_opacity (data : Serialized.Props) (blend : VisualProps) : VisualProps :=
  assign (Serialized.opacity data) set_opacity blend.

(** [if (restored.length > 0) target = restored] *)
Definition store_paints (restored : list Paint)
    (store : list Paint -> VisualProps -> VisualProps) (geo : VisualProps) : VisualProps :=
  match restored with
  | [] => geo
  | _ :: _ => store restored geo
  end.

(** Fills: [if (data.fills && 'fills' in node)] *)
Definition restore_fills (data : Serialized.Props) (geo : VisualProps) : VisualProps :=
  match Serialized.fills data with
  | Some fs =>
      if is_some (fills geo) then store_paints (restorePaints fs) set_fills geo else geo
  | None => geo
  end.

(** Strokes *)
Definition restore_strokes (data : Serialized.Props) (geo : VisualProps) : VisualProps :=
  match Serialized.strokes data with
  | Some ss =>
      if is_some (strokes geo) then store_paints (restorePaints ss) set_strokes geo else geo
  | None => geo
  end.

(** Stroke weight *)
Definition restore_strokeWeight (data : Serialized.Props) (geo : VisualProps) : VisualProps :=
  if is_some (strokeWeight geo)
  then assign (Serialized.strokeWeight data) set_strokeWeight geo
  else geo.

(** Corner radius *)
Definition restore_cornerRadius (data : Serialized.Props) (geo : VisualProps) : VisualProps :=
  if is_some (cornerRadius geo)
  then assign (Serialized.cornerRadius data) set_cornerRadius geo
  else geo.

(** Effects *)
Definition restore_effects (data : Serialized.Props) (blend : VisualProps) : VisualProps :=
  match Serialized.effects data with
  | Some es =>
      if is_some (effects blend) then set_effects (List.map restoreEffect es) blend else blend
  | None => blend
  end.

(** Layout sizing *)
Definition restore_layoutSizing (data : Serialized.Props) (ln : LayoutProps) : LayoutProps :=
  let ln := assign (Serialized.layoutSizingHorizontal data) set_layoutSizingHorizontal ln in
  assign (Serialized.layoutSizingVertical data) set_layoutSizingVertical ln.

(** Layout positioning and layout sizing, on any node *)
Definition restore_layout_child (data : Serialized.Props) (ln : LayoutProps) : LayoutProps :=
  let ln := assign (Serialized.layoutPositioning data) set_layoutPositioning ln in
  restore_layoutSizing data ln.

(** [if (data.layoutMode && data.layoutMode !== 'NONE')] *)
Definition auto_layout_enabled (data : Serialized.Props) : bool :=
  truthy_string (Serialized.layoutMode data)
  && negb (bool_decide (Serialized.layoutMode data = Some "NONE")).

(** The auto-layout container properties: layoutMode first, the rest only
    when auto-layout is on. *)
Definition restore_frame_props (data : Serialized.Props) (frame : FrameProps) : FrameProps :=
  (* Set layoutMode first *)
  let frame := assign (Serialized.layoutMode data) set_layoutMode frame in
  if auto_layout_enabled data then
    let frame := assign (Serialized.itemSpacing data) set_itemSpacing frame in
    let frame := assign (Serialized.paddingTop data) set_paddingTop frame in
    let frame := assign (Serialized.paddingRight data) set_paddingRight frame in
    let frame := assign (Serialized.paddingBottom data) set_paddingBottom frame in
    let frame := assign (Serialized.paddingLeft data) set_paddingLeft frame in
    let frame := assign (Serialized.primaryAxisAlignItems data)
                   set_primaryAxisAlignItems frame in
    let frame := assign (Serialized.counterAxisAlignItems data)
                   set_counterAxisAlignItems frame in
    let frame := assign (Serialized.primaryAxisSizingMode data)
                   set_primaryAxisSizingMode frame in
    assign (Serialized.counterAxisSizingMode data) set_counterAxisSizingMode frame
  else frame.

(** Auto-layout properties (FRAME only) *)
Definition restore_autolayout (data : Serialized.Props) (node : NodeProps) : NodeProps :=
  if String.eqb (type node) "FRAME" then
    let node := with_frame (restore_frame_props data) node in
    (* Layout sizing for child frames inside auto-layout parents *)
    let node := with_layout (restore_layoutSizing data) node in
    (* Clips content *)
    let node := with_frame (assign (Serialized.clipsContent data) set_clipsContent) node in
    (* ALWAYS re-apply dimensions after layout mode changes *)
    with_layout (restore_size data) node
  else node.

(** The text properties.  The font is set only when it loads:
    [try { await loadFontAsync(f); text.fontName = f } catch {}]. *)
Definition restore_text_props (h : Host) (data : Serialized.Props) (text : TextProps)
    : TextProps :=
  let text := match Serialized.fontName data with
              | Some f => if fontAvailable h f then set_fontName f text else text
              | None => text
              end in
  let text := assign (Serialized.characters data) set_characters text in
  let text := assign (Serialized.fontSize data) set_fontSize text in
  let text := assign (Serialized.textAlignHorizontal data) set_textAlignHorizontal text in
  let text := assign (Serialized.textAlignVertical data) set_textAlignVertical text in
  let text := assign (Serialized.textAutoResize data) set_textAutoResize text in
  let text := assign (Serialized.lineHeight data) set_lineHeight text in
  let text := assign (Serialized.letterSpacing data) set_letterSpacing text in
  let text := assign (Serialized.textCase data) set_textCase text in
  assign (Serialized.textDecoration data) set_textDecoration text.

(** Text properties (TEXT only) *)
Definition restore_text (h : Host) (data : Serialized.Props) (node : NodeProps) : NodeProps :=
  if String.eqb (type node) "TEXT"
  then with_text (restore_text_props h data) node
  else node.

Definition restoreNodeProperties (h : Host) (node : NodeProps)
    (data : Serialized.Props) : NodeProps :=
  let node := restore_name data node in
  let node := with_layout (restore_position data) node in
  let node := restore_visibility data node in
  let node := with_visual (restore_opacity data) node in
  let node := with_visual (restore_fills data) node in
  let node := with_visual (restore_strokes data) node in
  let node := with_visual (restore_strokeWeight data) node in
  let node := with_visual (restore_cornerRadius data) node in
  let node := with_visual (restore_effects data) node in
  let node := with_layout (restore_layout_child data) node in
  let node := restore_autolayout data node in
  restore_text h data node.

(** *** Which trees restore exactly

    The conditions under which restoring a snapshot onto a target node gives
    back what was captured.  They are stated on the node that was captured
    ([source]) and on the node the snapshot is restored onto ([target]: a
    freshly created node, or the checkpointed root itself). *)

(** A paint that restorePaint accepts and rebuilds in full. *)
Definition paint_restorable (p : Paint) : bool :=
  is_some (paint_visible p) && is_some (paint_opacity p) &&
  (if String.eqb (paint_type p) "SOLID" then is_some (color p)
   else if String.prefix "GRADIENT" (paint_type p) then
     is_some (gradientStops p) && is_some (gradientTransform p)
   else if String.eqb (paint_type p) "IMAGE" then
     truthy_string (imageHash p) && truthy_string (scaleMode p)
     && is_some (imageTransform p)
   else false).

Definition effect_restorable (e : Effect) : bool := is_some (effect_visible e).

(** A paint list: every paint restorable; an empty list is only reproduced
    when the target's list is empty already; a list that was not captured
    (absent or mixed) must not be capturable on the target either. *)
Definition paints_restorable_onto (target source : option (mixed (list Paint))) : bool :=
  match source with
  | Some (Value l) =>
      forallb paint_restorable l &&
      match l with
      | [] => match target with Some (Value []) => true | _ => false end
      | _ :: _ => is_some target
      end
  | _ => negb (is_some (target ≫= unmixed))
  end.

(** A value that is captured whenever it is present. *)
Definition present_onto {A} (target source : option A) : bool :=
  match source with
  | Some _ => is_some target
  | None => negb (is_some target)
  end.

(** A value that is captured unless it is mixed. *)
Definition unmixed_onto {A B} (target : option (mixed A)) (source : option (mixed B)) : bool :=
  match source with
  | Some (Value _) => is_some target
  | _ => negb (is_some (target ≫= unmixed))
  end.

Definition text_unmixed_onto {A} (target source : mixed A) : bool :=
  match source with
  | Value _ => true
  | Mixed => negb (is_some (unmixed target))
  end.

Definition visual_restorable_onto (target source : VisualProps) : bool :=
  paints_restorable_onto (fills target) (fills source)
  && paints_restorable_onto (strokes target) (strokes source)
  && present_onto (strokeWeight target) (strokeWeight source)
  && unmixed_onto (cornerRadius target) (cornerRadius source)
  && match effects source with
     | Some (Value l) => forallb effect_restorable l && is_some (effects target)
     | _ => negb (is_some (effects target ≫= unmixed))
     end
  && match opacity source with
     | Some o =>
         if (o =? 1)%Z then bool_decide (opacity target = Some 1%Z) else true
     | None => bool_decide (opacity target = None)
     end.

Definition text_restorable_onto (h : Host) (target source : TextProps) : bool :=
  text_unmixed_onto (fontSize target) (fontSize source)
  && match fontName source with
     | Value f => fontAvailable h f
     | Mixed => negb (is_some (unmixed (fontName target)))
     end
  && text_unmixed_onto (lineHeight target) (lineHeight source)
  && text_unmixed_onto (letterSpacing target) (letterSpacing source).

Definition restorable_onto (h : Host) (target source : NodeProps) : bool :=
  String.eqb (type target) (type source)
  && (negb (String.eqb (name source) "") || String.eqb (name target) (name source))
  && (negb (rotation (layout source) =? 0)%Z || (rotation (layout target) =? 0)%Z)
  && (negb (visible source) || visible target)
  && (locked source || negb (locked target))
  && visual_restorable_onto (visual target) (visual source)
  && (negb (String.eqb (type source) "FRAME")
      || negb (String.eqb (layoutMode (frame source)) ""))
  && (negb (String.eqb (type source) "TEXT")
      || text_restorable_onto h (text target) (text source)).

(** A whole subtree that can be rebuilt from freshly created nodes: every
    node is of a kind rebuildNode creates, restorable onto a fresh node of
    its kind, and only frames have children. *)
Fixpoint restorable (h : Host) (n : SceneNode) : bool :=
  match n with
  | mkNode p ch =>
      let ty := type p in
      if String.eqb ty "FRAME" then
        restorable_onto h (createFrame h 0) p
        && match ch with
           | Some cs => forallb (restorable h) cs
           | None => false
           end
      else if String.eqb ty "TEXT" then
        restorable_onto h (createText h 0) p && negb (is_some ch)
      else if String.eqb ty "RECTANGLE" then
        restorable_onto h (createRectangle h 0) p && negb (is_some ch)
      else if String.eqb ty "ELLIPSE" then
        restorable_onto h (createEllipse h 0) p && negb (is_some ch)
      else false
  end.

(** The checkpointed root: its own properties are restored onto the target
    as it is at restore time, its children are rebuilt. *)
Definition restorable_root (h : Host) (target : NodeProps) (n : SceneNode) : bool :=
  restorable_onto h target (props n)
  && match children n with
     | Some cs => forallb (restorable h) cs
     | None => false
     end.

(** The kinds rebuildNode has a case for. *)
Definition supported_kind (ty : string) : bool :=
  String.eqb ty "FRAME" || String.eqb ty "TEXT"
  || String.eqb ty "RECTANGLE" || String.eqb ty "ELLIPSE".

(** *** rebuildNode

    [next] counts the nodes created so far; the result is the new subtree,
    to be appended to the parent, and the new count.  Creation order is the
    source's: a node first, then its children, left to right. *)

(** [data.width || 100]: the default also replaces 0. *)
Definition or_default (v : option Z) (d : Z) : Z :=
  match v with
  | Some n => if (n =? 0)%Z then d else n
  | None => d
  end.

Fixpoint rebuildNode (h : Host) (data : SerializedNode) (next : nat)
    {struct data} : SceneNode * nat :=
  match data with
  | Serialized.mk d dchildren =>
      let ty := Serialized.type d in
      if String.eqb ty "FRAME" then
        let frame := createFrame h next in
        let frame := restoreNodeProperties h frame d in
        let '(kids, next') :=
          match dchildren with
          | Some cs =>
              (fix rebuildChildren (l : list SerializedNode) (nx : nat)
                 : list SceneNode * nat :=
                 match l with
                 | [] => ([], nx)
                 | childData :: l' =>
                     let '(child, nx1) := rebuildNode h childData nx in
                     let '(rest, nx2) := rebuildChildren l' nx1 in
                     (child :: rest, nx2)
                 end) cs (S next)
          | None => ([], S next)
          end in
        (mkNode frame (Some kids), next')
      else if String.eqb ty "TEXT" then
        let text := createText h next in
        (mkNode (restoreNodeProperties h text d) None, S next)
      else if String.eqb ty "RECTANGLE" then
        let rect := createRectangle h next in
        (mkNode (restoreNodeProperties h rect d) None, S next)
      else if String.eqb ty "ELLIPSE" then
        let ellipse := createEllipse h next in
        (mkNode (restoreNodeProperties h ellipse d) None, S next)
      else
        (* For unsupported types, create a rectangle placeholder *)
        let placeholder := createRectangle h next in
        let placeholder :=
          set_name ("[" +:+ ty +:+ "] " +:+ Serialized.name d) placeholder in
        let placeholder :=
          with_layout (resize (or_default (Serialized.width d) 100)
                              (or_default (Serialized.height d) 100)) placeholder in
        let placeholder :=
          with_layout (set_x (or_default (Serialized.x d) 0)) placeholder in
        let placeholder :=
          with_layout (set_y (or_default (Serialized.y d) 0)) placeholder in
        (mkNode placeholder None, S next)
  end.

(** The loop [for (const childData of children) await rebuildNode(childData, parent)]. *)
Fixpoint rebuildChildren (h : Host) (l : list SerializedNode) (next : nat)
    : list SceneNode * nat :=
  match l with
  | [] => ([], next)
  | childData :: l' =>
      let '(child, nx1) := rebuildNode h childData next in
      let '(rest, nx2) := rebuildChildren h l' nx1 in
      (child :: rest, nx2)
  end.

(** *** The document

    The current page is a forest of scene nodes; [created] counts the nodes
    created so far in the session and yields the next id. *)
Record Document := {
  page : list SceneNode;
  created : nat
}.

(** The whole subtree of a node, in document order. *)
Fixpoint subtree (n : SceneNode) : list SceneNode :=
  match n with
  | mkNode p ch =>
      mkNode p ch ::
      match ch with
      | Some cs => List.concat (List.map subtree cs)
      | None => []
      end
  end.

Definition forest_nodes (f : list SceneNode) : list SceneNode :=
  List.concat (List.map subtree f).

Definition has_id (i : string) (n : SceneNode) : bool := String.eqb (id (props n)) i.

(** figma.getNodeById(id), over the scene nodes of the page. *)
Definition getNodeById (doc : Document) (i : string) : option SceneNode :=
  List.find (has_id i) (forest_nodes (page doc)).

(** Replace the node named [i] by [f] of it. *)
Fixpoint update_node (i : string) (f : SceneNode -> SceneNode) (n : SceneNode) : SceneNode :=
  match n with
  | mkNode p ch =>
      if String.eqb (id p) i then f (mkNode p ch)
      else mkNode p (List.map (update_node i f) <$> ch)
  end.

Definition update_forest (i : string) (f : SceneNode -> SceneNode)
    (forest : list SceneNode) : list SceneNode :=
  List.map (update_node i f) forest.

(** handleSerializeFrame: the snapshot sent back for serialize_frame. *)
Definition handleSerializeFrame (doc : Document) (frameId : string)
    : result SerializedNode :=
  match getNodeById doc frameId with
  | None => Throw ("Frame not found: " +:+ frameId)
  | Some node => Ok (serializeNode node 10 0)
  end.

(** handleRestoreCheckpoint.  Step 1 (collectImageHashes) only fills a local
    set that is never read and is left out.  Clearing the children reads
    [targetFrame.children.length], which throws on a node without children. *)
Definition handleRestoreCheckpoint (h : Host) (doc : Document) (frameId : string)
    (serialized : SerializedNode) : result (Document * nat) :=
  match getNodeById doc frameId with
  | None => Throw ("Frame not found: " +:+ frameId)
  | Some targetFrame =>
      match children targetFrame with
      | None => Throw "Cannot read properties of undefined (reading 'length')"
      | Some _ =>
          (* Step 2: clear all children; Step 3: restore frame properties *)
          let target := restoreNodeProperties h (props targetFrame)
                          (Serialized.props serialized) in
          (* Step 4: recursively rebuild children *)
          let '(kids, next) :=
            match Serialized.children serialized with
            | Some cs => rebuildChildren h cs (created doc)
            | None => ([], created doc)
            end in
          let restored := mkNode target (Some kids) in
          Ok ({| page := update_forest frameId (fun _ => restored) (page doc);
                 created := next |},
              match Serialized.children serialized with
              | Some cs => length cs
              | None => 0
              end)
      end
  end.

(** The number of nodes in a tree and in a snapshot. *)
Fixpoint node_count (n : SceneNode) : nat :=
  match n with
  | mkNode _ ch =>
      S (match ch with
         | Some cs => list_sum (List.map node_count cs)
         | None => 0
         end)
  end.

Fixpoint countNodes (node : SerializedNode) : nat :=
  match node with
  | Serialized.mk _ ch =>
      S (match ch with
         | Some cs => list_sum (List.map countNodes cs)
         | None => 0
         end)
  end.

(** The nesting depth below a node: 0 for a node without children. *)
Fixpoint depth (n : SceneNode) : nat :=
  match n with
  | mkNode _ ch =>
      match ch with
      | Some cs => list_max (List.map (fun c => S (depth c)) cs)
      | None => 0
      end
  end.

(** *** Property objects ([props: any])

    The properties that applyNodeProperties and the batch handler read from a
    [props] object, each absent or of the type the handlers use it at.  The
    last eight are read by SET_GRADIENT and ADD_EFFECT only. *)
Module Props.

Record t := {
  x : option (Z);
  y : option (Z);
  width : option (Z);
  height : option (Z);
  rotation : option (Z);
  fills : option (list Paint);
  strokes : option (list Paint);
  strokeWeight : option (Z);
  cornerRadius : option (Z);
  effects : option (list Effect);
  addEffects : option (list Effect);
  opacity : option (Z);
  visible : option (bool);
  locked : option (bool);
  name : option (string);
  layoutPositioning : option (string);
  layoutSizingHorizontal : option (string);
  layoutSizingVertical : option (string);
  layoutMode : option (string);
  itemSpacing : option (Z);
  paddingTop : option (Z);
  paddingRight : option (Z);
  paddingBottom : option (Z);
  paddingLeft : option (Z);
  primaryAxisAlignItems : option (string);
  counterAxisAlignItems : option (string);
  primaryAxisSizingMode : option (string);
  counterAxisSizingMode : option (string);
  clipsContent : option (bool);
  fontName : option (FontName);
  fontWeight : option (Z);
  characters : option (string);
  fontSize : option (Z);
  textAlignHorizontal : option (string);
  textAlignVertical : option (string);
  textAutoResize : option (string);
  lineHeight : option (LineHeight);
  letterSpacing : option (LetterSpacing);
  textCase : option (string);
  textDecoration : option (string);
  gradientType : option (string);
  gradientStops : option (list ColorStop);
  gradientTransform : option (Transform);
  type : option (string);
  radius : option (Z);
  color : option (RGBA);
  offset : option (Vector);
  spread : option (Z)
}.

(** The empty object. *)
Definition empty : t :=
  {| x := None;
     y := None;
     width := None;
     height := None;
     rotation := None;
     fills := None;
     strokes := None;
     strokeWeight := None;
     cornerRadius := None;
     effects := None;
     addEffects := None;
     opacity := None;
     visible := None;
     locked := None;
     name := None;
     layoutPositioning := None;
     layoutSizingHorizontal := None;
     layoutSizingVertical := None;
     layoutMode := None;
     itemSpacing := None;
     paddingTop := None;
     paddingRight := None;
     paddingBottom := None;
     paddingLeft := None;
     primaryAxisAlignItems := None;
     counterAxisAlignItems := None;
     primaryAxisSizingMode := None;
     counterAxisSizingMode := None;
     clipsContent := None;
     fontName := None;
     fontWeight := None;
     characters := None;
     fontSize := None;
     textAlignHorizontal := None;
     textAlignVertical := None;
     textAutoResize := None;
     lineHeight := None;
     letterSpacing := None;
     textCase := None;
     textDecoration := None;
     gradientType := None;
     gradientStops := None;
     gradientTransform := None;
     type := None;
     radius := None;
     color := None;
     offset := None;
     spread := None |}.

(** [delete props.characters; delete props.fontSize] as CREATE_TEXT does
    after it has used them. *)
Definition without_characters (p : t) : t :=
  {| x := x p;
     y := y p;
     width := width p;
     height := height p;
     rotation := rotation p;
     fills := fills p;
     strokes := strokes p;
     strokeWeight := strokeWeight p;
     cornerRadius := cornerRadius p;
     effects := effects p;
     addEffects := addEffects p;
     opacity := opacity p;
     visible := visible p;
     locked := locked p;
     name := name p;
     layoutPositioning := layoutPositioning p;
     layoutSizingHorizontal := layoutSizingHorizontal p;
     layoutSizingVertical := layoutSizingVertical p;
     layoutMode := layoutMode p;
     itemSpacing := itemSpacing p;
     paddingTop := paddingTop p;
     paddingRight := paddingRight p;
     paddingBottom := paddingBottom p;
     paddingLeft := paddingLeft p;
     primaryAxisAlignItems := primaryAxisAlignItems p;
     counterAxisAlignItems := counterAxisAlignItems p;
     primaryAxisSizingMode := primaryAxisSizingMode p;
     counterAxisSizingMode := counterAxisSizingMode p;
     clipsContent := clipsContent p;
     fontName := fontName p;
     fontWeight := fontWeight p;
     characters := None;
     fontSize := fontSize p;
     textAlignHorizontal := textAlignHorizontal p;
     textAlignVertical := textAlignVertical p;
     textAutoResize := textAutoResize p;
     lineHeight := lineHeight p;
     letterSpacing := letterSpacing p;
     textCase := textCase p;
     textDecoration := textDecoration p;
     gradientType := gradientType p;
     gradientStops := gradientStops p;
     gradientTransform := gradientTransform p;
     type := type p;
     radius := radius p;
     color := color p;
     offset := offset p;
     spread := spread p |}.

Definition without_fontSize (p : t) : t :=
  {| x := x p;
     y := y p;
     width := width p;
     height := height p;
     rotation := rotation p;
     fills := fills p;
     strokes := strokes p;
     strokeWeight := strokeWeight p;
     cornerRadius := cornerRadius p;
     effects := effects p;
     addEffects := addEffects p;
     opacity := opacity p;
     visible := visible p;
     locked := locked p;
     name := name p;
     layoutPositioning := layoutPositioning p;
     layoutSizingHorizontal := layoutSizingHorizontal p;
     layoutSizingVertical := layoutSizingVertical p;
     layoutMode := layoutMode p;
     itemSpacing := itemSpacing p;
     paddingTop := paddingTop p;
     paddingRight := paddingRight p;
     paddingBottom := paddingBottom p;
     paddingLeft := paddingLeft p;
     primaryAxisAlignItems := primaryAxisAlignItems p;
     counterAxisAlignItems := counterAxisAlignItems p;
     primaryAxisSizingMode := primaryAxisSizingMode p;
     counterAxisSizingMode := counterAxisSizingMode p;
     clipsContent := clipsContent p;
     fontName := fontName p;
     fontWeight := fontWeight p;
     characters := characters p;
     fontSize := None;
     textAlignHorizontal := textAlignHorizontal p;
     textAlignVertical := textAlignVertical p;
     textAutoResize := textAutoResize p;
     lineHeight := lineHeight p;
     letterSpacing := letterSpacing p;
     textCase := textCase p;
     textDecoration := textDecoration p;
     gradientType := gradientType p;
     gradientStops := gradientStops p;
     gradientTransform := gradientTransform p;
     type := type p;
     radius := radius p;
     color := color p;
     offset := offset p;
     spread := spread p |}.

(** Sample objects for the examples. *)
Definition with_size (w h : Z) (p : t) : t :=
  {| x := x p;
     y := y p;
     width := Some w;
     height := Some h;
     rotation := rotation p;
     fills := fills p;
     strokes := strokes p;
     strokeWeight := strokeWeight p;
     cornerRadius := cornerRadius p;
     effects := effects p;
     addEffects := addEffects p;
     opacity := opacity p;
     visible := visible p;
     locked := locked p;
     name := name p;
     layoutPositioning := layoutPositioning p;
     layoutSizingHorizontal := layoutSizingHorizontal p;
     layoutSizingVertical := layoutSizingVertical p;
     layoutMode := layoutMode p;
     itemSpacing := itemSpacing p;
     paddingTop := paddingTop p;
     paddingRight := paddingRight p;
     paddingBottom := paddingBottom p;
     paddingLeft := paddingLeft p;
     primaryAxisAlignItems := primaryAxisAlignItems p;
     counterAxisAlignItems := counterAxisAlignItems p;
     primaryAxisSizingMode := primaryAxisSizingMode p;
     counterAxisSizingMode := counterAxisSizingMode p;
     clipsContent := clipsContent p;
     fontName := fontName p;
     fontWeight := fontWeight p;
     characters := characters p;
     fontSize := fontSize p;
     textAlignHorizontal := textAlignHorizontal p;
     textAlignVertical := textAlignVertical p;
     textAutoResize := textAutoResize p;
     lineHeight := lineHeight p;
     letterSpacing := letterSpacing p;
     textCase := textCase p;
     textDecoration := textDecoration p;
     gradientType := gradientType p;
     gradientStops := gradientStops p;
     gradientTransform := gradientTransform p;
     type := type p;
     radius := radius p;
     color := color p;
     offset := offset p;
     spread := spread p |}.

Definition with_x (a : Z) (p : t) : t :=
  {| x := Some a;
     y := y p;
     width := width p;
     height := height p;
     rotation := rotation p;
     fills := fills p;
     strokes := strokes p;
     strokeWeight := strokeWeight p;
     cornerRadius := cornerRadius p;
     effects := effects p;
     addEffects := addEffects p;
     opacity := opacity p;
     visible := visible p;
     locked := locked p;
     name := name p;
     layoutPositioning := layoutPositioning p;
     layoutSizingHorizontal := layoutSizingHorizontal p;
     layoutSizingVertical := layoutSizingVertical p;
     layoutMode := layoutMode p;
     itemSpacing := itemSpacing p;
     paddingTop := paddingTop p;
     paddingRight := paddingRight p;
     paddingBottom := paddingBottom p;
     paddingLeft := paddingLeft p;
     primaryAxisAlignItems := primaryAxisAlignItems p;
     counterAxisAlignItems := counterAxisAlignItems p;
     primaryAxisSizingMode := primaryAxisSizingMode p;
     counterAxisSizingMode := counterAxisSizingMode p;
     clipsContent := clipsContent p;
     fontName := fontName p;
     fontWeight := fontWeight p;
     characters := characters p;
     fontSize := fontSize p;
     textAlignHorizontal := textAlignHorizontal p;
     textAlignVertical := textAlignVertical p;
     textAutoResize := textAutoResize p;
     lineHeight := lineHeight p;
     letterSpacing := letterSpacing p;
     textCase := textCase p;
     textDecoration := textDecoration p;
     gradientType := gradientType p;
     gradientStops := gradientStops p;
     gradientTransform := gradientTransform p;
     type := type p;
     radius := radius p;
     color := color p;
     offset := offset p;
     spread := spread p |}.

Definition with_opacity (a : Z) (p : t) : t :=
  {| x := x p;
     y := y p;
     width := width p;
     height := height p;
     rotation := rotation p;
     fills := fills p;
     strokes := strokes p;
     strokeWeight := strokeWeight p;
     cornerRadius := cornerRadius p;
     effects := effects p;
     addEffects := addEffects p;
     opacity := Some a;
     visible := visible p;
     locked := locked p;
     name := name p;
     layoutPositioning := layoutPositioning p;
     layoutSizingHorizontal := layoutSizingHorizontal p;
     layoutSizingVertical := layoutSizingVertical p;
     layoutMode := layoutMode p;
     itemSpacing := itemSpacing p;
     paddingTop := paddingTop p;
     paddingRight := paddingRight p;
     paddingBottom := paddingBottom p;
     paddingLeft := paddingLeft p;
     primaryAxisAlignItems := primaryAxisAlignItems p;
     counterAxisAlignItems := counterAxisAlignItems p;
     primaryAxisSizingMode := primaryAxisSizingMode p;
     counterAxisSizingMode := counterAxisSizingMode p;
     clipsContent := clipsContent p;
     fontName := fontName p;
     fontWeight := fontWeight p;
     characters := characters p;
     fontSize := fontSize p;
     textAlignHorizontal := textAlignHorizontal p;
     textAlignVertical := textAlignVertical p;
     textAutoResize := textAutoResize p;
     lineHeight := lineHeight p;
     letterSpacing := letterSpacing p;
     textCase := textCase p;
     textDecoration := textDecoration p;
     gradientType := gradientType p;
     gradientStops := gradientStops p;
     gradientTransform := gradientTransform p;
     type := type p;
     radius := radius p;
     color := color p;
     offset := offset p;
     spread := spread p |}.

Definition with_name (a : string) (p : t) : t :=
  {| x := x p;
     y := y p;
     width := width p;
     height := height p;
     rotation := rotation p;
     fills := fills p;
     strokes := strokes p;
     strokeWeight := strokeWeight p;
     cornerRadius := cornerRadius p;
     effects := effects p;
     addEffects := addEffects p;
     opacity := opacity p;
     visible := visible p;
     locked := locked p;
     name := Some a;
     layoutPositioning := layoutPositioning p;
     layoutSizingHorizontal := layoutSizingHorizontal p;
     layoutSizingVertical := layoutSizingVertical p;
     layoutMode := layoutMode p;
     itemSpacing := itemSpacing p;
     paddingTop := paddingTop p;
     paddingRight := paddingRight p;
     paddingBottom := paddingBottom p;
     paddingLeft := paddingLeft p;
     primaryAxisAlignItems := primaryAxisAlignItems p;
     counterAxisAlignItems := counterAxisAlignItems p;
     primaryAxisSizingMode := primaryAxisSizingMode p;
     counterAxisSizingMode := counterAxisSizingMode p;
     clipsContent := clipsContent p;
     fontName := fontName p;
     fontWeight := fontWeight p;
     characters := characters p;
     fontSize := fontSize p;
     textAlignHorizontal := textAlignHorizontal p;
     textAlignVertical := textAlignVertical p;
     textAutoResize := textAutoResize p;
     lineHeight := lineHeight p;
     letterSpacing := letterSpacing p;
     textCase := textCase p;
     textDecoration := textDecoration p;
     gradientType := gradientType p;
     gradientStops := gradientStops p;
     gradientTransform := gradientTransform p;
     type := type p;
     radius := radius p;
     color := color p;
     offset := offset p;
     spread := spread p |}.

Definition with_characters (a : string) (p : t) : t :=
  {| x := x p;
     y := y p;
     width := width p;
     height := height p;
     rotation := rotation p;
     fills := fills p;
     strokes := strokes p;
     strokeWeight := strokeWeight p;
     cornerRadius := cornerRadius p;
     effects := effects p;
     addEffects := addEffects p;
     opacity := opacity p;
     visible := visible p;
     locked := locked p;
     name := name p;
     layoutPositioning := layoutPositioning p;
     layoutSizingHorizontal := layoutSizingHorizontal p;
     layoutSizingVertical := layoutSizingVertical p;
     layoutMode := layoutMode p;
     itemSpacing := itemSpacing p;
     paddingTop := paddingTop p;
     paddingRight := paddingRight p;
     paddingBottom := paddingBottom p;
     paddingLeft := paddingLeft p;
     primaryAxisAlignItems := primaryAxisAlignItems p;
     counterAxisAlignItems := counterAxisAlignItems p;
     primaryAxisSizingMode := primaryAxisSizingMode p;
     counterAxisSizingMode := counterAxisSizingMode p;
     clipsContent := clipsContent p;
     fontName := fontName p;
     fontWeight := fontWeight p;
     characters := Some a;
     fontSize := fontSize p;
     textAlignHorizontal := textAlignHorizontal p;
     textAlignVertical := textAlignVertical p;
     textAutoResize := textAutoResize p;
     lineHeight := lineHeight p;
     letterSpacing := letterSpacing p;
     textCase := textCase p;
     textDecoration := textDecoration p;
     gradientType := gradientType p;
     gradientStops := gradientStops p;
     gradientTransform := gradientTransform p;
     type := type p;
     radius := radius p;
     color := color p;
     offset := offset p;
     spread := spread p |}.

Definition with_fontName (a : FontName) (p : t) : t :=
  {| x := x p;
     y := y p;
     width := width p;
     height := height p;
     rotation := rotation p;
     fills := fills p;
     strokes := strokes p;
     strokeWeight := strokeWeight p;
     cornerRadius := cornerRadius p;
     effects := effects p;
     addEffects := addEffects p;
     opacity := opacity p;
     visible := visible p;
     locked := locked p;
     name := name p;
     layoutPositioning := layoutPositioning p;
     layoutSizingHorizontal := layoutSizingHorizontal p;
     layoutSizingVertical := layoutSizingVertical p;
     layoutMode := layoutMode p;
     itemSpacing := itemSpacing p;
     paddingTop := paddingTop p;
     paddingRight := paddingRight p;
     paddingBottom := paddingBottom p;
     paddingLeft := paddingLeft p;
     primaryAxisAlignItems := primaryAxisAlignItems p;
     counterAxisAlignItems := counterAxisAlignItems p;
     primaryAxisSizingMode := primaryAxisSizingMode p;
     counterAxisSizingMode := counterAxisSizingMode p;
     clipsContent := clipsContent p;
     fontName := Some a;
     fontWeight := fontWeight p;
     characters := characters p;
     fontSize := fontSize p;
     textAlignHorizontal := textAlignHorizontal p;
     textAlignVertical := textAlignVertical p;
     textAutoResize := textAutoResize p;
     lineHeight := lineHeight p;
     letterSpacing := letterSpacing p;
     textCase := textCase p;
     textDecoration := textDecoration p;
     gradientType := gradientType p;
     gradientStops := gradientStops p;
     gradientTransform := gradientTransform p;
     type := type p;
     radius := radius p;
     color := color p;
     offset := offset p;
     spread := spread p |}.

End Props.

(** *** applyNodeProperties

    The result is the node as the function leaves it and, when loading a font
    threw, the message: what was stored before the throw stays stored. *)

Definition loadFontAsync (h : Host) (f : FontName) : result unit :=
  if fontAvailable h f then Ok tt else Throw (fontError h f).

Definition mapWeightToStyle (weight : Z) : string :=
  if (weight <=? 200)%Z then "Ultralight"
  else if (weight <=? 300)%Z then "Light"
  else if (weight <=? 400)%Z then "Regular"
  else if (weight <=? 500)%Z then "Medium"
  else if (weight <=? 600)%Z then "SemiBold"
  else if (weight <=? 700)%Z then "Bold"
  else "Black".

(** [resize(props.width ?? node.width, props.height ?? node.height)] *)
Definition apply_size (p : Props.t) (ln : LayoutProps) : LayoutProps :=
  resize (default (width ln) (Props.width p)) (default (height ln) (Props.height p)) ln.

Definition hasExplicitDims (p : Props.t) : bool :=
  is_some (Props.width p) || is_some (Props.height p).

Definition isAutoLayout (p : Props.t) : bool :=
  match Props.layoutMode p with
  | Some m => negb (String.eqb m "NONE")
  | None => false
  end.

(** [[...(node.effects || [])]] *)
Definition existing_effects (blend : VisualProps) : list Effect :=
  match effects blend with
  | Some (Value es) => es
  | _ => []
  end.

(** The font that the TEXT block loads first, when it loads one. *)
Definition font_to_load (p : Props.t) (tx : TextProps) : option (FontName * bool) :=
  match Props.fontName p, Props.fontWeight p with
  | Some f, _ => Some (f, true)
  | None, Some w =>
      let fam := match fontName tx with Value f => family f | Mixed => "Inter" end in
      Some ({| family := fam; style := mapWeightToStyle w |}, true)
  | None, None =>
      if is_some (Props.characters p) || is_some (Props.fontSize p) then
        Some (match fontName tx with
              | Value f => f
              | Mixed => {| family := "Inter"; style := "Regular" |}
              end, false)
      else None
  end.

Definition applyNodeProperties (h : Host) (node : NodeProps) (p : Props.t)
    : NodeProps * option string :=
  (* Position and dimensions *)
  let node := with_layout (fun ln =>
    let ln := assign (Props.x p) set_x ln in
    let ln := assign (Props.y p) set_y ln in
    let ln := if hasExplicitDims p then apply_size p ln else ln in
    assign (Props.rotation p) set_rotation ln) node in
  (* Visual properties *)
  let node := with_visual (fun geo =>
    let geo := assign (Props.fills p) set_fills geo in
    let geo := assign (Props.strokes p) set_strokes geo in
    let geo := assign (Props.strokeWeight p) set_strokeWeight geo in
    let geo := assign (Props.cornerRadius p) set_cornerRadius geo in
    let geo := assign (Props.effects p) set_effects geo in
    (* Append effects *)
    let geo := match Props.addEffects p with
               | Some added => set_effects (existing_effects geo ++ added) geo
               | None => geo
               end in
    assign (Props.opacity p) set_opacity geo) node in
  let node := assign (Props.visible p) set_visible node in
  let node := assign (Props.locked p) set_locked node in
  let node := assign (Props.name p) set_name node in
  (* Layout properties that apply to ANY child of an auto-layout frame *)
  let node := with_layout (fun ln =>
    let ln := assign (Props.layoutPositioning p) set_layoutPositioning ln in
    let ln := assign (Props.layoutSizingHorizontal p) set_layoutSizingHorizontal ln in
    assign (Props.layoutSizingVertical p) set_layoutSizingVertical ln) node in
  (* Auto-layout properties (FRAME only) *)
  let node :=
    if String.eqb (type node) "FRAME" then
      let node := with_frame (fun fr =>
        let fr := assign (Props.layoutMode p) set_layoutMode fr in
        let fr := assign (Props.itemSpacing p) set_itemSpacing fr in
        let fr := assign (Props.paddingTop p) set_paddingTop fr in
        let fr := assign (Props.paddingRight p) set_paddingRight fr in
        let fr := assign (Props.paddingBottom p) set_paddingBottom fr in
        let fr := assign (Props.paddingLeft p) set_paddingLeft fr in
        let fr := assign (Props.primaryAxisAlignItems p) set_primaryAxisAlignItems fr in
        let fr := assign (Props.counterAxisAlignItems p) set_counterAxisAlignItems fr in
        (* Auto-set FIXED sizing when explicit dimensions + layoutMode provided *)
        let fr := if hasExplicitDims p && isAutoLayout p
                     && negb (is_some (Props.primaryAxisSizingMode p))
                  then set_primaryAxisSizingMode "FIXED" fr else fr in
        let fr := if hasExplicitDims p && isAutoLayout p
                     && negb (is_some (Props.counterAxisSizingMode p))
                  then set_counterAxisSizingMode "FIXED" fr else fr in
        let fr := assign (Props.primaryAxisSizingMode p) set_primaryAxisSizingMode fr in
        let fr := assign (Props.counterAxisSizingMode p) set_counterAxisSizingMode fr in
        assign (Props.clipsContent p) set_clipsContent fr) node in
      (* ALWAYS re-apply dimensions after layoutMode change *)
      if hasExplicitDims p
         && (isAutoLayout p || is_some (Props.primaryAxisSizingMode p)
             || is_some (Props.counterAxisSizingMode p))
      then with_layout (apply_size p) node else node
    else node in
  (* Text properties (TEXT only) *)
  if String.eqb (type node) "TEXT" then
    let loaded :=
      match font_to_load p (text node) with
      | Some (f, store) =>
          match loadFontAsync h f with
          | Ok _ => Ok (if store then with_text (set_fontName f) node else node)
          | Throw m => Throw m
          end
      | None => Ok node
      end in
    match loaded with
    | Throw m => (node, Some m)
    | Ok node =>
        (with_text (fun tx =>
           let tx := assign (Props.fontSize p) set_fontSize tx in
           let tx := assign (Props.characters p) set_characters tx in
           let tx := assign (Props.textAlignHorizontal p) set_textAlignHorizontal tx in
           let tx := assign (Props.textAlignVertical p) set_textAlignVertical tx in
           let tx := assign (Props.textAutoResize p) set_textAutoResize tx in
           let tx := assign (Props.lineHeight p) set_lineHeight tx in
           let tx := assign (Props.letterSpacing p) set_letterSpacing tx in
           let tx := assign (Props.textCase p) set_textCase tx in
           assign (Props.textDecoration p) set_textDecoration tx) node, None)
    end
  else (node, None).

(** *** Tree edits

    A new node is first a child of the page.  Moving a node takes its
    subtree out of the forest and puts it under the parent. *)

Fixpoint remove_node (i : string) (n : SceneNode) : option SceneNode :=
  match n with
  | mkNode p ch =>
      if String.eqb (id p) i then None
      else Some (mkNode p ((fun cs : list SceneNode => omap (remove_node i) cs) <$> ch))
  end.

Definition remove_from (i : string) (forest : list SceneNode) : list SceneNode :=
  omap (remove_node i) forest.

(** [list.splice(index, 0, x)] for an index within the list. *)
Definition insert_at {A} (index : nat) (a : A) (l : list A) : list A :=
  take index l ++ a :: drop index l.

(** figma.createFrame() and its siblings: the node joins the page. *)
Definition add_to_page (doc : Document) (node : SceneNode) : Document :=
  {| page := page doc ++ [node]; created := S (created doc) |}.

(** node.remove() *)
Definition remove (doc : Document) (i : string) : Document :=
  {| page := remove_from i (page doc); created := created doc |}.

(** Store into the node named [i]. *)
Definition modify (doc : Document) (i : string) (f : NodeProps -> NodeProps) : Document :=
  {| page := update_forest i (fun n => mkNode (f (props n)) (children n)) (page doc);
     created := created doc |}.

(** parent.appendChild(child) and parent.insertChild(index, child).  The
    host refuses a parent without children, a parent inside the moved
    subtree and an index beyond the children; the messages are the host's. *)
Definition place_child (doc : Document) (parent child : SceneNode) (index : option Z)
    : result Document :=
  match children parent with
  | None => Throw "parent.appendChild is not a function"
  | Some _ =>
      if is_some (List.find (has_id (id (props parent))) (subtree child)) then
        Throw "Cannot move node into itself or its own descendant"
      else
        let forest := remove_from (id (props child)) (page doc) in
        let put (cs : list SceneNode) : option (list SceneNode) :=
          match index with
          | None => Some (cs ++ [child])
          | Some k =>
              if (0 <=? k)%Z && (k <=? Z.of_nat (length (remove_from (id (props child)) cs)))%Z
              then Some (insert_at (Z.to_nat k) child cs)
              else None
          end in
        match getNodeById {| page := forest; created := created doc |} (id (props parent)) with
        | None => Throw "Cannot move node: parent not found"
        | Some parent' =>
            match children parent' ≫= put with
            | None => Throw "Cannot insert child: index out of bounds"
            | Some cs' =>
                Ok {| page := update_forest (id (props parent))
                                (fun n => mkNode (props n) (Some cs')) forest;
                      created := created doc |}
            end
        end
  end.

(** *** handleBatchOperations *)

Module Operation.
Record t := {
  op : string;
  variable : option string;
  parent : option string;
  nodeId : option string;
  props : option Props.t;
  fontFamily : option string;
  fontStyle : option string;
  base64 : option string;
  scaleMode : option string;
  newParent : option string;
  index : option Z
}.
End Operation.

(** One entry of [results]. *)
Record OpResult := {
  result_op : string;
  result_variable : option string;
  result_nodeId : option string;
  success : bool;
  error : option string
}.

(** Resolve a variable reference ($varName) or literal node ID. *)
Definition resolveVarRef (ref : option string) (variables : list (string * string))
    : result (option string) :=
  match ref with
  | None => Ok None
  | Some ref =>
      if JS.starts_with "$" ref then
        match JS.assoc (JS.tail ref) variables with
        | Some resolved =>
            if String.eqb resolved "" then Throw ("Unresolved variable: " +:+ ref)
            else Ok (Some resolved)
        | None => Throw ("Unresolved variable: " +:+ ref)
        end
      else Ok (Some ref)
  end.

(** What one pass of the loop body does. *)
Inductive op_outcome :=
  (* the case ran to its [break]: results.push({..., success: true}) *)
  | Applied (doc : Document) (variables : list (string * string)) (entry : OpResult)
  (* the catch block: results.push({..., success: false}), then [break] out
     of the loop; the document is as the throw left it *)
  | Failed (doc : Document) (entry : OpResult)
  (* the default case: an entry with success false, and the loop goes on *)
  | Unknown (entry : OpResult).

Definition ok_entry (o : Operation.t) (with_variable : bool) (node : string) : OpResult :=
  {| result_op := Operation.op o;
     result_variable := if with_variable then Operation.variable o else None;
     result_nodeId := Some node; success := true; error := None |}.

Definition caught (doc : Document) (o : Operation.t) (message : string) : op_outcome :=
  Failed doc {| result_op := Operation.op o;
                result_variable := Operation.variable o;
                result_nodeId := None; success := false; error := Some message |}.

(** [if (op.variable) variables.set(op.variable, id)] *)
Definition bind_variable (o : Operation.t) (node : string)
    (variables : list (string * string)) : list (string * string) :=
  match Operation.variable o with
  | Some v => if String.eqb v "" then variables else JS.map_set v node variables
  | None => variables
  end.

(** The parent lookup of the CREATE cases and of the create handlers of
    handleFigmaCall: the new node is moved only when the parent resolves to a
    node that has 'appendChild'; [index] is the insertIndex of the handlers. *)
Definition append_to_parent (doc : Document) (parentId : option string) (child : string)
    (index : option Z) : result Document :=
  match parentId with
  | Some pid =>
      if String.eqb pid "" then Ok doc else
      match getNodeById doc pid, getNodeById doc child with
      | Some parent, Some node =>
          if is_some (children parent) then place_child doc parent node index else Ok doc
      | _, _ => Ok doc
      end
  | None => Ok doc
  end.

(** [if (op.props) await applyNodeProperties(node, op.props)] on the node
    named [i]; the document keeps what was stored, also on a throw. *)
Definition apply_props (h : Host) (doc : Document) (i : string) (p : option Props.t)
    : Document * option string :=
  match p, getNodeById doc i with
  | Some p, Some node =>
      let '(node', thrown) := applyNodeProperties h (props node) p in
      (modify doc i (fun _ => node'), thrown)
  | _, _ => (doc, None)
  end.

(** CREATE_FRAME and CREATE_RECT *)
Definition create_shape (h : Host) (o : Operation.t) (fresh_node : SceneNode)
    (doc : Document) (variables : list (string * string)) : op_outcome :=
  let i := id (props fresh_node) in
  let doc := add_to_page doc fresh_node in
  match resolveVarRef (Operation.parent o) variables with
  | Throw m => caught doc o m
  | Ok parentId =>
      match append_to_parent doc parentId i None with
      | Throw m => caught doc o m
      | Ok doc =>
          match apply_props h doc i (Operation.props o) with
          | (doc, Some m) => caught doc o m
          | (doc, None) => Applied doc (bind_variable o i variables) (ok_entry o true i)
          end
      end
  end.

Definition lower_char (c : ascii) : ascii :=
  let n := nat_of_ascii c in
  if (65 <=? n)%nat && (n <=? 90)%nat then ascii_of_nat (n + 32) else c.

(** toLowerCase, on ASCII letters *)
Fixpoint lower (s : string) : string :=
  match s with
  | EmptyString => EmptyString
  | String c rest => String (lower_char c) (lower rest)
  end.

(** The font CREATE_TEXT ends up loading: the requested one, else the
    closest style of the family, else Inter Regular. *)
Definition load_text_font (h : Host) (fontFamily fontStyle : string) : result FontName :=
  match loadFontAsync h {| family := fontFamily; style := fontStyle |} with
  | Ok _ => Ok {| family := fontFamily; style := fontStyle |}
  | Throw _ =>
      let familyFonts :=
        List.filter (fun f => String.eqb (family f) fontFamily) (availableFonts h) in
      let fallback :=
        match familyFonts with
        | [] => None
        | first :: _ =>
            match List.find (fun f => String.eqb (lower (style f)) (lower fontStyle))
                    familyFonts with
            | Some exactMatch => Some (style exactMatch)
            | None =>
                match List.find (fun f => String.eqb (style f) "Regular") familyFonts with
                | Some regular => Some (style regular)
                | None => Some (style first)
                end
            end
        end in
      let found :=
        match fallback with
        | Some loadedStyle =>
            match loadFontAsync h {| family := fontFamily; style := loadedStyle |} with
            | Ok _ => Some {| family := fontFamily; style := loadedStyle |}
            | Throw _ => None
            end
        | None => None
        end in
      match found with
      | Some f => Ok f
      | None =>
          match loadFontAsync h {| family := "Inter"; style := "Regular" |} with
          | Ok _ => Ok {| family := "Inter"; style := "Regular" |}
          | Throw m => Throw m
          end
      end
  end.

Definition or_string (v : option string) (d : string) : string :=
  match v with
  | Some s => if String.eqb s "" then d else s
  | None => d
  end.

Definition create_text (h : Host) (o : Operation.t)
    (doc : Document) (variables : list (string * string)) : op_outcome :=
  let i := node_id (created doc) in
  let doc := add_to_page doc (mkNode (createText h (created doc)) None) in
  match load_text_font h (or_string (Operation.fontFamily o) "Inter")
          (or_string (Operation.fontStyle o) "Regular") with
  | Throw m => caught doc o m
  | Ok loaded =>
      let doc := modify doc i (with_text (set_fontName loaded)) in
      (* Set characters before appending; set fontSize early *)
      let p := Operation.props o in
      let chars := p ≫= Props.characters in
      let '(doc, p) :=
        if JS.truthy (from_option JS.Str JS.Undefined chars)
        then (modify doc i (with_text (assign chars set_characters)),
              Props.without_characters <$> p)
        else (doc, p) in
      let size := p ≫= Props.fontSize in
      let '(doc, p) :=
        if JS.truthy (from_option JS.Num JS.Undefined size)
        then (modify doc i (with_text (assign size set_fontSize)),
              Props.without_fontSize <$> p)
        else (doc, p) in
      match resolveVarRef (Operation.parent o) variables with
      | Throw m => caught doc o m
      | Ok parentId =>
          match append_to_parent doc parentId i None with
          | Throw m => caught doc o m
          | Ok doc =>
              match apply_props h doc i p with
              | (doc, Some m) => caught doc o m
              | (doc, None) =>
                  Applied doc (bind_variable o i variables) (ok_entry o true i)
              end
          end
      end
  end.

(** The start shared by the cases that work on an existing node: resolve the
    reference, then look the node up. *)
Definition with_target (o : Operation.t) (doc : Document)
    (variables : list (string * string))
    (k : string -> SceneNode -> op_outcome) : op_outcome :=
  match resolveVarRef (Operation.nodeId o) variables with
  | Throw m => caught doc o m
  | Ok None => caught doc o (Operation.op o +:+ ": missing node reference")
  | Ok (Some i) =>
      if String.eqb i "" then caught doc o (Operation.op o +:+ ": missing node reference")
      else match getNodeById doc i with
           | None => caught doc o (Operation.op o +:+ ": node not found: " +:+ i)
           | Some node => k i node
           end
  end.

Definition image_fill (hash : string) (mode : string) : Paint :=
  {| paint_type := "IMAGE"; paint_visible := None; paint_opacity := None;
     color := None; gradientStops := None; gradientTransform := None;
     imageHash := Some hash; scaleMode := Some mode; imageTransform := None |}.

Definition gradient_fill (p : option Props.t) : Paint :=
  let gradientType := or_string (p ≫= Props.gradientType) "GRADIENT_LINEAR" in
  let figmaType := if String.prefix "GRADIENT_" gradientType then gradientType
                   else "GRADIENT_" +:+ gradientType in
  {| paint_type := figmaType; paint_visible := None; paint_opacity := None;
     color := None;
     gradientStops :=
       Some (List.map (fun s => {| position := position s; stop_color := stop_color s |})
               (default [] (p ≫= Props.gradientStops)));
     gradientTransform :=
       Some (default identity_transform (p ≫= Props.gradientTransform));
     imageHash := None; scaleMode := None; imageTransform := None |}.

Definition new_effect (p : option Props.t) : Effect :=
  {| effect_type := or_string (p ≫= Props.type) "DROP_SHADOW";
     effect_visible := Some true;
     radius := p ≫= Props.radius;
     effect_color := p ≫= Props.color;
     offset := p ≫= Props.offset;
     spread := p ≫= Props.spread |}.

Definition exec_op (h : Host) (o : Operation.t) (doc : Document)
    (variables : list (string * string)) : op_outcome :=
  let kind := Operation.op o in
  if String.eqb kind "CREATE_FRAME" then
    create_shape h o (mkNode (createFrame h (created doc)) (Some [])) doc variables
  else if String.eqb kind "CREATE_TEXT" then
    create_text h o doc variables
  else if String.eqb kind "CREATE_RECT" then
    create_shape h o (mkNode (createRectangle h (created doc)) None) doc variables
  else if String.eqb kind "SET_IMAGE_FILL" then
    with_target o doc variables (fun i _ =>
      match Operation.base64 o with
      | None => caught doc o "SET_IMAGE_FILL: missing image data"
      | Some data =>
          if String.eqb data "" then caught doc o "SET_IMAGE_FILL: missing image data"
          else
            let fill := image_fill (imageHashOf h data)
                          (or_string (Operation.scaleMode o) "FILL") in
            Applied (modify doc i (with_visual (set_fills [fill]))) variables
              (ok_entry o false i)
      end)
  else if String.eqb kind "TRIM" then
    (* the export result is not used: trim is a no-op here *)
    with_target o doc variables (fun i _ => Applied doc variables (ok_entry o false i))
  else if String.eqb kind "UPDATE" then
    with_target o doc variables (fun i _ =>
      match apply_props h doc i (Operation.props o) with
      | (doc, Some m) => caught doc o m
      | (doc, None) => Applied doc variables (ok_entry o false i)
      end)
  else if String.eqb kind "SET_GRADIENT" then
    with_target o doc variables (fun i _ =>
      Applied (modify doc i (with_visual (set_fills [gradient_fill (Operation.props o)])))
        variables (ok_entry o false i))
  else if String.eqb kind "ADD_EFFECT" then
    with_target o doc variables (fun i node =>
      let es := existing_effects (visual (props node))
                ++ [new_effect (Operation.props o)] in
      Applied (modify doc i (with_visual (set_effects es))) variables (ok_entry o false i))
  else if String.eqb kind "DELETE" then
    with_target o doc variables (fun i _ =>
      Applied (remove doc i) variables (ok_entry o false i))
  else if String.eqb kind "REPARENT" then
    match resolveVarRef (Operation.nodeId o) variables with
    | Throw m => caught doc o m
    | Ok reparentNodeId =>
        match resolveVarRef (Operation.newParent o) variables with
        | Throw m => caught doc o m
        | Ok newParentId =>
            let i := or_string reparentNodeId "" in
            let pid := or_string newParentId "" in
            if String.eqb i "" then caught doc o "REPARENT: missing node reference"
            else if String.eqb pid "" then
              caught doc o "REPARENT: missing new parent reference"
            else
              match getNodeById doc i, getNodeById doc pid with
              | None, _ => caught doc o ("REPARENT: node not found: " +:+ i)
              | Some _, None => caught doc o ("REPARENT: parent not found: " +:+ pid)
              | Some node, Some parent =>
                  match place_child doc parent node (Operation.index o) with
                  | Throw m => caught doc o m
                  | Ok doc => Applied doc variables (ok_entry o false i)
                  end
              end
        end
    end
  else
    Unknown {| result_op := kind; result_variable := None; result_nodeId := None;
               success := false; error := Some ("Unknown operation: " +:+ kind) |}.

(** The loop over the operations. *)
Fixpoint run_operations (h : Host) (operations : list Operation.t) (doc : Document)
    (variables : list (string * string)) (results : list OpResult)
    : Document * list (string * string) * list OpResult :=
  match operations with
  | [] => (doc, variables, results)
  | o :: rest =>
      match exec_op h o doc variables with
      | Applied doc' variables' entry =>
          run_operations h rest doc' variables' (results ++ [entry])
      | Failed doc' entry => (doc', variables, results ++ [entry])
      | Unknown entry => run_operations h rest doc variables (results ++ [entry])
      end
  end.

(** What sendResult carries back. *)
Record BatchResult := {
  results : list OpResult;
  variableBindings : list (string * string);
  errors : list OpResult
}.

Definition handleBatchOperations (h : Host) (operations : list Operation.t)
    (doc : Document) : Document * BatchResult :=
  let '(doc', variables, rs) := run_operations h operations doc [] [] in
  (doc', {| results := rs; variableBindings := variables;
            errors := List.filter (fun r => negb (success r)) rs |}).

(** *** handleFigmaCall: the handlers the tools below call

    createFrame, createRectangle and createEllipse differ in the node they
    create; [opts] also carries parentId and insertIndex, which
    applyNodeProperties does not read.  The answer is the [id] of [{ id }]. *)
Definition figma_create (h : Host) (fresh_node : SceneNode) (parentId : option string)
    (insertIndex : option Z) (opts : Props.t) (doc : Document)
    : Document * result string :=
  let i := id (props fresh_node) in
  let doc := add_to_page doc fresh_node in
  match append_to_parent doc parentId i insertIndex with
  | Throw m => (doc, Throw m)
  | Ok doc =>
      match apply_props h doc i (Some opts) with
      | (doc, Some m) => (doc, Throw m)
      | (doc, None) => (doc, Ok i)
      end
  end.

Definition figma_createFrame (h : Host) parentId insertIndex opts (doc : Document) :=
  figma_create h (mkNode (createFrame h (created doc)) (Some [])) parentId insertIndex
    opts doc.

Definition figma_createRectangle (h : Host) parentId insertIndex opts (doc : Document) :=
  figma_create h (mkNode (createRectangle h (created doc)) None) parentId insertIndex
    opts doc.

Definition figma_createEllipse (h : Host) parentId insertIndex opts (doc : Document) :=
  figma_create h (mkNode (createEllipse h (created doc)) None) parentId insertIndex
    opts doc.

Definition figma_deleteNode (nodeId : string) (doc : Document) : Document * result unit :=
  match getNodeById doc nodeId with
  | None => (doc, Throw ("Node not found: " +:+ nodeId))
  | Some _ => (remove doc nodeId, Ok tt)
  end.

(** *** handleBatchUpdate *)

Record Update := {
  update_nodeId : string;
  properties : Props.t
}.

Record UpdateError := {
  error_nodeId : string;
  update_error : string
}.

(** The loop over the updates: a failing update is recorded and the loop
    goes on. *)
Fixpoint run_updates (h : Host) (updates : list Update) (doc : Document)
    (errs : list UpdateError) : Document * list UpdateError :=
  match updates with
  | [] => (doc, errs)
  | update :: rest =>
      match getNodeById doc (update_nodeId update) with
      | None =>
          run_updates h rest doc
            (errs ++ [ {| error_nodeId := update_nodeId update;
                          update_error := "Node not found: " +:+ update_nodeId update |} ])
      | Some node =>
          let '(node', thrown) := applyNodeProperties h (props node) (properties update) in
          run_updates h rest (modify doc (update_nodeId update) (fun _ => node'))
            match thrown with
            | Some m => errs ++ [ {| error_nodeId := update_nodeId update;
                                     update_error := m |} ]
            | None => errs
            end
      end
  end.

Record BatchUpdateResult := {
  update_success : bool;
  updated : Z;
  update_errors : list UpdateError
}.

Definition handleBatchUpdate (h : Host) (updates : list Update) (doc : Document)
    : Document * BatchUpdateResult :=
  let '(doc', errs) := run_updates h updates doc [] in
  (doc', {| update_success := (length errs =? 0)%nat;
            updated := Z.of_nat (length updates) - Z.of_nat (length errs);
            update_errors := errs |}).

(** The ids of a tree, in document order. *)
Definition ids (n : SceneNode) : list string :=
  List.map (fun k => id (props k)) (subtree n).

(** The nodes of a rebuilt subtree carry the ids [next], [next + 1], ... in
    document order, and are no more than the snapshot holds. *)
Definition fresh_ids (node : SceneNode) (next next' : nat) (data : SerializedNode) : Prop :=
  next' = next + node_count node /\
  ids node = List.map node_id (seq next (node_count node)) /\
  node_count node <= countNodes data.

(** The ten kinds that have a case in the switch. *)
Definition known_kind (kind : string) : bool :=
  bool_decide (kind ∈ ["CREATE_FRAME"; "CREATE_TEXT"; "CREATE_RECT"; "SET_IMAGE_FILL";
                       "TRIM"; "UPDATE"; "SET_GRADIENT"; "ADD_EFFECT"; "DELETE";
                       "REPARENT"]).

(** The kinds whose case stores nothing before its last possible throw. *)
Definition throws_before_storing (kind : string) : bool :=
  bool_decide (kind ∈ ["SET_IMAGE_FILL"; "TRIM"; "SET_GRADIENT"; "ADD_EFFECT"; "DELETE";
                       "REPARENT"]).

(** The operations all pass: no pass of the loop enters the catch block.
    The value is the state the loop is in after them. *)
Fixpoint passes (h : Host) (operations : list Operation.t) (doc : Document)
    (variables : list (string * string)) (results : list OpResult)
    : option (Document * list (string * string) * list OpResult) :=
  match operations with
  | [] => Some (doc, variables, results)
  | o :: rest =>
      match exec_op h o doc variables with
      | Applied doc' variables' entry => passes h rest doc' variables' (results ++ [entry])
      | Failed _ _ => None
      | Unknown entry => passes h rest doc variables (results ++ [entry])
      end
  end.

(** The entry the catch block pushes for an operation. *)
Definition failure_entry (o : Operation.t) (e : OpResult) : Prop :=
  result_op e = Operation.op o /\ result_variable e = Operation.variable o /\
  result_nodeId e = None /\ success e = false /\ exists m, error e = Some m.

(** What sendResult carries for the entries [rs] and the bindings [variables]. *)
Definition batch_result (rs : list OpResult) (variables : list (string * string))
    : BatchResult :=
  {| results := rs; variableBindings := variables;
     errors := List.filter (fun r => negb (success r)) rs |}.

(** *** Sample host and sample documents, for the examples of Part II

    The sample host creates nodes that are 100 by 100 at the origin, visible,
    unlocked, unrotated and opaque, with one solid fill and no stroke; it
    can load the Inter family only. *)
Definition solid (red green blue : Z) : Paint :=
  {| paint_type := "SOLID"; paint_visible := Some true; paint_opacity := Some 1%Z;
     color := Some {| r := red; g := green; b := blue |};
     gradientStops := None; gradientTransform := None;
     imageHash := None; scaleMode := None; imageTransform := None |}.

Definition fresh (nm : string) (fs : list Paint) (cr : option (mixed Z)) : NodeProps :=
  {| id := ""; type := ""; name := nm; visible := true; locked := false;
     layout := {| x := 0; y := 0; width := 100; height := 100; rotation := 0;
                  layoutPositioning := "AUTO";
                  layoutSizingHorizontal := "FIXED";
                  layoutSizingVertical := "FIXED" |};
     visual := {| fills := Some (Value fs); strokes := Some (Value []);
                  strokeWeight := Some 1%Z; cornerRadius := cr;
                  effects := Some (Value []); opacity := Some 1%Z |};
     frame := {| layoutMode := "NONE"; itemSpacing := 0;
                 paddingTop := 0; paddingRight := 0;
                 paddingBottom := 0; paddingLeft := 0;
                 primaryAxisAlignItems := "MIN"; counterAxisAlignItems := "MIN";
                 primaryAxisSizingMode := "AUTO"; counterAxisSizingMode := "AUTO";
                 clipsContent := true |};
     text := {| characters := ""; fontSize := Value 12%Z;
                fontName := Value {| family := "Inter"; style := "Regular" |};
                textAlignHorizontal := "LEFT"; textAlignVertical := "TOP";
                textAutoResize := "WIDTH_AND_HEIGHT";
                lineHeight := Value {| lh_value := None; lh_unit := "AUTO" |};
                letterSpacing := Value {| ls_value := 0; ls_unit := "PERCENT" |};
                textCase := "ORIGINAL"; textDecoration := "NONE" |} |}.

Definition sample_host : Host :=
  {| newFrame := fresh "Frame" [solid 1 1 1] (Some (Value 0%Z));
     newText := fresh "Text" [solid 0 0 0] None;
     newRectangle := fresh "Rectangle" [solid 2 2 2] (Some (Value 0%Z));
     newEllipse := fresh "Ellipse" [solid 2 2 2] None;
     fontAvailable := fun f => String.eqb (family f) "Inter";
     fontError := fun f => "Cannot load font " +:+ family f +:+ " " +:+ style f;
     availableFonts := [ {| family := "Inter"; style := "Regular" |};
                         {| family := "Inter"; style := "Bold" |} ];
     imageHashOf := fun base64 => "hash:" +:+ base64 |}.

(** A node of a given kind, name, place and size, otherwise as created. *)
Definition sample_node (kind : string) (n : nat) (nm : string) (px py w ht : Z)
    : NodeProps :=
  let base :=
    if String.eqb kind "FRAME" then createFrame sample_host n
    else if String.eqb kind "TEXT" then createText sample_host n
    else if String.eqb kind "ELLIPSE" then createEllipse sample_host n
    else set_type kind (createRectangle sample_host n) in
  with_layout (fun ln => resize w ht (set_y py (set_x px ln))) (set_name nm base).

(** An ad of three levels with every kind rebuildNode creates:
    Ad > [ Header > [ Title (text), Badge (rectangle) ], Dot (ellipse) ]. *)
Definition sample_ad : SceneNode :=
  mkNode
    (with_frame (fun f => set_itemSpacing 24 (set_paddingTop 40 (set_layoutMode "VERTICAL" f)))
       (with_visual (set_fills [solid 0 0 1])
          (sample_node "FRAME" 0 "Ad" 0 0 1080 1920)))
    (Some
       [ mkNode
           (with_visual (set_opacity 80) (sample_node "FRAME" 1 "Header" 0 40 1080 300))
           (Some
              [ mkNode
                  (with_text (fun t => set_fontSize 120 (set_characters "Hello" t))
                     (sample_node "TEXT" 2 "Title" 10 20 500 140))
                  None;
                mkNode
                  (with_layout (set_rotation 15)
                     (with_visual (set_cornerRadius 16)
                        (sample_node "RECTANGLE" 3 "Badge" 600 20 200 80)))
                  None ]);
         mkNode (set_visible false (sample_node "ELLIPSE" 4 "Dot" 900 1700 64 64)) None ]).

(** The same ad after edits: the root moved and renamed, its header gone and
    an extra rectangle added. *)
Definition sample_ad_edited : SceneNode :=
  mkNode
    (with_layout (set_x 500)
       (set_name "Ad (draft)"
          (with_frame (fun f => set_itemSpacing 24 (set_paddingTop 40 (set_layoutMode "VERTICAL" f)))
             (with_visual (set_fills [solid 1 0 0])
                (sample_node "FRAME" 0 "Ad" 0 0 1080 1920)))))
    (Some
       [ mkNode (sample_node "RECTANGLE" 5 "Extra" 0 0 10 10) None;
         mkNode (set_visible false (sample_node "ELLIPSE" 4 "Dot" 900 1700 64 64)) None ]).

(** A frame holding a vector, a kind rebuildNode has no case for. *)
Definition sample_with_vector : SceneNode :=
  mkNode (sample_node "FRAME" 0 "Logo" 0 0 200 200)
    (Some [ mkNode (sample_node "VECTOR" 1 "Arrow" 10 10 50 50) None ]).

(** The snapshot of a horizontal line: its height is 0. *)
Definition sample_line : SerializedNode :=
  serializeNode (mkNode (sample_node "LINE" 1 "Rule" 40 300 200 0) None) 10 0.

(** [nested k]: a frame holding a frame holding ... [k] levels below the
    root; its ids are 1:0 (the root), 1:1, ..., 1:k. *)
Fixpoint nested_from (k i : nat) : SceneNode :=
  mkNode (sample_node "FRAME" i ("Level " +:+ pretty i) 0 0 100 100)
    (Some match k with
          | O => []
          | S k' => [nested_from k' (S i)]
          end).

Definition nested (k : nat) : SceneNode := nested_from k 0.

(** A script of four operations whose third refers to an unbound variable:
    a frame, a rectangle in it, an update of [$missing], another rectangle. *)
Definition operation (kind : string) (var parent node : option string)
    (p : option Props.t) : Operation.t :=
  {| Operation.op := kind; Operation.variable := var; Operation.parent := parent;
     Operation.nodeId := node; Operation.props := p;
     Operation.fontFamily := None; Operation.fontStyle := None;
     Operation.base64 := None; Operation.scaleMode := None;
     Operation.newParent := None; Operation.index := None |}.

Definition empty_page : Document := {| page := []; created := 0 |}.

Definition sample_script : list Operation.t :=
  [ operation "CREATE_FRAME" (Some "card") None None (Some (Props.with_name "Card" Props.empty));
    operation "CREATE_RECT" (Some "bg") (Some "$card") None
      (Some (Props.with_size 40 30 Props.empty));
    operation "UPDATE" None None (Some "$missing") (Some (Props.with_x 5 Props.empty));
    operation "CREATE_RECT" (Some "late") (Some "$card") None None ].

End Plugin.

(** ** Checkpoints and the batch pipeline (checkpoint.ts, batch-pipeline.ts) *)
Module Pipeline.
Import JS.

(** *** resolveVariables *)

(** The loop [for (let i = 1; i < path.length; i++)]: [i] is the index of the
    segment about to be used and [rest] the segments from [i] on. *)
Fixpoint traverse (obj : string) (path : list string) (i : nat) (v : value)
    (rest : list string) : result value :=
  match rest with
  | [] => Ok v
  | segment :: rest' =>
      if nullish v then
        Throw ("Cannot resolve " +:+ obj +:+ ": null at " +:+ dq
               +:+ join "." (take (S i) path) +:+ dq)
      else traverse obj path (S i) (get_property v segment) rest'
  end.

(** A string that starts with the sigil: [$stepId.field.path]. *)
Definition resolve_reference (bindings : list (string * value)) (obj : string)
    : result value :=
  let path := split_on "." (tail obj) in
  let stepId := default "" (head path) in
  match assoc stepId bindings with
  | None | Some Undefined =>
      Throw ("Unresolved reference: " +:+ obj +:+ " (step " +:+ dq +:+ stepId
             +:+ dq +:+ " not found in completed steps)")
  | Some found => traverse obj path 1 found (drop 1 path)
  end.

Fixpoint resolveVariables (bindings : list (string * value)) (obj : value)
    {struct obj} : result value :=
  match obj with
  | Str s => if starts_with "$" s then resolve_reference bindings s else Ok obj
  | Arr items =>
      match
        (fix each (l : list value) : result (list value) :=
           match l with
           | [] => Ok []
           | item :: l' =>
               match resolveVariables bindings item with
               | Throw m => Throw m
               | Ok item' =>
                   match each l' with
                   | Throw m => Throw m
                   | Ok rest => Ok (item' :: rest)
                   end
               end
           end) items
      with
      | Throw m => Throw m
      | Ok items' => Ok (Arr items')
      end
  | Obj fields =>
      match
        (fix each (l : list (string * value)) : result (list (string * value)) :=
           match l with
           | [] => Ok []
           | (key, v) :: l' =>
               match resolveVariables bindings v with
               | Throw m => Throw m
               | Ok v' =>
                   match each l' with
                   | Throw m => Throw m
                   | Ok rest => Ok ((key, v') :: rest)
                   end
               end
           end) fields
      with
      | Throw m => Throw m
      | Ok fields' => Ok (Obj fields')
      end
  | _ => Ok obj
  end.

(** The properties [path] names exist one after the other from [v]: the
    value they lead to, or [None] when one of them is read from null or
    undefined. *)
Fixpoint follow (v : value) (path : list string) : option value :=
  match path with
  | [] => Some v
  | segment :: path' =>
      if nullish v then None else follow (get_property v segment) path'
  end.

(** *** The backend's view of the plugin

    The document the plugin works on, the in-memory checkpoint store of
    checkpoint.ts, whether the socket is open, and the time of day. *)
Record Checkpoint := {
  frameId : string;
  data : Plugin.SerializedNode;
  savedAt : string
}.

Record World := {
  doc : Plugin.Document;
  checkpoints : list (string * Checkpoint);
  connected : bool;
  now : string
}.

Definition set_doc (d : Plugin.Document) (w : World) : World :=
  {| doc := d; checkpoints := checkpoints w; connected := connected w; now := now w |}.

Definition set_checkpoints (c : list (string * Checkpoint)) (w : World) : World :=
  {| doc := doc w; checkpoints := c; connected := connected w; now := now w |}.

(** [await bridge.sendCommand(...)] as a tool sees it: rejected at once when
    the socket is not open; otherwise the plugin runs its handler on the
    document and answers in time, with a result or with the message of what
    its handler threw (the catch of [figma.ui.onmessage]), which rejects the
    promise. *)
Definition sendCommand {A} (w : World)
    (handler : Plugin.Document -> Plugin.Document * result A) : World * result A :=
  if connected w then
    let '(d, answer) := handler (doc w) in (set_doc d w, answer)
  else (w, Throw "WebSocket not connected").

(** *** checkpoint.ts *)

Definition saveCheckpoint (frame label : string) (w : World) : World * result value :=
  match sendCommand w (fun d => (d, Plugin.handleSerializeFrame d frame)) with
  | (w, Throw m) => (w, Throw m)
  | (w, Ok serialized) =>
      if String.eqb (Plugin.Serialized.id (Plugin.Serialized.props serialized)) "" then
        (w, Throw ("Failed to serialize frame " +:+ frame))
      else
        let w := set_checkpoints
                   (map_set label {| frameId := frame; data := serialized;
                                     savedAt := now w |} (checkpoints w)) w in
        let nodeCount := Plugin.countNodes serialized in
        (w, Ok (Obj [("message", Str ("Checkpoint " +:+ dq +:+ label +:+ dq +:+ " saved ("
                                      +:+ pretty nodeCount +:+ " nodes)"));
                     ("label", Str label);
                     ("frameId", Str frame);
                     ("nodeCount", Num (Z.of_nat nodeCount));
                     ("availableCheckpoints", Arr (List.map (fun e => Str e.1) (checkpoints w)))]))
  end.

Definition restoreCheckpoint (h : Plugin.Host) (label : string) (w : World)
    : World * result value :=
  match assoc label (checkpoints w) with
  | None =>
      let available := List.map fst (checkpoints w) in
      (w, Throw ("Checkpoint " +:+ dq +:+ label +:+ dq +:+ " not found. Available: "
                 +:+ match available with [] => "none" | _ => join ", " available end))
  | Some checkpoint =>
      match sendCommand w (fun d =>
              match Plugin.handleRestoreCheckpoint h d (frameId checkpoint)
                      (data checkpoint) with
              | Ok (d', childrenRestored) =>
                  (d', Ok (Obj [("success", Bool true);
                                ("frameId", Str (frameId checkpoint));
                                ("childrenRestored", Num (Z.of_nat childrenRestored))]))
              | Throw m => (d, Throw m)
              end) with
      | (w, Throw m) => (w, Throw m)
      | (w, Ok answer) =>
          (w, Ok (Obj [("message", Str ("Restored checkpoint " +:+ dq +:+ label +:+ dq
                                        +:+ " to frame " +:+ frameId checkpoint));
                       ("label", Str label);
                       ("frameId", Str (frameId checkpoint));
                       ("savedAt", Str (savedAt checkpoint));
                       ("result", answer)]))
      end
  end.

(** *** batchPipeline *)

Module Step.
Record t := {
  id : string;
  tool : string;
  args : value
}.
End Step.

(** A tool handler: [(input, bridge) => Promise<any>].  It may change the
    world before it returns or throws. *)
Definition Handler : Type := value -> World -> World * result value.

Record CompletedStep := {
  completed_id : string;
  completed_tool : string;
  summary : string
}.

Record FailedStep := {
  failed_step : string;
  failed_tool : string;
  error : string
}.

(** The two shapes of the returned object. *)
Inductive PipelineResult :=
  | Stopped (completed : list CompletedStep) (failed : FailedStep) (rolledBack : bool)
  | Completed (completed : list CompletedStep) (bindings : list (string * value))
      (message : string).

(** [typeof result?.message === 'string' ? result.message : `${tool} completed`] *)
Definition summaryText (toolName : string) (answer : value) : string :=
  match (if nullish answer then Undefined else get_property answer "message") with
  | Str m => m
  | _ => toolName +:+ " completed"
  end.

(** [result?.frameId] *)
Definition frameId_of (answer : value) : value :=
  if nullish answer then Undefined else get_property answer "frameId".

(** The auto-checkpoint after step 1: the label to restore on a failure, or
    null when nothing was saved.  A frameId that is not a string names no
    node: the plugin answers serialize_frame with an error. *)
Definition auto_checkpoint (answer : value) (w : World) : World * option string :=
  if truthy (frameId_of answer) then
    match frameId_of answer with
    | Str frame =>
        match saveCheckpoint frame "_pipeline_auto" w with
        | (w, Ok _) => (w, Some "_pipeline_auto")
        | (w, Throw _) => (w, None)
        end
    | _ => (w, None)
    end
  else (w, None).

(** The catch block: restore the auto-checkpoint when there is one. *)
Definition rollback (h : Plugin.Host) (autoCheckpointLabel : option string) (w : World)
    : World * bool :=
  match autoCheckpointLabel with
  | Some label =>
      match restoreCheckpoint h label w with
      | (w, Ok _) => (w, true)
      | (w, Throw _) => (w, false)
      end
  | None => (w, false)
  end.

(** [const { content, ...rest } = value] for an object; an array is an
    object whose keys are its indices. *)
Definition strip_content (v : value) : value :=
  match v with
  | Obj fields => Obj (List.filter (fun kv => negb (String.eqb kv.1 "content")) fields)
  | Arr items => Obj (imap (fun i item => (pretty i, item)) items)
  | _ => v
  end.

(** What the try block of one step does: resolve the args, run the tool. *)
Definition run_step (handler : Handler) (bindings : list (string * value))
    (step : Step.t) (w : World) : World * result value :=
  match resolveVariables bindings (Step.args step) with
  | Throw m => (w, Throw m)
  | Ok resolvedArgs => handler resolvedArgs w
  end.

Section BatchPipeline.
Variable h : Plugin.Host.
(** [handlers[step.tool]], absent for a name that is not in the registry. *)
Variable handlers : string -> option Handler.

(** The loop, from step number [i] (counted from 0) on. *)
Fixpoint pipeline_loop (steps : list Step.t) (i : nat) (w : World)
    (bindings : list (string * value)) (completed : list CompletedStep)
    (autoCheckpointLabel : option string) : World * PipelineResult :=
  match steps with
  | [] =>
      (w, Completed completed
            (List.map (fun kv => (kv.1, strip_content kv.2)) bindings)
            ("Pipeline completed: " +:+ pretty (length completed) +:+ " steps executed"))
  | step :: rest =>
      match handlers (Step.tool step) with
      | None =>
          (w, Stopped completed
                {| failed_step := Step.id step; failed_tool := Step.tool step;
                   error := "Unknown tool: " +:+ Step.tool step |} false)
      | Some handler =>
          match run_step handler bindings step w with
          | (w, Throw errorMsg) =>
              let '(w, rolledBack) := rollback h autoCheckpointLabel w in
              (w, Stopped completed
                    {| failed_step := Step.id step; failed_tool := Step.tool step;
                       error := errorMsg |} rolledBack)
          | (w, Ok answer) =>
              let bindings := map_set (Step.id step) answer bindings in
              let completed :=
                completed ++ [ {| completed_id := Step.id step;
                                  completed_tool := Step.tool step;
                                  summary := summaryText (Step.tool step) answer |} ] in
              let '(w, autoCheckpointLabel) :=
                if (i =? 0)%nat && truthy (frameId_of answer)
                then auto_checkpoint answer w
                else (w, autoCheckpointLabel) in
              pipeline_loop rest (S i) w bindings completed autoCheckpointLabel
          end
      end
  end.

Definition batchPipeline (pipeline : list Step.t) (w : World) : World * PipelineResult :=
  pipeline_loop pipeline 0 w [] [] None.

(** The steps all return: the state the loop is in after them. *)
Fixpoint steps_return (steps : list Step.t) (i : nat) (w : World)
    (bindings : list (string * value)) (completed : list CompletedStep)
    (autoCheckpointLabel : option string)
    : option (World * list (string * value) * list CompletedStep * option string) :=
  match steps with
  | [] => Some (w, bindings, completed, autoCheckpointLabel)
  | step :: rest =>
      match handlers (Step.tool step) with
      | None => None
      | Some handler =>
          match run_step handler bindings step w with
          | (_, Throw _) => None
          | (w, Ok answer) =>
              let '(w', label') :=
                if (i =? 0)%nat && truthy (frameId_of answer)
                then auto_checkpoint answer w
                else (w, autoCheckpointLabel) in
              steps_return rest (S i) w'
                (map_set (Step.id step) answer bindings)
                (completed ++ [ {| completed_id := Step.id step;
                                   completed_tool := Step.tool step;
                                   summary := summaryText (Step.tool step) answer |} ])
                label'
          end
      end
  end.

End BatchPipeline.

(** listCheckpoints and clearCheckpoints *)
Definition listCheckpoints (w : World) : value :=
  Obj [("checkpoints",
        Arr (List.map (fun e => Obj [("label", Str e.1);
                                     ("frameId", Str (frameId e.2));
                                     ("savedAt", Str (savedAt e.2))])
               (checkpoints w)));
       ("count", Num (Z.of_nat (length (checkpoints w))))].

Definition clearCheckpoints (w : World) : World := set_checkpoints [] w.

(** No string of the value starts with the sigil. *)
Fixpoint no_refs (v : value) : bool :=
  match v with
  | Str s => negb (starts_with "$" s)
  | Arr items => forallb no_refs items
  | Obj fields => forallb (fun kv => no_refs kv.2) fields
  | _ => true
  end.

(** No tool handler touches the checkpoint store. *)
Definition keeps_checkpoints (handlers : string -> option Handler) : Prop :=
  forall toolName hd input v,
    handlers toolName = Some hd -> checkpoints (hd input v).1 = checkpoints v.

(** *** Three of the tools: build_ad_skeleton, create_shape, delete_node

    An input is read from the resolved args at the types of the tool's
    schema; args of other types are outside the model and make the handler
    throw.  hexToRgb divides by 255, which the integers of this model do not
    follow: it is a parameter. *)

Module BuildAdSkeletonInput.
Record t := {
  format : string;
  width : option Z;
  height : option Z;
  name : option string;
  backgroundColor : option string;
  padding : option Z
}.
End BuildAdSkeletonInput.

Module CreateShapeInput.
Record t := {
  parentId : string;
  shape : string;
  width : Z;
  height : Z;
  fillColor : option string;
  strokeColor : option string;
  strokeWeight : option Z;
  cornerRadius : option Z;
  opacity : option Z;
  name : option string;
  x : option Z;
  y : option Z;
  absolutePosition : option bool;
  insertIndex : option Z
}.
End CreateShapeInput.

(** [{ type: 'SOLID', color }] *)
Definition solid_paint (c : Plugin.RGB) : Plugin.Paint :=
  {| Plugin.paint_type := "SOLID"; Plugin.paint_visible := None;
     Plugin.paint_opacity := None; Plugin.color := Some c;
     Plugin.gradientStops := None; Plugin.gradientTransform := None;
     Plugin.imageHash := None; Plugin.scaleMode := None;
     Plugin.imageTransform := None |}.

Definition upper_char (c : ascii) : ascii :=
  let n := nat_of_ascii c in
  if (97 <=? n)%nat && (n <=? 122)%nat then ascii_of_nat (n - 32) else c.

(** [s.charAt(0).toUpperCase() + s.slice(1)] *)
Definition capitalize (s : string) : string :=
  match s with
  | EmptyString => EmptyString
  | String c rest => String (upper_char c) rest
  end.

Section Tools.
Variable h : Plugin.Host.
Variable hexToRgb : string -> Plugin.RGB.

Definition buildAdSkeleton (input : BuildAdSkeletonInput.t) (w : World)
    : World * result value :=
  let format := BuildAdSkeletonInput.format input in
  let dimensions :=
    if String.eqb format "story" then Ok (1080, 1920)%Z
    else if String.eqb format "feed" then Ok (1080, 1080)%Z
    else
      match BuildAdSkeletonInput.width input, BuildAdSkeletonInput.height input with
      | Some width, Some height =>
          if (width =? 0)%Z || (height =? 0)%Z
          then Throw "Custom format requires width and height"
          else Ok (width, height)
      | _, _ => Throw "Custom format requires width and height"
      end in
  match dimensions with
  | Throw m => (w, Throw m)
  | Ok (width, height) =>
      let name := Plugin.or_string (BuildAdSkeletonInput.name input) "Ad Frame" in
      let backgroundColor :=
        Plugin.or_string (BuildAdSkeletonInput.backgroundColor input) "#000000" in
      let padding := Plugin.or_default (BuildAdSkeletonInput.padding input) 80 in
      let bgColor := hexToRgb backgroundColor in
      (* Create frame with auto-layout *)
      match sendCommand w (Plugin.figma_createFrame h None None
                         {| Plugin.Props.x := None;
                            Plugin.Props.y := None;
                            Plugin.Props.width := Some width;
                            Plugin.Props.height := Some height;
                            Plugin.Props.rotation := None;
                            Plugin.Props.fills := Some [solid_paint bgColor];
                            Plugin.Props.strokes := None;
                            Plugin.Props.strokeWeight := None;
                            Plugin.Props.cornerRadius := None;
                            Plugin.Props.effects := None;
                            Plugin.Props.addEffects := None;
                            Plugin.Props.opacity := None;
                            Plugin.Props.visible := None;
                            Plugin.Props.locked := None;
                            Plugin.Props.name := Some name;
                            Plugin.Props.layoutPositioning := None;
                            Plugin.Props.layoutSizingHorizontal := Some "FIXED";
                            Plugin.Props.layoutSizingVertical := Some "FIXED";
                            Plugin.Props.layoutMode := Some "VERTICAL";
                            Plugin.Props.itemSpacing := Some 32%Z;
                            Plugin.Props.paddingTop := Some padding;
                            Plugin.Props.paddingRight := Some padding;
                            Plugin.Props.paddingBottom := Some padding;
                            Plugin.Props.paddingLeft := Some padding;
                            Plugin.Props.primaryAxisAlignItems := Some "MIN";
                            Plugin.Props.counterAxisAlignItems := Some "CENTER";
                            Plugin.Props.primaryAxisSizingMode := Some "FIXED";
                            Plugin.Props.counterAxisSizingMode := Some "FIXED";
                            Plugin.Props.clipsContent := None;
                            Plugin.Props.fontName := None;
                            Plugin.Props.fontWeight := None;
                            Plugin.Props.characters := None;
                            Plugin.Props.fontSize := None;
                            Plugin.Props.textAlignHorizontal := None;
                            Plugin.Props.textAlignVertical := None;
                            Plugin.Props.textAutoResize := None;
                            Plugin.Props.lineHeight := None;
                            Plugin.Props.letterSpacing := None;
                            Plugin.Props.textCase := None;
                            Plugin.Props.textDecoration := None;
                            Plugin.Props.gradientType := None;
                            Plugin.Props.gradientStops := None;
                            Plugin.Props.gradientTransform := None;
                            Plugin.Props.type := None;
                            Plugin.Props.radius := None;
                            Plugin.Props.color := None;
                            Plugin.Props.offset := None;
                            Plugin.Props.spread := None |}) with
      | (w, Throw m) => (w, Throw m)
      | (w, Ok i) =>
          (* Unwrap the Figma response: the plugin returns { id } *)
          let frameId := if String.eqb i "" then Obj [("id", Str i)] else Str i in
          let story := String.eqb format "story" in
          let safeZoneTop := if story then 250%Z else 0%Z in
          let safeZoneBottom := if story then (height - 250)%Z else height in
          (w, Ok (Obj [("frameId", frameId);
                       ("dimensions", Obj [("width", Num width); ("height", Num height)]);
                       ("padding", Num padding);
                       ("safeZone", Obj [("top", Num safeZoneTop);
                                         ("bottom", Num safeZoneBottom);
                                         ("usableHeight", Num (safeZoneBottom - safeZoneTop))]);
                       ("message",
                        Str ("Created " +:+ format +:+ " frame (" +:+ pretty width +:+ "x"
                             +:+ pretty height +:+ "px) with " +:+ pretty padding
                             +:+ "px padding. "
                             +:+ if story then "Safe zone: 250px top/bottom." else ""))]))
      end
  end.

Definition createShape (input : CreateShapeInput.t) (w : World) : World * result value :=
  let shape := CreateShapeInput.shape input in
  let name := Plugin.or_string (CreateShapeInput.name input) (capitalize shape) in
  let fills :=
    match CreateShapeInput.fillColor input with
    | Some c => if String.eqb c "" then [] else [solid_paint (hexToRgb c)]
    | None => []   (* transparent by default *)
    end in
  let strokes :=
    match CreateShapeInput.strokeColor input with
    | Some c => if String.eqb c "" then None else Some [solid_paint (hexToRgb c)]
    | None => None
    end in
  let cornerRadius :=
    if String.eqb shape "rectangle" then CreateShapeInput.cornerRadius input else None in
  let absolute := default false (CreateShapeInput.absolutePosition input) in
  let opts :=
    {| Plugin.Props.x := if absolute then CreateShapeInput.x input else None;
         Plugin.Props.y := if absolute then CreateShapeInput.y input else None;
         Plugin.Props.width := Some (CreateShapeInput.width input);
         Plugin.Props.height := Some (CreateShapeInput.height input);
         Plugin.Props.rotation := None;
         Plugin.Props.fills := Some fills;
         Plugin.Props.strokes := strokes;
         Plugin.Props.strokeWeight := CreateShapeInput.strokeWeight input;
         Plugin.Props.cornerRadius := cornerRadius;
         Plugin.Props.effects := None;
         Plugin.Props.addEffects := None;
         Plugin.Props.opacity := CreateShapeInput.opacity input;
         Plugin.Props.visible := None;
         Plugin.Props.locked := None;
         Plugin.Props.name := Some name;
         Plugin.Props.layoutPositioning := if absolute then Some "ABSOLUTE" else None;
         Plugin.Props.layoutSizingHorizontal := None;
         Plugin.Props.layoutSizingVertical := None;
         Plugin.Props.layoutMode := None;
         Plugin.Props.itemSpacing := None;
         Plugin.Props.paddingTop := None;
         Plugin.Props.paddingRight := None;
         Plugin.Props.paddingBottom := None;
         Plugin.Props.paddingLeft := None;
         Plugin.Props.primaryAxisAlignItems := None;
         Plugin.Props.counterAxisAlignItems := None;
         Plugin.Props.primaryAxisSizingMode := None;
         Plugin.Props.counterAxisSizingMode := None;
         Plugin.Props.clipsContent := None;
         Plugin.Props.fontName := None;
         Plugin.Props.fontWeight := None;
         Plugin.Props.characters := None;
         Plugin.Props.fontSize := None;
         Plugin.Props.textAlignHorizontal := None;
         Plugin.Props.textAlignVertical := None;
         Plugin.Props.textAutoResize := None;
         Plugin.Props.lineHeight := None;
         Plugin.Props.letterSpacing := None;
         Plugin.Props.textCase := None;
         Plugin.Props.textDecoration := None;
         Plugin.Props.gradientType := None;
         Plugin.Props.gradientStops := None;
         Plugin.Props.gradientTransform := None;
         Plugin.Props.type := None;
         Plugin.Props.radius := None;
         Plugin.Props.color := None;
         Plugin.Props.offset := None;
         Plugin.Props.spread := None |} in
  let parentId := Some (CreateShapeInput.parentId input) in
  let insertIndex := CreateShapeInput.insertIndex input in
  let call :=
    if String.eqb shape "rectangle" then
      sendCommand w (Plugin.figma_createRectangle h parentId insertIndex opts)
    else if String.eqb shape "ellipse" then
      sendCommand w (Plugin.figma_createEllipse h parentId insertIndex opts)
    else
      (* methodMap has no entry: the method sent is undefined *)
      sendCommand w (fun d => (d, Throw "Unknown method: undefined")) in
  match call with
  | (w, Throw m) => (w, Throw m)
  | (w, Ok i) =>
      (w, Ok (Obj [("nodeId", Str i);
                   ("message",
                    Str ("Created " +:+ shape +:+ " ("
                         +:+ pretty (CreateShapeInput.width input) +:+ "x"
                         +:+ pretty (CreateShapeInput.height input) +:+ "px)"))]))
  end.

Definition deleteNode (nodeId : string) (w : World) : World * result value :=
  match sendCommand w (Plugin.figma_deleteNode nodeId) with
  | (w, Throw m) => (w, Throw m)
  | (w, Ok _) => (w, Ok (Obj [("message", Str ("Deleted node " +:+ nodeId))]))
  end.

(** Reading the inputs. *)
Definition required_string (input : value) (key : string) : option string :=
  match get_property input key with
  | Str s => Some s
  | _ => None
  end.

Definition required_num (input : value) (key : string) : option Z :=
  match get_property input key with
  | Num n => Some n
  | _ => None
  end.

Definition optional_string (input : value) (key : string) : option (option string) :=
  match get_property input key with
  | Undefined => Some None
  | Str s => Some (Some s)
  | _ => None
  end.

Definition optional_num (input : value) (key : string) : option (option Z) :=
  match get_property input key with
  | Undefined => Some None
  | Num n => Some (Some n)
  | _ => None
  end.

Definition optional_bool (input : value) (key : string) : option (option bool) :=
  match get_property input key with
  | Undefined => Some None
  | Bool b => Some (Some b)
  | _ => None
  end.

Definition read_BuildAdSkeletonInput (input : value) : option BuildAdSkeletonInput.t :=
  format ← required_string input "format";
  width ← optional_num input "width";
  height ← optional_num input "height";
  name ← optional_string input "name";
  backgroundColor ← optional_string input "backgroundColor";
  padding ← optional_num input "padding";
  Some {| BuildAdSkeletonInput.format := format;
          BuildAdSkeletonInput.width := width;
          BuildAdSkeletonInput.height := height;
          BuildAdSkeletonInput.name := name;
          BuildAdSkeletonInput.backgroundColor := backgroundColor;
          BuildAdSkeletonInput.padding := padding |}.

Definition read_CreateShapeInput (input : value) : option CreateShapeInput.t :=
  parentId ← required_string input "parentId";
  shape ← required_string input "shape";
  width ← required_num input "width";
  height ← required_num input "height";
  fillColor ← optional_string input "fillColor";
  strokeColor ← optional_string input "strokeColor";
  strokeWeight ← optional_num input "strokeWeight";
  cornerRadius ← optional_num input "cornerRadius";
  opacity ← optional_num input "opacity";
  name ← optional_string input "name";
  x ← optional_num input "x";
  y ← optional_num input "y";
  absolutePosition ← optional_bool input "absolutePosition";
  insertIndex ← optional_num input "insertIndex";
  Some {| CreateShapeInput.parentId := parentId;
          CreateShapeInput.shape := shape;
          CreateShapeInput.width := width;
          CreateShapeInput.height := height;
          CreateShapeInput.fillColor := fillColor;
          CreateShapeInput.strokeColor := strokeColor;
          CreateShapeInput.strokeWeight := strokeWeight;
          CreateShapeInput.cornerRadius := cornerRadius;
          CreateShapeInput.opacity := opacity;
          CreateShapeInput.name := name;
          CreateShapeInput.x := x;
          CreateShapeInput.y := y;
          CreateShapeInput.absolutePosition := absolutePosition;
          CreateShapeInput.insertIndex := insertIndex |}.

Definition typed {I} (read : value -> option I) (tool : I -> World -> World * result value)
    : Handler :=
  fun input w =>
    match read input with
    | Some i => tool i w
    | None => (w, Throw "Invalid input")
    end.

(** The entries of the registry for the three tools. *)
Definition tool_handlers (toolName : string) : option Handler :=
  if String.eqb toolName "build_ad_skeleton" then
    Some (typed read_BuildAdSkeletonInput buildAdSkeleton)
  else if String.eqb toolName "create_shape" then
    Some (typed read_CreateShapeInput createShape)
  else if String.eqb toolName "delete_node" then
    Some (typed (fun input => required_string input "nodeId") deleteNode)
  else None.

End Tools.

(** What the loop over Object.entries does with one entry. *)
Definition resolve_field (bindings : list (string * value)) (kv : string * value)
    : result (string * value) :=
  match resolveVariables bindings kv.2 with
  | Ok v' => Ok (kv.1, v')
  | Throw m => Throw m
  end.

(** Neither an array, nor an object, nor a string that starts with the sigil. *)
Definition is_leaf (v : value) : bool :=
  match v with
  | Arr _ | Obj _ => false
  | Str s => negb (starts_with "$" s)
  | _ => true
  end.

(** *** Sample pipelines, for the examples of Part II *)

(** The colours the samples use. *)
Definition sample_hexToRgb (hex : string) : Plugin.RGB :=
  if String.eqb hex "#FFFFFF"
  then {| Plugin.r := 1; Plugin.g := 1; Plugin.b := 1 |}
  else {| Plugin.r := 0; Plugin.g := 0; Plugin.b := 0 |}.

Definition sample_tools : string -> option Handler :=
  tool_handlers Plugin.sample_host sample_hexToRgb.

Definition blank_world : World :=
  {| doc := Plugin.empty_page; checkpoints := []; connected := true;
     now := "2025-01-01T00:00:00.000Z" |}.

Definition step (i toolName : string) (input : list (string * value)) : Step.t :=
  {| Step.id := i; Step.tool := toolName; Step.args := Obj input |}.

(** A frame, a rectangle in it, and the deletion of a node that does not exist. *)
Definition sample_pipeline : list Step.t :=
  [ step "s1" "build_ad_skeleton" [("format", Str "feed")];
    step "s2" "create_shape" [("parentId", Str "$s1.frameId"); ("shape", Str "rectangle");
                              ("width", Num 200); ("height", Num 100)];
    step "s3" "delete_node" [("nodeId", Str "9:9")] ].

(** A frame, its deletion, and its deletion once more. *)
Definition deleting_pipeline : list Step.t :=
  [ step "s1" "build_ad_skeleton" [("format", Str "feed")];
    step "s2" "delete_node" [("nodeId", Str "$s1.frameId")];
    step "s3" "delete_node" [("nodeId", Str "$s1.frameId")] ].

(** A world whose page holds a frame nested twelve levels deep. *)
Definition deep_world : World :=
  {| doc := {| Plugin.page := [Plugin.nested 12]; Plugin.created := 13 |};
     checkpoints := []; connected := true; now := "2025-01-01T00:00:00.000Z" |}.

(** The state of the loop after the first two steps of the sample pipeline,
    and the handler of its third. *)
Definition sample_pipeline_state
    : World * list (string * value) * list CompletedStep * option string :=
  default (blank_world, [], [], None)
    (steps_return sample_tools (take 2 sample_pipeline) 0 blank_world [] [] None).

Definition sample_delete_node : Handler :=
  typed (fun input => required_string input "nodeId") deleteNode.

End Pipeline.

(** ** The batch script language (dsl-parser.ts) and batchOperations

    Strings are taken to be ASCII: the white space of [trim] and of [\s] is
    then tab, line feed, vertical tab, form feed, carriage return and space,
    and a word character of [\w] is a letter, a digit or the underscore. *)
Module Dsl.
Import JS.

(** *** Strings *)

Definition is_space (c : ascii) : bool :=
  let n := nat_of_ascii c in
  ((9 <=? n)%nat && (n <=? 13)%nat) || (n =? 32)%nat.

Definition is_word (c : ascii) : bool :=
  let n := nat_of_ascii c in
  ((48 <=? n)%nat && (n <=? 57)%nat) || ((65 <=? n)%nat && (n <=? 90)%nat)
  || ((97 <=? n)%nat && (n <=? 122)%nat) || (n =? 95)%nat.

Fixpoint trimStart (s : string) : string :=
  match s with
  | String c s' => if is_space c then trimStart s' else s
  | EmptyString => EmptyString
  end.

(** [s.trim()] *)
Definition trim (s : string) : string :=
  String.rev (trimStart (String.rev (trimStart s))).

(** [s.substring(0, n)] and [s.substring(n)] *)
Fixpoint str_take (n : nat) (s : string) : string :=
  match n, s with
  | S n', String c s' => String c (str_take n' s')
  | _, _ => EmptyString
  end.

Fixpoint str_drop (n : nat) (s : string) : string :=
  match n, s with
  | S n', String _ s' => str_drop n' s'
  | _, _ => s
  end.

(** [s.substring(a, b)] for [a <= b] *)
Definition substring (a b : nat) (s : string) : string :=
  str_take (b - a) (str_drop a s).

(** [s.indexOf(c)], [None] for -1 *)
Fixpoint indexOf (c : ascii) (s : string) : option nat :=
  match s with
  | EmptyString => None
  | String c' s' => if Ascii.eqb c' c then Some 0 else S <$> indexOf c s'
  end.

(** The longest prefix of characters that satisfy [p], and what follows it. *)
Fixpoint span (p : ascii -> bool) (s : string) : string * string :=
  match s with
  | String c s' =>
      if p c then let '(a, b) := span p s' in (String c a, b) else (EmptyString, s)
  | EmptyString => (EmptyString, EmptyString)
  end.

Definition is_quote (c : ascii) : bool :=
  Ascii.eqb c (ascii_of_nat 34) || Ascii.eqb c "'".

Definition backslash : ascii := ascii_of_nat 92.

(** [ch === stringChar && str[i - 1] !== '\\']: the string literal ends. *)
Definition closes (stringChar : ascii) (prev : option ascii) (ch : ascii) : bool :=
  Ascii.eqb ch stringChar
  && negb (match prev with Some p => Ascii.eqb p backslash | None => false end).

(** *** The scanners

    Each loop is a recursion on the characters from index [i] on;
    [inString] holds [stringChar] while inside a string literal and [prev]
    is [str[i - 1]]. *)

Fixpoint comment_start (inString : option ascii) (prev : option ascii) (i : nat)
    (rest : string) : option nat :=
  match rest with
  | EmptyString => None
  | String ch rest' =>
      match inString with
      | Some stringChar =>
          comment_start (if closes stringChar prev ch then None else inString)
            (Some ch) (S i) rest'
      | None =>
          if is_quote ch then comment_start (Some ch) (Some ch) (S i) rest'
          else if Ascii.eqb ch "/" && starts_with "/" rest' then Some i
          else comment_start None (Some ch) (S i) rest'
      end
  end.

(** Strip inline comments that are not inside string literals. *)
Definition stripInlineComment (line : string) : string :=
  match comment_start None None 0 line with
  | Some i => trim (str_take i line)
  | None => line
  end.

Fixpoint matching_paren (inString : option ascii) (prev : option ascii) (depth : Z)
    (i : nat) (rest : string) : option nat :=
  match rest with
  | EmptyString => None
  | String ch rest' =>
      match inString with
      | Some stringChar =>
          matching_paren (if closes stringChar prev ch then None else inString)
            (Some ch) depth (S i) rest'
      | None =>
          if is_quote ch then matching_paren (Some ch) (Some ch) depth (S i) rest'
          else if Ascii.eqb ch "(" then matching_paren None (Some ch) (depth + 1) (S i) rest'
          else if Ascii.eqb ch ")" then
            if (depth - 1 =? 0)%Z then Some i
            else matching_paren None (Some ch) (depth - 1) (S i) rest'
          else matching_paren None (Some ch) depth (S i) rest'
      end
  end.

Definition findMatchingParen (str : string) (start : nat) : option nat :=
  matching_paren None None 0 start (str_drop start str).

Fixpoint first_brace (inString : option ascii) (prev : option ascii) (i : nat)
    (rest : string) : option nat :=
  match rest with
  | EmptyString => None
  | String ch rest' =>
      match inString with
      | Some stringChar =>
          first_brace (if closes stringChar prev ch then None else inString)
            (Some ch) (S i) rest'
      | None =>
          if is_quote ch then first_brace (Some ch) (Some ch) (S i) rest'
          else if Ascii.eqb ch "{" then Some i
          else first_brace None (Some ch) (S i) rest'
      end
  end.

Definition findFirstBrace (str : string) : option nat := first_brace None None 0 str.

Fixpoint matching_brace (inString : option ascii) (prev : option ascii) (depth : Z)
    (i : nat) (rest : string) : option nat :=
  match rest with
  | EmptyString => None
  | String ch rest' =>
      match inString with
      | Some stringChar =>
          matching_brace (if closes stringChar prev ch then None else inString)
            (Some ch) depth (S i) rest'
      | None =>
          if is_quote ch then matching_brace (Some ch) (Some ch) depth (S i) rest'
          else if Ascii.eqb ch "{" then matching_brace None (Some ch) (depth + 1) (S i) rest'
          else if Ascii.eqb ch "}" then
            if (depth - 1 =? 0)%Z then Some i
            else matching_brace None (Some ch) (depth - 1) (S i) rest'
          else matching_brace None (Some ch) depth (S i) rest'
      end
  end.

Definition findMatchingBrace (str : string) (start : nat) : option nat :=
  matching_brace None None 0 start (str_drop start str).

Definition push_char (current : string) (ch : ascii) : string :=
  current +:+ String ch EmptyString.

(** Split a string on a delimiter, respecting nested braces and strings.
    [parts] is kept in reverse. *)
Fixpoint split_scan (delimiter : ascii) (inString : option ascii) (prev : option ascii)
    (depth : Z) (current : string) (parts : list string) (rest : string) : list string :=
  match rest with
  | EmptyString =>
      List.rev (if String.eqb current "" then parts else current :: parts)
  | String ch rest' =>
      match inString with
      | Some stringChar =>
          split_scan delimiter (if closes stringChar prev ch then None else inString)
            (Some ch) depth (push_char current ch) parts rest'
      | None =>
          if is_quote ch then
            split_scan delimiter (Some ch) (Some ch) depth (push_char current ch) parts rest'
          else if Ascii.eqb ch "{" || Ascii.eqb ch "(" || Ascii.eqb ch "[" then
            split_scan delimiter None (Some ch) (depth + 1) (push_char current ch) parts rest'
          else if Ascii.eqb ch "}" || Ascii.eqb ch ")" || Ascii.eqb ch "]" then
            split_scan delimiter None (Some ch) (depth - 1) (push_char current ch) parts rest'
          else if Ascii.eqb ch delimiter && (depth =? 0)%Z then
            split_scan delimiter None (Some ch) depth EmptyString (current :: parts) rest'
          else
            split_scan delimiter None (Some ch) depth (push_char current ch) parts rest'
      end
  end.

Definition splitTopLevel (str : string) (delimiter : ascii) : list string :=
  split_scan delimiter None None 0 EmptyString [] str.

(** [splitTopLevel(s, ',').map(s => s.trim()).filter(s => s.length > 0)] *)
Definition simple_args (s : string) : list string :=
  List.filter (fun a => negb (String.eqb a "")) (List.map trim (splitTopLevel s ",")).

(** *** Quoting the keys

    The global replace of parsePropsObject: a brace or a comma with the
    white space after it (group 1), a word (group 2), white space and a
    colon, replaced by group 1, the word in double quotes and a colon.  A
    match starts at a brace or a comma; the white space and the word are
    taken greedily, and no shorter choice can match, a word character being
    neither white space nor a colon. *)
Definition key_at (s : string) : option (string * string * nat) :=
  match s with
  | String c s1 =>
      if Ascii.eqb c "{" || Ascii.eqb c "," then
        let '(gap, s2) := span is_space s1 in
        let '(word, s3) := span is_word s2 in
        let '(gap', s4) := span is_space s3 in
        if String.eqb word "" then None
        else if starts_with ":" s4
             then Some (String c gap, word,
                        1 + String.length gap + String.length word + String.length gap' + 1)
             else None
      else None
  | EmptyString => None
  end.

(** [skip] counts the characters of a match still to be passed over. *)
Fixpoint quote_keys_from (skip : nat) (s : string) : string :=
  match s with
  | EmptyString => EmptyString
  | String c s' =>
      match skip with
      | S k => quote_keys_from k s'
      | O =>
          match key_at s with
          | Some (lead, word, len) =>
              lead +:+ dq +:+ word +:+ dq +:+ ":" +:+ quote_keys_from (len - 1) s'
          | None => String c (quote_keys_from 0 s')
          end
      end
  end.

Definition quote_keys (propsStr : string) : string := quote_keys_from 0 propsStr.

(** *** parseInt(s, 10): [None] for NaN *)

Fixpoint digits_prefix (acc : option nat) (s : string) : option nat :=
  match s with
  | String c s' =>
      match digit_of c with
      | Some d => digits_prefix (Some (10 * default 0 acc + d)) s'
      | None => acc
      end
  | EmptyString => acc
  end.

Definition parseInt (s : string) : option Z :=
  match trimStart s with
  | String c s' =>
      if Ascii.eqb c "-" then (fun n => (- Z.of_nat n)%Z) <$> digits_prefix None s'
      else if Ascii.eqb c "+" then Z.of_nat <$> digits_prefix None s'
      else Z.of_nat <$> digits_prefix None (String c s')
  | EmptyString => None
  end.

(** *** Parsed operations *)

Record ParsedOperation := {
  op : string;
  variable : option string;
  (* absent, null, or a reference *)
  parent : option (option string);
  nodeId : option string;
  props : option (list (string * value));
  fontFamily : option value;
  fontStyle : option value;
  base64 : option string;
  scaleMode : option value;
  newParent : option string;
  index : option Z
}.

Definition CREATE_OPS : list string := ["CREATE_FRAME"; "CREATE_TEXT"; "CREATE_RECT"].
Definition MUTATION_OPS : list string :=
  ["SET_IMAGE_FILL"; "UPDATE"; "SET_GRADIENT"; "ADD_EFFECT"].
Definition SIMPLE_OPS : list string := ["TRIM"; "DELETE"].
Definition ALL_OPS : list string := CREATE_OPS ++ MUTATION_OPS ++ SIMPLE_OPS ++ ["REPARENT"].

Definition has (set : list string) (s : string) : bool := bool_decide (s ∈ set).

(** Resolve a reference string to a value suitable for the protocol:
    "null" is null (current page), anything else is kept as it is. *)
Definition resolveRef (ref : string) : option string :=
  if String.eqb ref "null" then None else Some ref.

(** Convert numeric font weight to Figma style name. *)
Definition weightToStyle (weight : Z) : string :=
  if (weight <=? 200)%Z then "Ultralight"
  else if (weight <=? 300)%Z then "Light"
  else if (weight <=? 400)%Z then "Regular"
  else if (weight <=? 500)%Z then "Medium"
  else if (weight <=? 600)%Z then "SemiBold"
  else if (weight <=? 700)%Z then "Bold"
  else "Black".

(** [delete obj[key]] and [obj[key] = v] on the fields of an object. *)
Definition delete_key (key : string) (fields : list (string * value))
    : list (string * value) :=
  List.filter (fun kv => negb (String.eqb kv.1 key)) fields.

Definition line_error (lineNumber : nat) (text : string) : string :=
  "Line " +:+ pretty lineNumber +:+ ": " +:+ text.

Section Parser.
(** [JSON.parse] of a text that starts with a brace: the fields of the
    object, or the message of the SyntaxError. *)
Variable JSON_parse : string -> result (list (string * value)).
(** The number a string, an array or an object is compared as by [<=];
    [None] for NaN. *)
Variable ToNumber : value -> option Z.

(** Parse a props object string with lenient JSON (unquoted keys allowed). *)
Definition parsePropsObject (propsStr : string) (lineNumber : nat)
    : result (list (string * value)) :=
  let jsonStr := quote_keys propsStr in
  match JSON_parse jsonStr with
  | Ok fields => Ok fields
  | Throw e =>
      Throw (line_error lineNumber
               ("Invalid props object: " +:+ propsStr
                +:+ String (ascii_of_nat 10) "After quoting keys: " +:+ jsonStr
                +:+ String (ascii_of_nat 10) "Error: " +:+ e))
  end.

(** The replace of a comma followed by white space up to the end, on a
    trimmed string: a last comma goes. *)
Definition drop_last_comma (s : string) : string :=
  match String.rev s with
  | String c r => if Ascii.eqb c "," then String.rev r else s
  | EmptyString => s
  end.

(** Split the args content into simple args (before the braces) and a
    props object. *)
Definition splitArgs (argsContent : string) (lineNumber : nat)
    : result (list string * option (list (string * value))) :=
  if String.eqb argsContent "" then Ok ([], None) else
  match findFirstBrace argsContent with
  | None => Ok (simple_args argsContent, None)
  | Some braceIdx =>
      let beforeBrace := drop_last_comma (trim (str_take braceIdx argsContent)) in
      let simpleArgs :=
        if String.eqb beforeBrace "" then [] else simple_args beforeBrace in
      match findMatchingBrace argsContent braceIdx with
      | None => Throw (line_error lineNumber "Unmatched brace in props")
      | Some closeBrace =>
          let propsStr := substring braceIdx (closeBrace + 1) argsContent in
          match parsePropsObject propsStr lineNumber with
          | Throw m => Throw m
          | Ok fields =>
              let afterBrace := trim (str_drop (closeBrace + 1) argsContent) in
              let extraArgs :=
                if starts_with "," afterBrace then simple_args (tail afterBrace) else [] in
              Ok (simpleArgs ++ extraArgs, Some fields)
          end
      end
  end.

(** [result.fontStyle || weightToStyle(props.fontWeight)] *)
Definition to_number (v : value) : option Z :=
  match v with
  | Num n => Some n
  | Null => Some 0%Z
  | Bool b => Some (if b then 1 else 0)%Z
  | Undefined => None
  | _ => ToNumber v
  end.

Definition style_of_weight (v : value) : string :=
  match to_number v with
  | Some n => weightToStyle n
  | None => "Black"
  end.

(** CREATE_FRAME, CREATE_TEXT, CREATE_RECT: [var=OP(parentRef, {props})] *)
Definition parseCreateOp (kind variableName argsContent : string) (lineNumber : nat)
    : result ParsedOperation :=
  match splitArgs argsContent lineNumber with
  | Throw m => Throw m
  | Ok ([], _) => Throw (line_error lineNumber (kind +:+ " requires a parent reference"))
  | Ok (first :: _, parsedProps) =>
      let plain :=
        {| op := kind; variable := Some variableName; parent := Some (resolveRef first);
           nodeId := None; props := Some (default [] parsedProps);
           fontFamily := None; fontStyle := None; base64 := None; scaleMode := None;
           newParent := None; index := None |} in
      match parsedProps with
      | Some fields =>
          if String.eqb kind "CREATE_TEXT" then
            (* extract font properties for plugin-side font loading *)
            let family := default Undefined (assoc "fontFamily" fields) in
            let '(fontFamily, fields) :=
              if truthy family then (Some family, delete_key "fontFamily" fields)
              else (None, fields) in
            let style := default Undefined (assoc "fontStyle" fields) in
            let '(fontStyle, fields) :=
              if truthy style then (Some style, delete_key "fontStyle" fields)
              else (None, fields) in
            let '(fontStyle, fields) :=
              match assoc "fontWeight" fields with
              | None | Some Undefined => (fontStyle, fields)
              | Some weight =>
                  (Some (default (Str (style_of_weight weight)) fontStyle),
                   delete_key "fontWeight" fields)
              end in
            (* rename 'text' to 'characters' *)
            let fields :=
              match assoc "text" fields with
              | None | Some Undefined => fields
              | Some text => delete_key "text" (map_set "characters" text fields)
              end in
            Ok {| op := kind; variable := Some variableName;
                  parent := Some (resolveRef first); nodeId := None;
                  props := Some fields; fontFamily := fontFamily; fontStyle := fontStyle;
                  base64 := None; scaleMode := None; newParent := None; index := None |}
          else Ok plain
      | None => Ok plain
      end
  end.

(** Mutation ops: [OP(nodeRef, {props})] *)
Definition parseMutationOp (kind argsContent : string) (lineNumber : nat)
    : result ParsedOperation :=
  match splitArgs argsContent lineNumber with
  | Throw m => Throw m
  | Ok ([], _) => Throw (line_error lineNumber (kind +:+ " requires a node reference"))
  | Ok (first :: _, parsedProps) =>
      Ok {| op := kind; variable := None; parent := None; nodeId := Some first;
            props := Some (default [] parsedProps);
            fontFamily := None; fontStyle := None; base64 := None; scaleMode := None;
            newParent := None; index := None |}
  end.

(** Simple ops: [OP(nodeRef)] *)
Definition parseSimpleOp (kind argsContent : string) (lineNumber : nat)
    : result ParsedOperation :=
  match splitArgs argsContent lineNumber with
  | Throw m => Throw m
  | Ok ([], _) => Throw (line_error lineNumber (kind +:+ " requires a node reference"))
  | Ok (first :: _, _) =>
      Ok {| op := kind; variable := None; parent := None; nodeId := Some first;
            props := None;
            fontFamily := None; fontStyle := None; base64 := None; scaleMode := None;
            newParent := None; index := None |}
  end.

(** [REPARENT(nodeRef, newParentRef, index?)] *)
Definition parseReparentOp (argsContent : string) (lineNumber : nat)
    : result ParsedOperation :=
  match splitArgs argsContent lineNumber with
  | Throw m => Throw m
  | Ok (node :: target :: more, _) =>
      let reparent (idx : option Z) :=
        {| op := "REPARENT"; variable := None; parent := None; nodeId := Some node;
           props := None;
           fontFamily := None; fontStyle := None; base64 := None; scaleMode := None;
           newParent := Some target; index := idx |} in
      match more with
      | [] => Ok (reparent None)
      | third :: _ =>
          match parseInt third with
          | Some idx => Ok (reparent (Some idx))
          | None =>
              Throw (line_error lineNumber
                       ("REPARENT index must be a number, got " +:+ dq +:+ third +:+ dq))
          end
      end
  | Ok _ => Throw (line_error lineNumber "REPARENT requires nodeRef and newParentRef")
  end.

(** Parse a single DSL line into a ParsedOperation. *)
Definition parseLine (line : string) (lineNumber : nat) : result ParsedOperation :=
  let firstParen := indexOf "(" line in
  let firstEq := indexOf "=" line in
  (* only treat as assignment if = comes before ( *)
  let '(variableName, rest) :=
    match firstEq with
    | Some (S e) =>
        if match firstParen with None => true | Some p => (S e <? p)%nat end
        then (Some (trim (str_take (S e) line)), trim (str_drop (S (S e)) line))
        else (None, line)
    | _ => (None, line)
    end in
  match indexOf "(" rest with
  | None => Throw (line_error lineNumber ("Missing opening parenthesis: " +:+ line))
  | Some openParen =>
      let kind := trim (str_take openParen rest) in
      if negb (has ALL_OPS kind) then
        Throw (line_error lineNumber
                 ("Unknown operation " +:+ dq +:+ kind +:+ dq +:+ ". Valid: "
                  +:+ join ", " ALL_OPS))
      else
        match findMatchingParen rest openParen with
        | None => Throw (line_error lineNumber ("Unmatched parenthesis: " +:+ line))
        | Some closeParen =>
            let argsContent := trim (substring (openParen + 1) closeParen rest) in
            if has CREATE_OPS kind then
              match variableName with
              | Some v =>
                  if String.eqb v "" then
                    Throw (line_error lineNumber
                             ("CREATE operations must assign to a variable: varName="
                              +:+ kind +:+ "(...)"))
                  else parseCreateOp kind v argsContent lineNumber
              | None =>
                  Throw (line_error lineNumber
                           ("CREATE operations must assign to a variable: varName="
                            +:+ kind +:+ "(...)"))
              end
            else if String.eqb kind "REPARENT" then parseReparentOp argsContent lineNumber
            else if has SIMPLE_OPS kind then parseSimpleOp kind argsContent lineNumber
            else parseMutationOp kind argsContent lineNumber
        end
  end.

(** The loop over the lines; [i] is the index of the first of [lines]. *)
Fixpoint parse_lines (lines : list string) (i : nat) : result (list ParsedOperation) :=
  match lines with
  | [] => Ok []
  | raw :: more =>
      let line := trim raw in
      if String.eqb line "" || String.prefix "//" line then parse_lines more (S i)
      else
        let line := stripInlineComment line in
        if String.eqb line "" then parse_lines more (S i)
        else
          match parseLine line (i + 1) with
          | Throw m => Throw m
          | Ok parsed =>
              match parse_lines more (S i) with
              | Throw m => Throw m
              | Ok rest => Ok (parsed :: rest)
              end
          end
  end.

(** Parse a DSL script into an array of operations. *)
Definition parseDSL (dsl : string) : result (list ParsedOperation) :=
  parse_lines (split_on (ascii_of_nat 10) dsl) 0.

End Parser.

(** *** batchOperations (create-shape.ts) and convertProperties (batch-update.ts) *)

(** [if (p[key] !== undefined) props[key] = p[key]] for each key in turn. *)
Definition copy_defined (keys : list string) (p props : list (string * value))
    : list (string * value) :=
  foldl (fun acc key =>
           match assoc key p with
           | None | Some Undefined => acc
           | Some v => map_set key v acc
           end) props keys.

(** [value.key] for a value that may be null or undefined: a TypeError then. *)
Definition read_property (v : value) (key : string) : result value :=
  if nullish v
  then Throw ("Cannot read properties of null (reading '" +:+ key +:+ "')")
  else Ok (get_property v key).

Section BatchOperations.
Variable JSON_parse : string -> result (list (string * value)).
Variable ToNumber : value -> option Z.
(** utils.ts: the colour conversions divide by 255 and the gradient
    transform takes sines and cosines, which the integers of this model do
    not follow; a conversion throws when its argument is not a string. *)
Variable hexToRgb hexToRgba : value -> result value.
Variable rotationToGradientTransform : value -> value.
(** [readFileSync(path).toString('base64')], or the message of its error *)
Variable readFileSync : value -> result string.
(** String(value), as a template literal or a property key takes it *)
Variable toString : value -> string.
(** The telemetry log and the bridge, acting on a state [W]. *)
Variable W : Type.
Variable logBatchOperations : list ParsedOperation -> W -> W.
Variable sendCommand : list ParsedOperation -> W -> W * result value.

(** [[{ type: 'SOLID', color: { r, g, b }, opacity: rgba.a }]] *)
Definition solid_with_alpha (rgba : value) : value :=
  Arr [Obj [("type", Str "SOLID");
            ("color", Obj [("r", get_property rgba "r"); ("g", get_property rgba "g");
                           ("b", get_property rgba "b")]);
            ("opacity", get_property rgba "a")]].

(** Convert tool-level properties to Figma-ready properties. *)
Definition convertProperties (p : list (string * value)) : result (list (string * value)) :=
  let props := copy_defined
                 ["x"; "y"; "width"; "height"; "rotation"; "opacity"; "visible"; "name"]
                 p [] in
  let fillColor := default Undefined (assoc "fillColor" p) in
  match (if truthy fillColor then
           match hexToRgba fillColor with
           | Ok rgba => Ok (map_set "fills" (solid_with_alpha rgba) props)
           | Throw m => Throw m
           end
         else Ok props) with
  | Throw m => Throw m
  | Ok props =>
      let strokeColor := default Undefined (assoc "strokeColor" p) in
      match (if truthy strokeColor then
               match hexToRgba strokeColor with
               | Ok rgba => Ok (map_set "strokes" (solid_with_alpha rgba) props)
               | Throw m => Throw m
               end
             else Ok props) with
      | Throw m => Throw m
      | Ok props =>
          let props := copy_defined
                         ["strokeWeight"; "cornerRadius";
                          "layoutMode"; "itemSpacing"; "paddingTop"; "paddingRight";
                          "paddingBottom"; "paddingLeft"; "primaryAxisAlignItems";
                          "counterAxisAlignItems"; "clipsContent";
                          "layoutSizingHorizontal"; "layoutSizingVertical";
                          "layoutPositioning";
                          "fontSize"] p props in
          let fontColor := default Undefined (assoc "fontColor" p) in
          match (if truthy fontColor then
                   match hexToRgb fontColor with
                   | Ok rgb =>
                       Ok (map_set "fills"
                             (Arr [Obj [("type", Str "SOLID"); ("color", rgb)]]) props)
                   | Throw m => Throw m
                   end
                 else Ok props) with
          | Throw m => Throw m
          | Ok props =>
              Ok (copy_defined ["characters"; "textAlignHorizontal"; "textAutoResize"]
                    p props)
          end
      end
  end.

(** [if (props[key] !== undefined && converted[key] === undefined)
     converted[key] = props[key]] for the passthrough keys. *)
Definition pass_through (keys : list string) (p converted : list (string * value))
    : list (string * value) :=
  foldl (fun acc key =>
           match assoc key p, assoc key acc with
           | (None | Some Undefined), _ => acc
           | Some v, (None | Some Undefined) => map_set key v acc
           | Some _, Some _ => acc
           end) converted keys.

Definition convertToolProps (p : list (string * value)) : result (list (string * value)) :=
  match convertProperties p with
  | Throw m => Throw m
  | Ok converted =>
      Ok (pass_through ["fills"; "strokes"; "effects";
                        "primaryAxisSizingMode"; "counterAxisSizingMode"] p converted)
  end.

Definition set_props (fields : option (list (string * value))) (o : ParsedOperation)
    : ParsedOperation :=
  {| op := op o; variable := variable o; parent := parent o; nodeId := nodeId o;
     props := fields; fontFamily := fontFamily o; fontStyle := fontStyle o;
     base64 := base64 o; scaleMode := scaleMode o; newParent := newParent o;
     index := index o |}.

Definition set_image (data : string) (mode : value) (o : ParsedOperation)
    : ParsedOperation :=
  {| op := op o; variable := variable o; parent := parent o; nodeId := nodeId o;
     props := props o; fontFamily := fontFamily o; fontStyle := fontStyle o;
     base64 := Some data; scaleMode := Some mode; newParent := newParent o;
     index := index o |}.

(** One stop of SET_GRADIENT:
    [{ position: s.position, color: typeof s.color === 'string' ? hexToRgba(s.color) : s.color }] *)
Definition convert_stop (s : value) : result value :=
  match read_property s "position" with
  | Throw m => Throw m
  | Ok position =>
      match get_property s "color" with
      | Str c =>
          match hexToRgba (Str c) with
          | Ok rgba => Ok (Obj [("position", position); ("color", rgba)])
          | Throw m => Throw m
          end
      | c => Ok (Obj [("position", position); ("color", c)])
      end
  end.

(** Step 3 for one operation: convert props, load images. *)
Definition process (o : ParsedOperation) : result ParsedOperation :=
  (* Convert tool-level props to Figma-ready format *)
  let converted :=
    match props o with
    | Some (f :: fs) =>
        match convertToolProps (f :: fs) with
        | Ok fields => Ok (set_props (Some fields) o)
        | Throw m => Throw m
        end
    | _ => Ok o
    end in
  match converted with
  | Throw m => Throw m
  | Ok processed =>
      (* For SET_IMAGE_FILL: read image from disk *)
      let imaged :=
        match props processed with
        | Some fields =>
            if String.eqb (op processed) "SET_IMAGE_FILL" then
              let imagePath := default Undefined (assoc "imagePath" fields) in
              if negb (truthy imagePath) then
                Throw "SET_IMAGE_FILL requires imagePath in props"
              else
                match readFileSync imagePath with
                | Throw err =>
                    Throw ("Failed to read image at " +:+ toString imagePath +:+ ": " +:+ err)
                | Ok data =>
                    let mode := default Undefined (assoc "scaleMode" fields) in
                    Ok (set_props
                          (Some (delete_key "scaleMode" (delete_key "imagePath" fields)))
                          (set_image data (if truthy mode then mode else Str "FILL")
                             processed))
                end
            else Ok processed
        | None => Ok processed
        end in
      match imaged with
      | Throw m => Throw m
      | Ok processed =>
          (* For SET_GRADIENT: convert color strings and compute transform *)
          let graded :=
            match props processed with
            | Some fields =>
                if String.eqb (op processed) "SET_GRADIENT" then
                  let withStops :=
                    match assoc "gradientStops" fields with
                    | Some (Arr stops) =>
                        match all_ok (List.map convert_stop stops) with
                        | Ok stops' => Ok (map_set "gradientStops" (Arr stops') fields)
                        | Throw m => Throw m
                        end
                    | _ => Ok fields
                    end in
                  match withStops with
                  | Throw m => Throw m
                  | Ok fields =>
                      match assoc "rotation" fields with
                      | None | Some Undefined => Ok (set_props (Some fields) processed)
                      | Some rotation =>
                          Ok (set_props
                                (Some (delete_key "rotation"
                                         (map_set "gradientTransform"
                                            (rotationToGradientTransform rotation) fields)))
                                processed)
                      end
                  end
                else Ok processed
            | None => Ok processed
            end in
          match graded with
          | Throw m => Throw m
          | Ok processed =>
              (* For ADD_EFFECT: convert color string to RGBA *)
              match props processed with
              | Some fields =>
                  if String.eqb (op processed) "ADD_EFFECT" then
                    match assoc "color" fields with
                    | Some (Str c) =>
                        if String.eqb c "" then Ok processed
                        else match hexToRgba (Str c) with
                             | Ok rgba =>
                                 Ok (set_props (Some (map_set "color" rgba fields)) processed)
                             | Throw m => Throw m
                             end
                    | _ => Ok processed
                    end
                  else Ok processed
              | None => Ok processed
              end
          end
      end
  end.

(** Steps 1 to 3: parse, validate the limits, process.  Nothing is logged
    or sent meanwhile. *)
Definition prepare (operations : string) : result (list ParsedOperation) :=
  match parseDSL JSON_parse ToNumber operations with
  | Throw m => Throw m
  | Ok parsed =>
      if (50 <? length parsed)%nat then
        Throw ("Too many operations: " +:+ pretty (length parsed) +:+ " (max 50)")
      else if (length parsed =? 0)%nat then
        Throw "No operations parsed from DSL"
      else all_ok (List.map process parsed)
  end.

(** Step 6, one entry of [result.results]: the summary line, if any, and
    the binding. *)
Definition summarize (acc : list string * list (string * value)) (r : value)
    : result (list string * list (string * value)) :=
  let '(summary, bindings) := acc in
  if nullish r then Throw "Cannot read properties of null (reading 'variable')" else
  let var := get_property r "variable" in
  let node := get_property r "nodeId" in
  let kind := get_property r "op" in
  if truthy var && truthy node then
    Ok (summary ++ [toString var +:+ " → " +:+ toString node +:+ " (" +:+ toString kind
                    +:+ ")"],
        map_set (toString var) node bindings)
  else if truthy kind then
    Ok (summary ++ [toString kind +:+ " → "
                    +:+ if truthy (get_property r "success") then "ok"
                        else toString (get_property r "error")],
        bindings)
  else Ok acc.

Fixpoint summarize_all (acc : list string * list (string * value)) (rs : list value)
    : result (list string * list (string * value)) :=
  match rs with
  | [] => Ok acc
  | r :: rs' =>
      match summarize acc r with
      | Ok acc' => summarize_all acc' rs'
      | Throw m => Throw m
      end
  end.

Definition format_summary (processedOps : list ParsedOperation) (answer : value)
    : result value :=
  match read_property answer "results" with
  | Throw m => Throw m
  | Ok results =>
      let entries :=
        if truthy results then
          match results with
          | Arr rs => Ok rs
          | Str s => Ok (List.map (fun c => Str (String c EmptyString)) (list_ascii_of_string s))
          | _ => Throw "result.results is not iterable"
          end
        else Ok [] in
      match entries with
      | Throw m => Throw m
      | Ok rs =>
          match summarize_all ([], []) rs with
          | Throw m => Throw m
          | Ok (summary, bindings) =>
              let errs := get_property answer "errors" in
              Ok (Obj [("message",
                        Str ("Executed " +:+ pretty (length processedOps) +:+ " operations"));
                       ("results", Arr (List.map Str summary));
                       ("variableBindings", Obj bindings);
                       ("errors", if truthy errs then errs else Arr [])])
          end
      end
  end.

Definition batchOperations (operations : string) (w : W) : W * result value :=
  match prepare operations with
  | Throw m => (w, Throw m)
  | Ok processedOps =>
      (* 4. Log to telemetry *)
      let w := logBatchOperations processedOps w in
      (* 5. Send to plugin as single command *)
      match sendCommand processedOps w with
      | (w, Throw m) => (w, Throw m)
      | (w, Ok answer) => (w, format_summary processedOps answer)
      end
  end.

End BatchOperations.

(** The keys of an object are among those allowed. *)
Definition keys_in (allowed : list string) (m : list (string * value)) : Prop :=
  forall key x, assoc key m = Some x -> existsb (String.eqb key) allowed = true.

(** Every part followed by the delimiter. *)
Fixpoint sep_after (d : string) (parts : list string) : string :=
  match parts with
  | [] => ""
  | p :: parts' => p +:+ d +:+ sep_after d parts'
  end.

(** The keys convertToolProps can put into its result. *)
Definition figma_keys : list string :=
  ["x"; "y"; "width"; "height"; "rotation"; "opacity"; "visible"; "name";
   "fills"; "strokes"; "strokeWeight"; "cornerRadius";
   "layoutMode"; "itemSpacing"; "paddingTop"; "paddingRight"; "paddingBottom";
   "paddingLeft"; "primaryAxisAlignItems"; "counterAxisAlignItems"; "clipsContent";
   "layoutSizingHorizontal"; "layoutSizingVertical"; "layoutPositioning";
   "fontSize"; "characters"; "textAlignHorizontal"; "textAutoResize";
   "effects"; "primaryAxisSizingMode"; "counterAxisSizingMode"].

(** What parseLine gives the plugin: a known operation; a CREATE with its
    variable, parent and props and nothing else; any other operation with a
    node reference and neither variable nor parent; a new parent and an index
    for REPARENT only; no image data. *)
Definition well_formed (o : ParsedOperation) : Prop :=
  has ALL_OPS (op o) = true /\
  (has CREATE_OPS (op o) = true ->
   (exists v, variable o = Some v /\ v <> "") /\
   (exists ref, parent o = Some ref) /\ (exists fields, props o = Some fields) /\
   nodeId o = None) /\
  (has CREATE_OPS (op o) = false ->
   variable o = None /\ parent o = None /\ (exists ref, nodeId o = Some ref) /\
   fontFamily o = None /\ fontStyle o = None) /\
  (has MUTATION_OPS (op o) = true -> exists fields, props o = Some fields) /\
  (has SIMPLE_OPS (op o) = true -> props o = None) /\
  (op o = "REPARENT" -> (exists target, newParent o = Some target) /\ props o = None) /\
  (op o <> "REPARENT" -> newParent o = None /\ index o = None) /\
  base64 o = None /\ scaleMode o = None.

(** *** Samples, for the examples of Part II

    The sample bridge records what it is sent and answers with an empty
    result; the sample conversions are never called by the sample scripts,
    which have no props. *)
Definition newline : string := String (ascii_of_nat 10) EmptyString.

Definition sample_JSON_parse (text : string) : result (list (string * value)) :=
  if String.eqb text "{}" then Ok [] else Throw "Unexpected token".

Definition sample_ToNumber (v : value) : option Z := None.

Definition sample_conversion (v : value) : result value :=
  match v with
  | Str _ => Ok (Obj [("r", Num 0); ("g", Num 0); ("b", Num 0); ("a", Num 1)])
  | _ => Throw "hex.replace is not a function"
  end.

Definition sample_readFileSync (path : value) : result string :=
  Throw "ENOENT: no such file or directory".

Definition sample_toString (v : value) : string :=
  match v with
  | Str s => s
  | _ => ""
  end.

Definition recording_bridge (ops : list ParsedOperation)
    (sent : list (list ParsedOperation)) : list (list ParsedOperation) * result value :=
  (sent ++ [ops], Ok (Obj [("results", Arr []); ("errors", Arr [])])).

Definition sample_batchOperations (operations : string)
    (sent : list (list ParsedOperation)) : list (list ParsedOperation) * result value :=
  batchOperations sample_JSON_parse sample_ToNumber sample_conversion sample_conversion
    (fun v => v) sample_readFileSync sample_toString (list (list ParsedOperation))
    (fun _ w => w) recording_bridge operations sent.

(** [k] lines [DELETE(1:2)]. *)
Definition delete_lines (k : nat) : string :=
  join newline (replicate k "DELETE(1:2)").

End Dsl.


(* ===================================================================== *)
(** * Part II: theorems                                                   *)
(* ===================================================================== *)

(** ** The command channel *)
Module BridgeProofs.
Import Bridge.

Section WithUuid.

Variable uuidv4 : nat -> string.

Local Abbreviation inv := (Bridge.inv uuidv4).
Local Abbreviation inv_pending := (Bridge.inv_pending uuidv4).
Local Abbreviation inv_timer := (Bridge.inv_timer uuidv4).
Local Abbreviation inv_settled := (Bridge.inv_settled uuidv4).
Local Abbreviation inv_fresh := (Bridge.inv_fresh uuidv4).

Lemma calls_snoc p q o sd pe ti n wi wa :
  calls p {| pending := pe; timers := ti; issued := n;
             settled := sd ++ [(q, o)]; wire := wi; warnings := wa |}
  = List.map snd (List.filter (fun e => Nat.eqb (fst e) p) sd)
      ++ (if Nat.eqb q p then [o] else []).
Proof.
  unfold calls; simpl.
  rewrite List.filter_app, List.map_app. simpl.
  destruct (Nat.eqb q p); reflexivity.
Qed.

(** A duplicate-free list all of whose elements are [a] has at most one. *)
Lemma NoDup_all_same {A} (a : A) (l : list A) :
  NoDup l -> (forall x, x ∈ l -> x = a) -> l = [] \/ l = [a].
Proof.
  intros Hnd Hall. destruct l as [|x [|y l']]; [by left| |].
  - right. f_equal. apply Hall. set_solver.
  - exfalso. assert (x = a) by (apply Hall; set_solver).
    assert (y = a) by (apply Hall; set_solver). subst.
    apply NoDup_cons in Hnd as [Hnin _]. set_solver.
Qed.

Lemma lookup_foldr_delete (t : gmap nat (string * string))
    (es : list (string * nat)) (q : nat) :
  foldr (fun e t => delete (snd e) t) t es !! q
  = if decide (q ∈ List.map snd es) then None else t !! q.
Proof.
  induction es as [|[id p] es IH].
  - reflexivity.
  - cbn [foldr List.map snd]. destruct (decide (p = q)) as [->|Hne].
    + rewrite lookup_delete_eq. rewrite decide_True; [done|]. left.
    + rewrite lookup_delete_ne by done. rewrite IH.
      destruct (decide (q ∈ List.map snd es)) as [H|H].
      * rewrite decide_True; [done|]. by right.
      * rewrite decide_False; [done|]. intros [?|?]%elem_of_cons; congruence.
Qed.

Lemma inv_init : inv init.
Proof.
  split; unfold init; simpl; intros; try done; lia.
Qed.

(** The invariant does not read the wire or the warnings. *)
Lemma inv_ext b b' :
  inv b -> pending b' = pending b -> timers b' = timers b ->
  issued b' = issued b -> settled b' = settled b -> inv b'.
Proof.
  intros [H1 H2 H3 H4] Hp Ht Hi Hs.
  assert (Hc : forall p, calls p b' = calls p b)
    by (intros p; unfold calls; by rewrite Hs).
  split; intros *; rewrite ?Hp, ?Ht, ?Hi, ?Hc; eauto.
Qed.

(** Registering a new command: setTimeout and pending.set. *)
Lemma inv_register b ty wi wa :
  inv b ->
  inv {| pending := <[uuidv4 (issued b) := issued b]> (pending b);
         timers := <[issued b := (uuidv4 (issued b), ty)]> (timers b);
         issued := S (issued b); settled := settled b;
         wire := wi; warnings := wa |}.
Proof.
  intros [H1 H2 H3 H4]. split; simpl.
  - intros id p. destruct (decide (uuidv4 (issued b) = id)) as [<-|Hne].
    + rewrite lookup_insert_eq. intros [= <-]. rewrite lookup_insert_eq. eauto.
    + rewrite lookup_insert_ne by done. intros Hp.
      destruct (H1 _ _ Hp) as [ty' Ht]. exists ty'.
      destruct (H2 _ _ _ Ht) as (_ & Hlt & _).
      rewrite lookup_insert_ne by lia. done.
  - intros p id ty'. destruct (decide (issued b = p)) as [<-|Hne].
    + rewrite lookup_insert_eq. intros [= <- <-].
      split; [done|]. split; [lia|]. apply (H4 (issued b)). lia.
    + rewrite lookup_insert_ne by done. intros Ht.
      destruct (H2 _ _ _ Ht) as (? & ? & ?). repeat split; [done|lia|done].
  - intros p Hlt. destruct (decide (issued b = p)) as [<-|Hne].
    + by rewrite lookup_insert_eq.
    + rewrite lookup_insert_ne by done. intros Ht. apply (H3 p); [lia|done].
  - intros p Hle. apply (H4 p). lia.
Qed.

(** Settling the promise of an armed timer: clearTimeout (or the timer
    firing), pending.delete and one call of resolve or reject. *)
Lemma inv_settle_one b p id ty o wi wa :
  inv b -> timers b !! p = Some (id, ty) ->
  inv {| pending := delete id (pending b);
         timers := delete p (timers b);
         issued := issued b; settled := settled b ++ [(p, o)];
         wire := wi; warnings := wa |}.
Proof.
  intros [H1 H2 H3 H4] Hp.
  destruct (H2 _ _ _ Hp) as (Hid & Hlt & Hc).
  split; simpl.
  - intros id' q. destruct (decide (id = id')) as [<-|Hne].
    + by rewrite lookup_delete_eq.
    + rewrite lookup_delete_ne by done. intros Hq.
      destruct (H1 _ _ Hq) as [ty' Ht]. exists ty'.
      destruct (decide (p = q)) as [<-|Hpq].
      * rewrite Hp in Ht. congruence.
      * by rewrite lookup_delete_ne.
  - intros q id' ty'. destruct (decide (p = q)) as [<-|Hpq].
    + by rewrite lookup_delete_eq.
    + rewrite lookup_delete_ne by done. intros Ht.
      destruct (H2 _ _ _ Ht) as (? & ? & Hcq). repeat split; [done..|].
      rewrite calls_snoc. fold (calls q b). rewrite Hcq.
      destruct (Nat.eqb_spec p q); [done|reflexivity].
  - intros q Hq. rewrite calls_snoc. fold (calls q b).
    destruct (decide (p = q)) as [<-|Hpq].
    + intros _. rewrite Hc, Nat.eqb_refl. eauto.
    + rewrite lookup_delete_ne by done. intros Ht.
      destruct (H3 q Hq Ht) as [o' Ho']. exists o'. rewrite Ho'.
      destruct (Nat.eqb_spec p q); [done|reflexivity].
  - intros q Hq. rewrite calls_snoc. fold (calls q b).
    rewrite (H4 q Hq). destruct (Nat.eqb_spec p q); [lia|reflexivity].
Qed.

(** What one teardown loop adds to the calls made on promise [q]. *)
Lemma rejected_calls (es : list (string * nat)) (o : outcome) (q : nat) :
  NoDup es -> (forall id, (id, q) ∈ es -> id = uuidv4 q) ->
  List.map snd (List.filter (fun e => Nat.eqb (fst e) q)
                  (List.map (fun e : string * nat => (snd e, o)) es))
  = if decide (q ∈ List.map snd es) then [o] else [].
Proof.
  induction es as [|[id p] es IH]; intros Hnd Hq; [done|].
  apply NoDup_cons in Hnd as [Hnin Hnd].
  cbn [List.map List.filter fst snd].
  destruct (Nat.eqb_spec p q) as [->|Hne].
  - cbn [List.map snd]. rewrite decide_True by left.
    rewrite IH; [|done|intros; apply Hq; by right].
    rewrite decide_False; [done|].
    intros [[id' q'] [Heq Hin]]%list_elem_of_fmap. simpl in Heq. subst q'.
    assert (id' = uuidv4 q) by (apply Hq; by right).
    assert (id = uuidv4 q) by (apply Hq; left).
    congruence.
  - rewrite IH; [|done|intros; apply Hq; by right].
    destruct (decide (q ∈ List.map snd es)) as [H|H].
    + rewrite decide_True; [done|]. by right.
    + rewrite decide_False; [done|]. intros [?|?]%elem_of_cons; congruence.
Qed.

Lemma calls_reject_all o b q :
  inv b ->
  calls q (reject_all o b)
  = calls q b ++
    (if decide (q ∈ List.map snd (map_to_list (pending b))) then [o] else []).
Proof.
  intros [H1 H2 _ _]. unfold calls, reject_all; simpl.
  rewrite List.filter_app, List.map_app. f_equal.
  apply rejected_calls.
  - apply NoDup_map_to_list.
  - intros id Hin%elem_of_map_to_list.
    destruct (H1 _ _ Hin) as [ty Ht]. by destruct (H2 _ _ _ Ht).
Qed.

Lemma elem_of_pending_entries (b : bridge) (q : nat) :
  q ∈ List.map snd (map_to_list (pending b)) <->
  exists id, pending b !! id = Some q.
Proof.
  split.
  - intros [[id q'] [Heq Hin]]%list_elem_of_fmap. simpl in Heq. subst q'.
    exists id. by apply elem_of_map_to_list.
  - intros [id Hid]. apply list_elem_of_fmap. exists (id, q). split; [done|].
    by apply elem_of_map_to_list.
Qed.

(** Channel teardown: socket.on('close') and close(). *)
Lemma inv_reject_all o b : inv b -> inv (reject_all o b).
Proof.
  intros Hinv. pose proof Hinv as [H1 H2 H3 H4]. split.
  - intros id p. unfold reject_all; simpl. by rewrite lookup_empty.
  - intros p id ty. rewrite calls_reject_all by done.
    unfold reject_all; simpl. rewrite lookup_foldr_delete.
    destruct (decide _) as [|Hnin]; [done|]. intros Ht.
    destruct (H2 _ _ _ Ht) as (? & ? & ->). done.
  - intros p Hp. rewrite calls_reject_all by done.
    unfold reject_all; simpl. simpl in Hp. rewrite lookup_foldr_delete.
    destruct (decide _) as [Hin|Hnin].
    + intros _. apply elem_of_pending_entries in Hin as [id Hid].
      destruct (H1 _ _ Hid) as [ty Ht].
      destruct (H2 _ _ _ Ht) as (_ & _ & ->). eauto.
    + intros Ht. destruct (H3 p Hp Ht) as [o' ->]. exists o'.
      by rewrite app_nil_r.
  - intros p Hp. rewrite calls_reject_all by done. simpl in Hp.
    rewrite (H4 p Hp). rewrite decide_False; [done|].
    intros [id Hid]%elem_of_pending_entries.
    destruct (H1 _ _ Hid) as [ty Ht].
    destruct (H2 _ _ _ Ht) as (_ & ? & _). lia.
Qed.

Lemma inv_sendCommand rs th c b : inv b -> inv (fst (sendCommand uuidv4 rs th c b)).
Proof.
  intros Hinv. unfold sendCommand.
  destruct (is_open rs); simpl; [|done].
  destruct th as [e|]; simpl.
  - refine (eq_ind _ inv (inv_settle_one
             {| pending := <[uuidv4 (issued b) := issued b]> (pending b);
                timers := <[issued b := (uuidv4 (issued b), type c)]> (timers b);
                issued := S (issued b); settled := settled b;
                wire := wire b; warnings := warnings b |}
             (issued b) (uuidv4 (issued b)) (type c) (RejectedSendFailed e)
             (wire b) (warnings b) _ _) _ eq_refl).
    + by apply inv_register.
    + simpl. by rewrite lookup_insert_eq.
  - by apply inv_register.
Qed.

Lemma inv_settle_response id o b : inv b -> inv (settle_response id o b).
Proof.
  intros Hinv. unfold settle_response.
  destruct (pending b !! id) as [p|] eqn:Hp.
  - destruct (inv_pending _ Hinv _ _ Hp) as [ty Ht].
    by apply inv_settle_one with (ty := ty).
  - by apply (inv_ext b).
Qed.

Lemma inv_timeout p b : inv b -> inv (timeout p b).
Proof.
  intros Hinv. unfold timeout.
  destruct (timers b !! p) as [[id ty]|] eqn:Ht; [|done].
  by apply inv_settle_one with (ty := ty).
Qed.

Lemma inv_step b e : inv b -> inv (step uuidv4 b e).
Proof.
  intros Hinv. destruct e as [rs th c|[id d|id err|?|?]|p| |]; simpl.
  - by apply inv_sendCommand.
  - by apply inv_settle_response.
  - by apply inv_settle_response.
  - done.
  - done.
  - by apply inv_timeout.
  - by apply inv_reject_all.
  - by apply inv_reject_all.
Qed.

Lemma inv_run es b : inv b -> inv (run uuidv4 b es).
Proof.
  revert b. induction es as [|e es IH]; intros b Hinv; simpl; [done|].
  apply IH. by apply inv_step.
Qed.

Lemma terminal_mono p c o post e :
  terminal uuidv4 p c o post -> terminal uuidv4 p c o (post ++ [e]).
Proof.
  destruct o; simpl; rewrite ?in_app_iff; tauto.
Qed.

(** What settling promise [q] does to promise [p]. *)
Lemma settle_one_frame b p q id o wi wa :
  let b' := {| pending := delete id (pending b);
               timers := delete q (timers b);
               issued := issued b; settled := settled b ++ [(q, o)];
               wire := wi; warnings := wa |} in
  (q = p /\ timers b' !! p = None /\ calls p b' = calls p b ++ [o]) \/
  (q <> p /\ timers b' !! p = timers b !! p /\ calls p b' = calls p b).
Proof.
  intros b'. subst b'. rewrite calls_snoc. fold (calls p b). simpl.
  destruct (decide (q = p)) as [->|Hne]; [left|right].
  - by rewrite lookup_delete_eq, Nat.eqb_refl.
  - rewrite lookup_delete_ne by done.
    destruct (Nat.eqb_spec q p); [done|]. by rewrite app_nil_r.
Qed.

Lemma finished_step p c post b e :
  inv b -> p < issued b -> finished uuidv4 p c post b ->
  finished uuidv4 p c (post ++ [e]) (step uuidv4 b e).
Proof.
  intros Hinv Hlt (Ht & o & Hc & Hterm).
  assert (Hnp : forall id, pending b !! id <> Some p).
  { intros id Hid. destruct (inv_pending _ Hinv _ _ Hid). congruence. }
  assert (timers (step uuidv4 b e) !! p = None /\
          calls p (step uuidv4 b e) = calls p b) as [Ht' Hc'].
  { destruct e as [rs th c'|[id d|id err|?|?]|q| |]; simpl.
    - unfold sendCommand. destruct (is_open rs); simpl; [|done].
      destruct th as [e|]; simpl.
      + rewrite calls_snoc. fold (calls p b).
        rewrite lookup_delete_ne, lookup_insert_ne by lia.
        destruct (Nat.eqb_spec (issued b) p); [lia|]. by rewrite app_nil_r.
      + by rewrite lookup_insert_ne by lia.
    - unfold settle_response. destruct (pending b !! id) as [q|] eqn:Hq; [|done].
      destruct (settle_one_frame b p q id (Resolved d) (wire b) (warnings b))
        as [(-> & _)|(_ & -> & ->)]; [by destruct (Hnp id)|done].
    - unfold settle_response. destruct (pending b !! id) as [q|] eqn:Hq; [|done].
      destruct (settle_one_frame b p q id (RejectedError err) (wire b) (warnings b))
        as [(-> & _)|(_ & -> & ->)]; [by destruct (Hnp id)|done].
    - done.
    - done.
    - unfold timeout. destruct (timers b !! q) as [[id ty]|] eqn:Hq; [|done].
      destruct (settle_one_frame b p q id (RejectedTimeout ty) (wire b) (warnings b))
        as [(-> & _)|(_ & -> & ->)]; [congruence|done].
    - assert (Hnin : p ∉ List.map snd (map_to_list (pending b))).
      { intros [id Hid]%elem_of_pending_entries. by destruct (Hnp id). }
      unfold on_socket_close. rewrite calls_reject_all by done.
      unfold reject_all; simpl. rewrite lookup_foldr_delete.
      rewrite !decide_False by exact Hnin. by rewrite app_nil_r.
    - assert (Hnin : p ∉ List.map snd (map_to_list (pending b))).
      { intros [id Hid]%elem_of_pending_entries. by destruct (Hnp id). }
      unfold close. rewrite calls_reject_all by done.
      unfold reject_all; simpl. rewrite lookup_foldr_delete.
      rewrite !decide_False by exact Hnin. by rewrite app_nil_r. }
  split; [done|]. exists o. rewrite Hc'. split; [done|]. by apply terminal_mono.
Qed.

Lemma in_flight_step p c post b e :
  inv b -> p < issued b -> in_flight uuidv4 p c b ->
  in_flight uuidv4 p c (step uuidv4 b e) \/ finished uuidv4 p c (post ++ [e]) (step uuidv4 b e).
Proof.
  intros Hinv Hlt [Ht Hc].
  assert (Hpid : forall id, pending b !! id = Some p -> id = uuidv4 p).
  { intros id Hid. destruct (inv_pending _ Hinv _ _ Hid) as [ty Hty]. congruence. }
  assert (Hlast : In e (post ++ [e])) by (apply in_app_iff; right; left; done).
  unfold in_flight, finished.
  destruct e as [rs th c'|[id d|id err|?|?]|q| |]; simpl.
  - left. unfold sendCommand. destruct (is_open rs); simpl; [|done].
    destruct th as [e|]; simpl.
    + rewrite calls_snoc. fold (calls p b).
      rewrite lookup_delete_ne, lookup_insert_ne by lia.
      destruct (Nat.eqb_spec (issued b) p); [lia|]. by rewrite app_nil_r.
    + by rewrite lookup_insert_ne by lia.
  - unfold settle_response. destruct (pending b !! id) as [q|] eqn:Hq; [|by left].
    destruct (settle_one_frame b p q id (Resolved d) (wire b) (warnings b))
      as [(-> & -> & ->)|(_ & -> & ->)]; [right|by left].
    split; [done|]. exists (Resolved d). rewrite Hc. split; [done|].
    simpl. by rewrite <- (Hpid id Hq).
  - unfold settle_response. destruct (pending b !! id) as [q|] eqn:Hq; [|by left].
    destruct (settle_one_frame b p q id (RejectedError err) (wire b) (warnings b))
      as [(-> & -> & ->)|(_ & -> & ->)]; [right|by left].
    split; [done|]. exists (RejectedError err). rewrite Hc. split; [done|].
    simpl. by rewrite <- (Hpid id Hq).
  - by left.
  - by left.
  - unfold timeout. destruct (timers b !! q) as [[id ty]|] eqn:Hq; [|by left].
    destruct (settle_one_frame b p q id (RejectedTimeout ty) (wire b) (warnings b))
      as [(-> & -> & ->)|(_ & -> & ->)]; [right|by left].
    split; [done|]. exists (RejectedTimeout ty). rewrite Hc. split; [done|].
    simpl. split; [congruence|done].
  - unfold on_socket_close. rewrite calls_reject_all by done.
    unfold reject_all; simpl. rewrite lookup_foldr_delete.
    destruct (decide _) as [Hin|Hnin].
    + right. split; [done|]. exists RejectedSocketClosed. by rewrite Hc.
    + left. by rewrite app_nil_r.
  - unfold close. rewrite calls_reject_all by done.
    unfold reject_all; simpl. rewrite lookup_foldr_delete.
    destruct (decide _) as [Hin|Hnin].
    + right. split; [done|]. exists RejectedBridgeClosed. by rewrite Hc.
    + left. by rewrite app_nil_r.
Qed.

Lemma issued_step b e : issued b <= issued (step uuidv4 b e).
Proof.
  destruct e as [rs th c'|[id d|id err|?|?]|q| |]; simpl; try lia.
  - unfold sendCommand. destruct (is_open rs); simpl; [|lia].
    destruct th; simpl; lia.
  - unfold settle_response. destruct (pending b !! id); simpl; lia.
  - unfold settle_response. destruct (pending b !! id); simpl; lia.
  - unfold timeout. destruct (timers b !! q) as [[??]|]; simpl; lia.
Qed.

Lemma run_snoc b es e : run uuidv4 b (es ++ [e]) = step uuidv4 (run uuidv4 b es) e.
Proof. unfold run. by rewrite foldl_app. Qed.

(** A transmitted command is, after any further events, either still in
    flight or finished with one terminal outcome. *)
Lemma in_flight_run p c b post :
  inv b -> p < issued b -> in_flight uuidv4 p c b ->
  let b' := run uuidv4 b post in
  inv b' /\ p < issued b' /\ (in_flight uuidv4 p c b' \/ finished uuidv4 p c post b').
Proof.
  intros Hinv Hlt Hfl. induction post as [|e post IH] using rev_ind; simpl.
  - eauto.
  - rewrite run_snoc. destruct IH as (Hinv' & Hlt' & Hcase).
    split; [by apply inv_step|]. split.
    + pose proof (issued_step (run uuidv4 b post) e). lia.
    + destruct Hcase as [H|H].
      * by apply in_flight_step.
      * right. by apply finished_step.
Qed.
End WithUuid.


(** C10.  With the socket in any state but OPEN, [sendCommand] returns an
    already rejected promise with the not-connected error and leaves the
    bridge as it was: no id is drawn, no pending entry is made, no timer is
    armed and nothing is sent. *)
Theorem sendCommand_not_open (uuidv4 : nat -> string) (rs : ready_state) (send_throws : option string)
    (c : Command) (b : bridge) :
  rs <> OPEN ->
  sendCommand uuidv4 rs send_throws c b = (b, AlreadyRejected "WebSocket not connected").
Proof.
  intros Hrs. unfold sendCommand. destruct rs; simpl; congruence.
Qed.


Lemma sendCommand_not_open_witness :
  CLOSED <> OPEN /\
  sendCommand (fun n => pretty n) CLOSED None {| type := "get_state"; body := JS.Null |} init
  = (init, AlreadyRejected "WebSocket not connected").
Proof.
  split; [discriminate|].
  apply (sendCommand_not_open (fun n => pretty n) CLOSED None
           {| type := "get_state"; body := JS.Null |} init).
  discriminate.
Defined.

(** *** Send failures, late timeouts and late responses *)

(** X1. When socket.send throws, sendCommand clears the timer it armed, removes the
    entry it registered and rejects the promise with the error: provided the
    id drawn was not pending, the pending table, the timers and the wire are
    as before the call, and the promise has that one rejection. *)
Theorem sendCommand_send_failure_leaves_no_trace (uuidv4 : nat -> string)
    (e : string) (command : Command) (b : bridge) :
  pending b !! uuidv4 (issued b) = None ->
  timers b !! issued b = None ->
  let '(b', promise) := sendCommand uuidv4 OPEN (Some e) command b in
  promise = Promise (issued b) /\
  pending b' = pending b /\ timers b' = timers b /\ wire b' = wire b /\
  issued b' = S (issued b) /\
  settled b' = settled b ++ [(issued b, RejectedSendFailed e)].
Proof.
  intros Hp Ht. simpl. repeat split.
  - by apply delete_insert_id.
  - by apply delete_insert_id.
Qed.

Lemma sendCommand_send_failure_leaves_no_trace_witness :
  let '(b', promise) :=
    sendCommand (fun n => pretty n) OPEN (Some "socket is closing")
      {| type := "get_state"; body := JS.Null |} init in
  promise = Promise 0 /\
  pending b' = pending init /\ timers b' = timers init /\ wire b' = wire init /\
  issued b' = 1 /\
  settled b' = [(0, RejectedSendFailed "socket is closing")].
Proof.
  apply (sendCommand_send_failure_leaves_no_trace (fun n => pretty n)
           "socket is closing" {| type := "get_state"; body := JS.Null |} init);
    reflexivity.
Defined.



End BridgeProofs.

(** ** The plugin: serializer and restore *)
Module PluginProofs.
Import Plugin.

Lemma copy_stop_id s : copy_stop s = s.
Proof. by destruct s. Qed.

Lemma map_copy_stop l : List.map copy_stop l = l.
Proof. induction l as [|s l IH]; simpl; [done|]. by rewrite copy_stop_id, IH. Qed.

Lemma map_restore_stop (l : list ColorStop) :
  List.map (fun s => {| position := position s; stop_color := stop_color s |}) l = l.
Proof. induction l as [|[] l IH]; simpl; [done|]. by rewrite IH. Qed.

Lemma restorePaint_serializePaint p :
  paint_restorable p = true ->
  exists p', restorePaint (serializePaint p) = Some p'
             /\ serializePaint p' = serializePaint p.
Proof.
  destruct p as [ty [v|] [o|] c gs gt ih sm it]; unfold paint_restorable; simpl; try done.
  unfold restorePaint, serializePaint; simpl.
  destruct (String.eqb ty "SOLID") eqn:Hs; simpl.
  - apply String.eqb_eq in Hs as ->. destruct c as [c|]; simpl; [|done]. intros _.
    eexists; split; reflexivity.
  - destruct (String.prefix "GRADIENT" ty) eqn:Hg; simpl.
    + destruct gs as [gs|], gt as [gt|]; simpl; try done. intros _.
      eexists; split; [reflexivity|]. simpl. rewrite Hs, Hg. simpl.
      by rewrite map_copy_stop, map_restore_stop.
    + destruct (String.eqb ty "IMAGE") eqn:Hi; simpl; [|done].
      apply String.eqb_eq in Hi as ->.
      destruct ih as [ih|], sm as [sm|], it as [it|]; simpl;
        rewrite ?andb_false_r; try done.
      destruct (String.eqb ih "") eqn:?, (String.eqb sm "") eqn:?; simpl; try done.
      intros _. eexists; split; reflexivity.
Qed.

Lemma restorePaints_serialize (l : list Paint) :
  forallb paint_restorable l = true ->
  List.map serializePaint (restorePaints (List.map serializePaint l))
  = List.map serializePaint l
  /\ length (restorePaints (List.map serializePaint l)) = length l.
Proof.
  induction l as [|p l IH]; simpl; [done|].
  intros [Hp Hl]%andb_true_iff. destruct (IH Hl) as [IH1 IH2].
  destruct (restorePaint_serializePaint p Hp) as (p' & Hr & Hs).
  unfold restorePaints in *. simpl. rewrite Hr. simpl. split; congruence.
Qed.

Lemma restoreEffects_serialize (l : list Effect) :
  forallb effect_restorable l = true ->
  List.map serializeEffect (List.map restoreEffect (List.map serializeEffect l))
  = List.map serializeEffect l.
Proof.
  induction l as [|e l IH]; simpl; [done|].
  intros [He Hl]%andb_true_iff. rewrite (IH Hl). f_equal.
  destruct e as [ty [v|] ra c o sp]; [reflexivity|discriminate].
Qed.


(** Projections of the node after each node-level block. *)
Lemma id_restore_name d n : id (restore_name d n) = id n.
Proof. unfold restore_name. by destruct (negb _). Qed.
Lemma type_restore_name d n : type (restore_name d n) = type n.
Proof. unfold restore_name. by destruct (negb _). Qed.
Lemma visible_restore_name d n : visible (restore_name d n) = visible n.
Proof. unfold restore_name. by destruct (negb _). Qed.
Lemma locked_restore_name d n : locked (restore_name d n) = locked n.
Proof. unfold restore_name. by destruct (negb _). Qed.
Lemma layout_restore_name d n : layout (restore_name d n) = layout n.
Proof. unfold restore_name. by destruct (negb _). Qed.
Lemma visual_restore_name d n : visual (restore_name d n) = visual n.
Proof. unfold restore_name. by destruct (negb _). Qed.
Lemma frame_restore_name d n : frame (restore_name d n) = frame n.
Proof. unfold restore_name. by destruct (negb _). Qed.
Lemma text_restore_name d n : text (restore_name d n) = text n.
Proof. unfold restore_name. by destruct (negb _). Qed.
Lemma id_restore_visibility d n : id (restore_visibility d n) = id n.
Proof. unfold restore_visibility.
  by destruct (Serialized.visible d) as [[|]|], (Serialized.locked d) as [[|]|]. Qed.
Lemma type_restore_visibility d n : type (restore_visibility d n) = type n.
Proof. unfold restore_visibility.
  by destruct (Serialized.visible d) as [[|]|], (Serialized.locked d) as [[|]|]. Qed.
Lemma name_restore_visibility d n : name (restore_visibility d n) = name n.
Proof. unfold restore_visibility.
  by destruct (Serialized.visible d) as [[|]|], (Serialized.locked d) as [[|]|]. Qed.
Lemma layout_restore_visibility d n : layout (restore_visibility d n) = layout n.
Proof. unfold restore_visibility.
  by destruct (Serialized.visible d) as [[|]|], (Serialized.locked d) as [[|]|]. Qed.
Lemma visual_restore_visibility d n : visual (restore_visibility d n) = visual n.
Proof. unfold restore_visibility.
  by destruct (Serialized.visible d) as [[|]|], (Serialized.locked d) as [[|]|]. Qed.
Lemma frame_restore_visibility d n : frame (restore_visibility d n) = frame n.
Proof. unfold restore_visibility.
  by destruct (Serialized.visible d) as [[|]|], (Serialized.locked d) as [[|]|]. Qed.
Lemma text_restore_visibility d n : text (restore_visibility d n) = text n.
Proof. unfold restore_visibility.
  by destruct (Serialized.visible d) as [[|]|], (Serialized.locked d) as [[|]|]. Qed.
Lemma id_restore_autolayout d n : id (restore_autolayout d n) = id n.
Proof. unfold restore_autolayout. by destruct (type n =? "FRAME")%string. Qed.
Lemma type_restore_autolayout d n : type (restore_autolayout d n) = type n.
Proof. unfold restore_autolayout. by destruct (type n =? "FRAME")%string. Qed.
Lemma name_restore_autolayout d n : name (restore_autolayout d n) = name n.
Proof. unfold restore_autolayout. by destruct (type n =? "FRAME")%string. Qed.
Lemma visible_restore_autolayout d n : visible (restore_autolayout d n) = visible n.
Proof. unfold restore_autolayout. by destruct (type n =? "FRAME")%string. Qed.
Lemma locked_restore_autolayout d n : locked (restore_autolayout d n) = locked n.
Proof. unfold restore_autolayout. by destruct (type n =? "FRAME")%string. Qed.
Lemma visual_restore_autolayout d n : visual (restore_autolayout d n) = visual n.
Proof. unfold restore_autolayout. by destruct (type n =? "FRAME")%string. Qed.
Lemma text_restore_autolayout d n : text (restore_autolayout d n) = text n.
Proof. unfold restore_autolayout. by destruct (type n =? "FRAME")%string. Qed.
Lemma id_restore_text h d n : id (restore_text h d n) = id n.
Proof. unfold restore_text. by destruct (type n =? "TEXT")%string. Qed.
Lemma type_restore_text h d n : type (restore_text h d n) = type n.
Proof. unfold restore_text. by destruct (type n =? "TEXT")%string. Qed.
Lemma name_restore_text h d n : name (restore_text h d n) = name n.
Proof. unfold restore_text. by destruct (type n =? "TEXT")%string. Qed.
Lemma visible_restore_text h d n : visible (restore_text h d n) = visible n.
Proof. unfold restore_text. by destruct (type n =? "TEXT")%string. Qed.
Lemma locked_restore_text h d n : locked (restore_text h d n) = locked n.
Proof. unfold restore_text. by destruct (type n =? "TEXT")%string. Qed.
Lemma layout_restore_text h d n : layout (restore_text h d n) = layout n.
Proof. unfold restore_text. by destruct (type n =? "TEXT")%string. Qed.
Lemma visual_restore_text h d n : visual (restore_text h d n) = visual n.
Proof. unfold restore_text. by destruct (type n =? "TEXT")%string. Qed.
Lemma frame_restore_text h d n : frame (restore_text h d n) = frame n.
Proof. unfold restore_text. by destruct (type n =? "TEXT")%string. Qed.

Lemma layout_restore_autolayout d n :
  layout (restore_autolayout d n)
  = if (type n =? "FRAME")%string
    then restore_size d (restore_layoutSizing d (layout n)) else layout n.
Proof. unfold restore_autolayout. by destruct (type n =? "FRAME")%string. Qed.

Lemma frame_restore_autolayout d n :
  frame (restore_autolayout d n)
  = if (type n =? "FRAME")%string
    then assign (Serialized.clipsContent d) set_clipsContent
           (restore_frame_props d (frame n))
    else frame n.
Proof. unfold restore_autolayout. by destruct (type n =? "FRAME")%string. Qed.

Lemma text_restore_text h d n :
  text (restore_text h d n)
  = if (type n =? "TEXT")%string then restore_text_props h d (text n) else text n.
Proof. unfold restore_text. by destruct (type n =? "TEXT")%string. Qed.

Ltac slice :=
  repeat first
    [ progress cbn [id type name visible locked layout visual frame text
                    with_layout with_visual with_frame with_text]
    | rewrite layout_restore_autolayout | rewrite frame_restore_autolayout
    | rewrite text_restore_text
    | rewrite id_restore_name
    | rewrite type_restore_name
    | rewrite visible_restore_name
    | rewrite locked_restore_name
    | rewrite layout_restore_name
    | rewrite visual_restore_name
    | rewrite frame_restore_name
    | rewrite text_restore_name
    | rewrite id_restore_visibility
    | rewrite type_restore_visibility
    | rewrite name_restore_visibility
    | rewrite layout_restore_visibility
    | rewrite visual_restore_visibility
    | rewrite frame_restore_visibility
    | rewrite text_restore_visibility
    | rewrite id_restore_autolayout
    | rewrite type_restore_autolayout
    | rewrite name_restore_autolayout
    | rewrite visible_restore_autolayout
    | rewrite locked_restore_autolayout
    | rewrite visual_restore_autolayout
    | rewrite text_restore_autolayout
    | rewrite id_restore_text
    | rewrite type_restore_text
    | rewrite name_restore_text
    | rewrite visible_restore_text
    | rewrite locked_restore_text
    | rewrite layout_restore_text
    | rewrite visual_restore_text
    | rewrite frame_restore_text
    ].

(** The node that restoreNodeProperties leaves, group by group. *)
Lemma restoreNodeProperties_slices h t d :
  let R := restoreNodeProperties h t d in
  id R = id t /\ type R = type t /\
  name R = name (restore_name d t) /\
  visible R = visible (restore_visibility d t) /\
  locked R = locked (restore_visibility d t) /\
  layout R =
    (let ln := restore_layout_child d (restore_position d (layout t)) in
     if (type t =? "FRAME")%string
     then restore_size d (restore_layoutSizing d ln) else ln) /\
  visual R =
    restore_effects d (restore_cornerRadius d (restore_strokeWeight d
      (restore_strokes d (restore_fills d (restore_opacity d (visual t)))))) /\
  frame R =
    (if (type t =? "FRAME")%string
     then assign (Serialized.clipsContent d) set_clipsContent
            (restore_frame_props d (frame t))
     else frame t) /\
  text R =
    (if (type t =? "TEXT")%string then restore_text_props h d (text t) else text t).
Proof.
  unfold restoreNodeProperties. cbv zeta.
  repeat split; slice; try reflexivity.
  - unfold restore_visibility.
    destruct (Serialized.visible d) as [[|]|], (Serialized.locked d) as [[|]|];
      slice; cbn [set_visible set_locked visible]; slice; reflexivity.
  - unfold restore_visibility.
    destruct (Serialized.visible d) as [[|]|], (Serialized.locked d) as [[|]|];
      slice; cbn [set_visible set_locked locked]; slice; reflexivity.
Qed.

(** A projection passes over a store to another field. *)
Lemma proj_assign {A R B} (g : R -> B) (store : A -> R -> R) (o : option A) (r : R) :
  (forall a r, g (store a r) = g r) -> g (assign o store r) = g r.
Proof. intros H. destruct o; simpl; auto. Qed.


Ltac peel_block blk :=
  match goal with
  | |- context [?g (blk ?d ?v)] =>
      let E := fresh in
      assert (E : g (blk d v) = g v)
        by (unfold blk, store_paints, assign; repeat case_match; reflexivity);
      rewrite E; clear E
  end.

Ltac peel :=
  repeat first
    [ peel_block restore_effects | peel_block restore_cornerRadius
    | peel_block restore_strokeWeight | peel_block restore_strokes
    | peel_block restore_fills | peel_block restore_opacity ].

(** A restored paint list reads back as it was captured. *)
Lemma restore_paint_list (target : option (mixed (list Paint)))
    (source : option (mixed (list Paint))) (store : list Paint -> VisualProps -> VisualProps)
    (get : VisualProps -> option (mixed (list Paint))) (geo : VisualProps) :
  paints_restorable_onto target source = true ->
  get geo = target ->
  (forall r g, get (store r g) = Some (Value r)) ->
  List.map serializePaint <$>
    (get (match List.map serializePaint <$> (source ≫= unmixed) with
          | Some fs =>
              if is_some (get geo) then store_paints (restorePaints fs) store geo else geo
          | None => geo
          end) ≫= unmixed)
  = List.map serializePaint <$> (source ≫= unmixed).
Proof.
  intros Hok Hget Hstore. unfold paints_restorable_onto in Hok.
  destruct source as [[|l]|].
  - simpl in *. rewrite Hget. by destruct (target ≫= unmixed).
  - apply andb_true_iff in Hok as [Hall Hl].
    destruct (restorePaints_serialize l Hall) as [Hmap Hlen].
    change (List.map serializePaint <$> (Some (Value l) ≫= unmixed))
      with (Some (List.map serializePaint l)).
    cbv beta iota. rewrite Hget.
    destruct (restorePaints (List.map serializePaint l)) as [|r rs] eqn:Hr.
    + destruct l; [|done]. destruct target as [[|[|]]|]; try done.
      simpl. by rewrite Hget.
    + destruct l as [|q l]; [done|]. destruct target as [tg|]; [|done].
      cbn [is_some store_paints]. rewrite Hstore.
      change (Some (List.map serializePaint (r :: rs))
              = Some (List.map serializePaint (q :: l))).
      by rewrite Hmap.
  - simpl in *. rewrite Hget. by destruct (target ≫= unmixed).
Qed.

Lemma visual_roundtrip (tv : VisualProps) (p : NodeProps) :
  visual_restorable_onto tv (visual p) = true ->
  let D := serializeProps p in
  let V := restore_effects D (restore_cornerRadius D (restore_strokeWeight D
             (restore_strokes D (restore_fills D (restore_opacity D tv))))) in
  List.map serializePaint <$> (fills V ≫= unmixed) = Serialized.fills D /\
  List.map serializePaint <$> (strokes V ≫= unmixed) = Serialized.strokes D /\
  strokeWeight V = Serialized.strokeWeight D /\
  cornerRadius V ≫= unmixed = Serialized.cornerRadius D /\
  List.map serializeEffect <$> (effects V ≫= unmixed) = Serialized.effects D /\
  match opacity V with
  | Some o => when (negb (o =? 1)%Z) (Some o)
  | None => None
  end = Serialized.opacity D.
Proof.
  unfold visual_restorable_onto. intros H.
  repeat (apply andb_true_iff in H as [H ?]).
  set (D := serializeProps p). repeat split; peel.
  - unfold restore_fills.
    change (Serialized.fills D) with (List.map serializePaint <$> (fills (visual p) ≫= unmixed)).
    apply (restore_paint_list (fills tv)); [done| |done]. by peel.
  - unfold restore_strokes.
    change (Serialized.strokes D) with (List.map serializePaint <$> (strokes (visual p) ≫= unmixed)).
    apply (restore_paint_list (strokes tv)); [done| |done]. by peel.
  - unfold restore_strokeWeight. peel.
    change (Serialized.strokeWeight D) with (strokeWeight (visual p)).
    unfold present_onto in *.
    destruct (strokeWeight (visual p)), (strokeWeight tv) eqn:E; simpl; try done.
    by peel.
  - unfold restore_cornerRadius. peel.
    change (Serialized.cornerRadius D) with (cornerRadius (visual p) ≫= unmixed).
    unfold unmixed_onto in *.
    destruct (cornerRadius (visual p)) as [[|]|], (cornerRadius tv) as [[|]|] eqn:E;
      simpl; try done; peel; by rewrite E.
  - unfold restore_effects.
    change (Serialized.effects D)
      with (List.map serializeEffect <$> (effects (visual p) ≫= unmixed)).
    destruct (effects (visual p)) as [[|l]|]; simpl.
    + peel. by destruct (effects tv ≫= unmixed).
    + apply andb_true_iff in H1 as [Hall Hs]. peel.
      destruct (effects tv); [|done]. simpl.
      by rewrite restoreEffects_serialize.
    + peel. by destruct (effects tv ≫= unmixed).
  - unfold restore_opacity.
    change (Serialized.opacity D)
      with (match opacity (visual p) with
            | Some o => when (negb (o =? 1)%Z) (Some o)
            | None => None
            end).
    destruct (opacity (visual p)) as [o|]; simpl.
    + destruct (o =? 1)%Z eqn:Ho; simpl.
      * apply bool_decide_eq_true in H0. by rewrite H0.
      * by rewrite Ho.
    + apply bool_decide_eq_true in H0. by rewrite H0.
Qed.

Lemma layout_roundtrip (lt : LayoutProps) (p : NodeProps) :
  negb (rotation (layout p) =? 0)%Z || (rotation lt =? 0)%Z = true ->
  let D := serializeProps p in
  let is_frame := (type p =? "FRAME")%string in
  let auto := is_frame && negb (layoutMode (frame p) =? "NONE")%string in
  let X := restore_layout_child D (restore_position D lt) in
  let L := if is_frame then restore_size D (restore_layoutSizing D X) else X in
  x L = x (layout p) /\ y L = y (layout p) /\
  width L = width (layout p) /\ height L = height (layout p) /\
  when (negb (rotation L =? 0)%Z) (Some (rotation L)) = Serialized.rotation D /\
  when is_frame (Some (layoutPositioning L)) = Serialized.layoutPositioning D /\
  when auto (Some (layoutSizingHorizontal L)) = Serialized.layoutSizingHorizontal D /\
  when auto (Some (layoutSizingVertical L)) = Serialized.layoutSizingVertical D.
Proof.
  intros Hrot D is_frame auto X L.
  subst L X auto D.
  unfold restore_layout_child, restore_layoutSizing, restore_position,
    restore_size, assign.
  cbn [serializeProps Serialized.x Serialized.y Serialized.width Serialized.height
       Serialized.rotation Serialized.layoutPositioning
       Serialized.layoutSizingHorizontal Serialized.layoutSizingVertical].
  subst is_frame.
  destruct (type p =? "FRAME")%string;
  destruct (layoutMode (frame p) =? "NONE")%string;
  destruct (rotation (layout p) =? 0)%Z eqn:Hr; simpl in *;
  rewrite ?Hr, ?Hrot; simpl; repeat split; reflexivity.
Qed.

Lemma frame_roundtrip (ft : FrameProps) (p : NodeProps) :
  type p = "FRAME" ->
  negb (layoutMode (frame p) =? "")%string = true ->
  let D := serializeProps p in
  let F := assign (Serialized.clipsContent D) set_clipsContent (restore_frame_props D ft) in
  layoutMode F = layoutMode (frame p) /\
  clipsContent F = clipsContent (frame p) /\
  ((layoutMode (frame p) =? "NONE")%string = false ->
   itemSpacing F = itemSpacing (frame p) /\
   paddingTop F = paddingTop (frame p) /\
   paddingRight F = paddingRight (frame p) /\
   paddingBottom F = paddingBottom (frame p) /\
   paddingLeft F = paddingLeft (frame p) /\
   primaryAxisAlignItems F = primaryAxisAlignItems (frame p) /\
   counterAxisAlignItems F = counterAxisAlignItems (frame p) /\
   primaryAxisSizingMode F = primaryAxisSizingMode (frame p) /\
   counterAxisSizingMode F = counterAxisSizingMode (frame p)).
Proof.
  intros Hty Hlm D F. subst F D.
  unfold restore_frame_props, auto_layout_enabled, truthy_string, assign.
  cbn [serializeProps Serialized.layoutMode Serialized.clipsContent
       Serialized.itemSpacing Serialized.paddingTop Serialized.paddingRight
       Serialized.paddingBottom Serialized.paddingLeft
       Serialized.primaryAxisAlignItems Serialized.counterAxisAlignItems
       Serialized.primaryAxisSizingMode Serialized.counterAxisSizingMode].
  rewrite Hty. cbn [String.eqb Ascii.eqb Bool.eqb andb when]. rewrite Hlm.
  destruct (layoutMode (frame p) =? "NONE")%string eqn:Hnone.
  - apply String.eqb_eq in Hnone. rewrite Hnone.
    rewrite bool_decide_eq_true_2 by done. simpl. done.
  - rewrite bool_decide_eq_false_2.
    2:{ intros [= E]. rewrite E in Hnone. discriminate. }
    simpl. done.
Qed.

Lemma text_roundtrip h (tt : TextProps) (p : NodeProps) :
  type p = "TEXT" ->
  text_restorable_onto h tt (text p) = true ->
  let D := serializeProps p in
  let T := restore_text_props h D tt in
  characters T = characters (text p) /\
  unmixed (fontSize T) = unmixed (fontSize (text p)) /\
  unmixed (fontName T) = unmixed (fontName (text p)) /\
  textAlignHorizontal T = textAlignHorizontal (text p) /\
  textAlignVertical T = textAlignVertical (text p) /\
  textAutoResize T = textAutoResize (text p) /\
  unmixed (lineHeight T) = unmixed (lineHeight (text p)) /\
  unmixed (letterSpacing T) = unmixed (letterSpacing (text p)).
Proof.
  intros Hty H D T. subst T D. unfold text_restorable_onto in H.
  repeat (apply andb_true_iff in H as [H ?]).
  unfold restore_text_props, assign.
  cbn [serializeProps Serialized.characters Serialized.fontSize Serialized.fontName
       Serialized.textAlignHorizontal Serialized.textAlignVertical
       Serialized.textAutoResize Serialized.lineHeight Serialized.letterSpacing
       Serialized.textCase Serialized.textDecoration].
  rewrite Hty. cbn [String.eqb Ascii.eqb Bool.eqb andb when].
  unfold text_unmixed_onto in *.
  destruct (fontSize (text p)) eqn:E1, (fontName (text p)) eqn:E2,
    (lineHeight (text p)) eqn:E3, (letterSpacing (text p)) eqn:E4;
    cbn [unmixed]; rewrite ?H2; cbn;
    repeat split; try reflexivity;
    repeat match goal with
           | Hx : negb (is_some (unmixed ?m)) = true |- _ =>
               destruct m; [clear Hx | discriminate Hx]
           end; reflexivity.
Qed.

Lemma restore_roundtrip_props h t p :
  restorable_onto h t p = true ->
  serializeProps (restoreNodeProperties h t (serializeProps p))
  = Serialized.set_id (id t) (serializeProps p).
Proof.
  unfold restorable_onto.
  intros H. repeat (apply andb_true_iff in H as [H ?]).
  apply String.eqb_eq in H.
  rename H6 into Hname, H5 into Hrot, H4 into Hvis, H3 into Hlock, H2 into Hvisual,
    H1 into Hframe, H0 into Htext.
  pose proof (visual_roundtrip (visual t) p Hvisual) as Hv. cbv zeta in Hv.
  pose proof (layout_roundtrip (layout t) p Hrot) as Hl. cbv zeta in Hl.
  set (D := serializeProps p) in *.
  destruct (restoreNodeProperties_slices h t D)
    as (Ei & Et & En & Ev & El & Ela & Evi & Ef & Etx).
  set (R := restoreNodeProperties h t D) in *.
  unfold serializeProps at 1. cbv zeta.
  rewrite Ei, Et, En, Ev, El, Ela, Evi, Ef, Etx.
  clearbody R. clear R Ei Et En Ev El Ela Evi Ef Etx.
  rewrite H. cbv zeta.
  destruct Hv as (Hv1 & Hv2 & Hv3 & Hv4 & Hv5 & Hv6).
  destruct Hl as (Hl1 & Hl2 & Hl3 & Hl4 & Hl5 & Hl6 & Hl7 & Hl8).
  rewrite Hv1, Hv2, Hv3, Hv4, Hv5, Hv6, Hl1, Hl2, Hl3, Hl4, Hl5, Hl6.
  clear Hv1 Hv2 Hv3 Hv4 Hv5 Hv6 Hl1 Hl2 Hl3 Hl4 Hl5 Hl6.
  (* name, visible, locked *)
  assert (Hn : name (restore_name D t) = name p).
  { unfold restore_name. subst D. cbn [serializeProps Serialized.name].
    destruct (name p =? "")%string; simpl in *; [by apply String.eqb_eq in Hname|done]. }
  assert (Hvl : visible (restore_visibility D t) = visible p
                /\ locked (restore_visibility D t) = locked p).
  { unfold restore_visibility. subst D.
    cbn [serializeProps Serialized.visible Serialized.locked].
    destruct (visible p), (locked p), (visible t) eqn:E1, (locked t) eqn:E2;
      simpl in *; done. }
  destruct Hvl as [Hvv Hll]. rewrite Hn, Hvv, Hll. clear Hn Hvv Hll.
  (* the FRAME block *)
  destruct (type p =? "FRAME")%string eqn:HF.
  - apply String.eqb_eq in HF. simpl in Hframe.
    destruct (frame_roundtrip (frame t) p HF Hframe) as (Hf1 & Hf2 & Hf3).
    cbv zeta in Hf1, Hf2, Hf3. fold D in Hf1, Hf2, Hf3.
    cbn [andb] in Hl7, Hl8.
    rewrite Hf1, Hf2. cbn [andb].
    assert (HT : (type p =? "TEXT")%string = false) by (by rewrite HF).
    rewrite HT. rewrite Hl7, Hl8.
    destruct (layoutMode (frame p) =? "NONE")%string eqn:HN.
    + subst D. unfold Serialized.set_id. cbn [serializeProps]. cbn.
      rewrite HF, HN. reflexivity.
    + destruct (Hf3 eq_refl) as (E1 & E2 & E3 & E4 & E5 & E6 & E7 & E8 & E9).
      rewrite E1, E2, E3, E4, E5, E6, E7, E8, E9.
      subst D. unfold Serialized.set_id. cbn [serializeProps]. cbn.
      rewrite HF, HN. reflexivity.
  - destruct (type p =? "TEXT")%string eqn:HT.
    + apply String.eqb_eq in HT. simpl in Htext.
      destruct (text_roundtrip h (text t) p HT Htext)
        as (Ht1 & Ht2 & Ht3 & Ht4 & Ht5 & Ht6 & Ht7 & Ht8).
      cbv zeta in Ht1, Ht2, Ht3, Ht4, Ht5, Ht6, Ht7, Ht8.
      fold D in Ht1, Ht2, Ht3, Ht4, Ht5, Ht6, Ht7, Ht8.
      rewrite Ht1, Ht2, Ht3, Ht4, Ht5, Ht6, Ht7, Ht8.
      subst D. unfold Serialized.set_id. cbn [serializeProps]. cbn.
      rewrite HT. reflexivity.
    + subst D. unfold Serialized.set_id. cbn [serializeProps]. cbn.
      rewrite HF, HT. reflexivity.
Qed.

(** Induction on a scene tree, with the hypothesis for every child. *)
Lemma SceneNode_tree_ind (P : SceneNode -> Prop) :
  (forall p, P (mkNode p None)) ->
  (forall p cs, Forall P cs -> P (mkNode p (Some cs))) ->
  forall n, P n.
Proof.
  intros Hleaf Hnode.
  fix IH 1. intros [p [cs|]]; [|apply Hleaf].
  apply Hnode. induction cs as [|c cs IHcs]; constructor; [apply IH|apply IHcs].
Qed.

Lemma restorable_onto_set_id h i t p :
  restorable_onto h (set_id i t) p = restorable_onto h t p.
Proof. reflexivity. Qed.

(** The inner loop of rebuildNode's FRAME case is rebuildChildren. *)
Lemma rebuildNode_frame h d cs next :
  Serialized.type d = "FRAME" ->
  rebuildNode h (Serialized.mk d (Some cs)) next
  = let '(kids, next') := rebuildChildren h cs (S next) in
    (mkNode (restoreNodeProperties h (createFrame h next) d) (Some kids), next').
Proof.
  intros Hty. simpl. rewrite Hty. simpl.
  assert (E : forall l nx,
    (fix rebuildChildren (l : list SerializedNode) (nx : nat) {struct l}
       : list SceneNode * nat :=
       match l with
       | [] => ([], nx)
       | childData :: l' =>
           let '(child, nx1) := rebuildNode h childData nx in
           let '(rest, nx2) := rebuildChildren l' nx1 in (child :: rest, nx2)
       end) l nx = rebuildChildren h l nx).
  { induction l as [|c l IHl]; intros nx; simpl; [done|].
    destruct (rebuildNode h c nx) as [child nx1]. by rewrite IHl. }
  by rewrite E.
Qed.

Lemma anonymous_set_id i d :
  Serialized.set_id "" (Serialized.set_id i d) = Serialized.set_id "" d.
Proof. reflexivity. Qed.

(** One rebuilt leaf or frame head: the captured properties come back. *)
Lemma rebuilt_props h t p :
  restorable_onto h t p = true ->
  Serialized.set_id "" (serializeProps (restoreNodeProperties h t (serializeProps p)))
  = Serialized.set_id "" (serializeProps p).
Proof. intros H. by rewrite restore_roundtrip_props. Qed.

Lemma rebuildChildren_roundtrip h (cs : list SceneNode) maxDepth cur :
  Forall (fun n => restorable h n = true ->
            forall D c next,
              Serialized.anonymous
                (serializeNode (fst (rebuildNode h (serializeNode n D c) next)) D c)
              = Serialized.anonymous (serializeNode n D c)) cs ->
  forallb (restorable h) cs = true ->
  forall next,
    List.map Serialized.anonymous
      (List.map (fun k => serializeNode k maxDepth cur)
         (fst (rebuildChildren h
                 (List.map (fun ch => serializeNode ch maxDepth cur) cs) next)))
    = List.map Serialized.anonymous
        (List.map (fun ch => serializeNode ch maxDepth cur) cs).
Proof.
  induction 1 as [|n cs Hn Hcs IH]; intros Hall next; [done|].
  simpl in Hall. apply andb_true_iff in Hall as [Hr Hrs].
  cbn [List.map rebuildChildren].
  specialize (Hn Hr maxDepth cur next).
  destruct (rebuildNode h (serializeNode n maxDepth cur) next) as [child nx1].
  specialize (IH Hrs nx1).
  destruct (rebuildChildren h _ nx1) as [rest nx2].
  cbn [fst List.map] in *. by rewrite Hn, IH.
Qed.

Lemma rebuild_roundtrip h n :
  restorable h n = true ->
  forall maxDepth cur next,
    Serialized.anonymous
      (serializeNode (fst (rebuildNode h (serializeNode n maxDepth cur) next)) maxDepth cur)
    = Serialized.anonymous (serializeNode n maxDepth cur).
Proof.
  induction n as [p|p cs IH] using SceneNode_tree_ind; intros Hr D c next.
  - (* a node without children *)
    simpl in Hr. simpl.
    destruct (type p =? "FRAME")%string; [by rewrite andb_false_r in Hr|].
    destruct (type p =? "TEXT")%string;
      [apply andb_true_iff in Hr as [Hr _]; simpl; f_equal; by apply rebuilt_props|].
    destruct (type p =? "RECTANGLE")%string;
      [apply andb_true_iff in Hr as [Hr _]; simpl; f_equal; by apply rebuilt_props|].
    destruct (type p =? "ELLIPSE")%string; [|done].
    apply andb_true_iff in Hr as [Hr _]; simpl; f_equal; by apply rebuilt_props.
  - (* a node with children: a frame *)
    simpl in Hr.
    destruct (type p =? "FRAME")%string eqn:HF.
    2:{ repeat (destruct (_ =? _)%string; [by rewrite andb_false_r in Hr|]). done. }
    apply andb_true_iff in Hr as [Hr Hcs]. apply String.eqb_eq in HF.
    cbn [serializeNode].
    destruct (c <? D)%nat eqn:Hd.
    + rewrite rebuildNode_frame by done.
      pose proof (rebuildChildren_roundtrip h cs D (S c) IH Hcs (S next)) as Hkids.
      destruct (rebuildChildren h _ (S next)) as [kids nx].
      cbn [fst serializeNode Serialized.anonymous] in *. rewrite Hd.
      cbn [fmap option_fmap option_map]. f_equal; [by apply rebuilt_props|].
      f_equal. exact Hkids.
    + cbn [rebuildNode serializeProps Serialized.type]. rewrite HF.
      cbn [String.eqb Ascii.eqb Bool.eqb fst serializeNode]. rewrite Hd.
      cbn [Serialized.anonymous fmap option_fmap option_map]. f_equal.
      by apply rebuilt_props.
Qed.

Lemma find_app {A} (f : A -> bool) (l1 l2 : list A) :
  List.find f (l1 ++ l2)
  = match List.find f l1 with Some a => Some a | None => List.find f l2 end.
Proof. induction l1 as [|a l1 IH]; simpl; [done|]. by destruct (f a). Qed.

(** After the node named [i] is replaced by [r], itself named [i], looking
    [i] up finds [r]. *)
Lemma find_update_node i r n :
  id (props r) = i ->
  List.find (has_id i) (subtree (update_node i (fun _ => r) n))
  = if is_some (List.find (has_id i) (subtree n)) then Some r else None.
Proof.
  intros Hr.
  assert (Hroot : List.find (has_id i) (subtree r) = Some r).
  { destruct r as [rp rch]. simpl in *. unfold has_id at 1. simpl.
    by rewrite Hr, String.eqb_refl. }
  induction n as [p|p cs IH] using SceneNode_tree_ind.
  - simpl. unfold has_id at 2. simpl.
    destruct (id p =? i)%string eqn:E; [done|].
    simpl. unfold has_id. simpl. by rewrite E.
  - simpl. unfold has_id at 2. simpl.
    destruct (id p =? i)%string eqn:E; [done|].
    simpl. unfold has_id at 1. simpl. rewrite E.
    induction IH as [|c cs Hc Hcs IHcs]; simpl; [done|].
    rewrite !find_app, Hc, IHcs.
    by destruct (List.find (has_id i) (subtree c)).
Qed.

Lemma getNodeById_update (doc : Document) i r next :
  id (props r) = i ->
  is_some (getNodeById doc i) = true ->
  getNodeById {| page := update_forest i (fun _ => r) (page doc); created := next |} i
  = Some r.
Proof.
  intros Hr. unfold getNodeById, forest_nodes, update_forest. simpl.
  fold (has_id i).
  induction (page doc) as [|n f IH]; simpl; [done|].
  rewrite !find_app, find_update_node by done.
  destruct (List.find (has_id i) (subtree n)); simpl; [done|exact IH].
Qed.

Lemma getNodeById_id doc i n : getNodeById doc i = Some n -> id (props n) = i.
Proof.
  unfold getNodeById. intros H. apply List.find_some in H as [_ H].
  by apply String.eqb_eq in H.
Qed.




(** C9 (as amended).  For a snapshot of any other kind, rebuildNode returns
    without failing one new RECTANGLE without children, named
    "[<kind>] <name>", placed at the recorded x and y (0 when absent) and
    sized to the recorded width and height, where a width or height that is
    absent or 0 is replaced by 100. *)
Theorem rebuildNode_placeholder h (data : SerializedNode) (next : nat) :
  supported_kind (Serialized.type (Serialized.props data)) = false ->
  let d := Serialized.props data in
  exists placeholder,
    rebuildNode h data next = (mkNode placeholder None, S next) /\
    type placeholder = "RECTANGLE" /\
    id placeholder = node_id next /\
    name placeholder = "[" +:+ Serialized.type d +:+ "] " +:+ Serialized.name d /\
    x (layout placeholder) = default 0%Z (Serialized.x d) /\
    y (layout placeholder) = default 0%Z (Serialized.y d) /\
    width (layout placeholder) = or_default (Serialized.width d) 100 /\
    height (layout placeholder) = or_default (Serialized.height d) 100.
Proof.
  destruct data as [d ch]. unfold supported_kind. cbn [Serialized.props].
  intros Hk. cbv zeta.
  apply orb_false_iff in Hk as [Hk He]. apply orb_false_iff in Hk as [Hk Hr].
  apply orb_false_iff in Hk as [Hf Ht].
  eexists. split.
  - cbn [rebuildNode]. rewrite Hf, Ht, Hr, He. reflexivity.
  - cbn. repeat split; try reflexivity.
    + unfold or_default. destruct (Serialized.x d) as [v|]; [|done].
      simpl. destruct (Z.eqb_spec v 0); congruence.
    + unfold or_default. destruct (Serialized.y d) as [v|]; [|done].
      simpl. destruct (Z.eqb_spec v 0); congruence.
Qed.

Lemma rebuildNode_placeholder_witness :
  exists placeholder,
    rebuildNode sample_host sample_line 7 = (mkNode placeholder None, 8) /\
    type placeholder = "RECTANGLE" /\
    id placeholder = node_id 7 /\
    name placeholder = "[LINE] Rule" /\
    x (layout placeholder) = 40%Z /\
    y (layout placeholder) = 300%Z /\
    width (layout placeholder) = 200%Z /\
    height (layout placeholder) = 100%Z.
Proof.
  apply (rebuildNode_placeholder sample_host sample_line 7). reflexivity.
Defined.

(** C9 as stated fails: a LINE is recorded with height 0, and its
    placeholder is 100 high. *)
Lemma rebuildNode_placeholder_not_recorded_size :
  Serialized.height (Serialized.props sample_line) = Some 0%Z /\
  height (layout (props (fst (rebuildNode sample_host sample_line 7)))) = 100%Z.
Proof. split; reflexivity. Qed.

(** *** handleBatchOperations *)

Lemma passes_run h pre : forall doc vars rs doc1 vars1 rs1 rest,
  passes h pre doc vars rs = Some (doc1, vars1, rs1) ->
  run_operations h (pre ++ rest) doc vars rs = run_operations h rest doc1 vars1 rs1.
Proof.
  induction pre as [|o pre IH]; intros doc vars rs doc1 vars1 rs1 rest H; simpl in *.
  - by inversion H.
  - destruct (exec_op h o doc vars); try done; by apply IH.
Qed.

Lemma passes_length h pre : forall doc vars rs doc1 vars1 rs1,
  passes h pre doc vars rs = Some (doc1, vars1, rs1) ->
  exists added, rs1 = rs ++ added /\ length added = length pre.
Proof.
  induction pre as [|o pre IH]; intros doc vars rs doc1 vars1 rs1 H; simpl in *.
  - inversion H; subst. exists []. by rewrite app_nil_r.
  - destruct (exec_op h o doc vars) eqn:E; try done;
      destruct (IH _ _ _ _ _ _ H) as (added & -> & Hl);
      eexists (_ :: added); rewrite <- app_assoc; simpl; split; try done; by rewrite Hl.
Qed.

Lemma caught_inv doc o m doc2 entry :
  caught doc o m = Failed doc2 entry ->
  doc2 = doc /\ entry = {| result_op := Operation.op o; result_variable := Operation.variable o;
                          result_nodeId := None; success := false; error := Some m |}.
Proof. unfold caught. by inversion 1. Qed.

Lemma failure_entry_caught doc o m doc2 entry :
  caught doc o m = Failed doc2 entry -> failure_entry o entry /\ doc2 = doc.
Proof. intros [-> ->]%caught_inv. repeat split; eauto. Qed.

Lemma with_target_failed o doc vars k doc2 entry :
  with_target o doc vars k = Failed doc2 entry ->
  (failure_entry o entry /\ doc2 = doc) \/
  exists i node, k i node = Failed doc2 entry.
Proof.
  unfold with_target. intros H.
  repeat case_match; eauto using failure_entry_caught.
Qed.

Lemma exec_op_failed_entry h o doc vars doc2 entry :
  exec_op h o doc vars = Failed doc2 entry -> failure_entry o entry.
Proof.
  unfold exec_op, create_shape, create_text, with_target. intros H.
  repeat case_match; try done; by apply failure_entry_caught in H as [? _].
Qed.

Lemma exec_op_failed_doc h o doc vars doc2 entry :
  exec_op h o doc vars = Failed doc2 entry ->
  throws_before_storing (Operation.op o) = true -> doc2 = doc.
Proof.
  unfold exec_op, with_target. intros H Hk.
  repeat match type of H with
  | (if String.eqb ?a ?b then _ else _) = _ =>
      let Hk := fresh "Hk" in destruct (String.eqb_spec a b) as [Hk|Hk]
  end;
  try (match goal with Hk : Operation.op o = _ |- _ => rewrite Hk in * end; done);
  repeat case_match; try done; by apply failure_entry_caught in H as [_ ?].
Qed.

Lemma exec_op_applied h o doc vars doc' vars' e :
  exec_op h o doc vars = Applied doc' vars' e ->
  result_op e = Operation.op o /\ success e = true /\ error e = None /\
  known_kind (Operation.op o) = true.
Proof.
  unfold exec_op, create_shape, create_text, with_target, caught. intros H.
  repeat match type of H with
  | (if String.eqb ?a ?b then _ else _) = _ =>
      let Hk := fresh "Hk" in destruct (String.eqb_spec a b) as [Hk|Hk]
  end; [..|done];
  match goal with Hk : Operation.op o = _ |- _ => rewrite Hk end;
  repeat case_match; try done; inversion H; subst; done.
Qed.

Lemma exec_op_unknown h o doc vars e :
  exec_op h o doc vars = Unknown e ->
  result_op e = Operation.op o /\ success e = false /\
  error e = Some ("Unknown operation: " +:+ Operation.op o) /\
  known_kind (Operation.op o) = false.
Proof.
  unfold exec_op, create_shape, create_text, with_target, caught. intros H.
  repeat match type of H with
  | (if String.eqb ?a ?b then _ else _) = _ =>
      let Hk := fresh "Hk" in destruct (String.eqb_spec a b) as [Hk|Hk]
  end; try (repeat case_match; done).
  inversion H; subst; simpl. repeat split.
  unfold known_kind. apply bool_decide_eq_false. intros Hin.
  repeat (apply elem_of_cons in Hin as [?|Hin]; [congruence|]).
  by apply elem_of_nil in Hin.
Qed.

Lemma passes_flags h pre : forall doc vars rs doc1 vars1 rs1,
  passes h pre doc vars rs = Some (doc1, vars1, rs1) ->
  exists added, rs1 = rs ++ added /\
    Forall2 (fun o e => result_op e = Operation.op o /\
                        success e = known_kind (Operation.op o)) pre added.
Proof.
  induction pre as [|o pre IH]; intros doc vars rs doc1 vars1 rs1 H; simpl in *.
  - inversion H; subst. exists []. by rewrite app_nil_r.
  - destruct (exec_op h o doc vars) eqn:E; try done;
      destruct (IH _ _ _ _ _ _ H) as (added & -> & Hl);
      eexists (_ :: added); rewrite <- app_assoc; simpl; (split; [done|]);
      constructor; try done.
    + apply exec_op_applied in E as (? & ? & ? & ?). split; congruence.
    + apply exec_op_unknown in E as (? & ? & ? & ?). split; congruence.
Qed.

Lemma filter_snoc_failure (rs : list OpResult) e :
  success e = false ->
  List.filter (fun r => negb (success r)) (rs ++ [e])
  = List.filter (fun r => negb (success r)) rs ++ [e].
Proof. intros H. rewrite List.filter_app. simpl. by rewrite H. Qed.




(** *** Coverage of a snapshot *)

Lemma list_sum_map_ext {A} (f g : A -> nat) l :
  Forall (fun a => f a = g a) l -> list_sum (List.map f l) = list_sum (List.map g l).
Proof. induction 1; simpl; congruence. Qed.

Lemma list_max_map_le {A} (f : A -> nat) l a : In a l -> f a <= list_max (List.map f l).
Proof.
  induction l as [|b l IH]; simpl; [done|]. intros [->|H]; [lia|]. specialize (IH H). lia.
Qed.

Lemma serializeNode_holds_every_node_within_depth (node : SceneNode)
    (maxDepth currentDepth : nat) :
  currentDepth + depth node <= maxDepth ->
  countNodes (serializeNode node maxDepth currentDepth) = node_count node.
Proof.
  revert currentDepth.
  induction node as [p|p cs IH] using SceneNode_tree_ind; intros cur Hd; [done|].
  simpl. destruct cs as [|c cs'] eqn:Ecs.
  { by destruct (cur <? maxDepth)%nat. }
  rewrite <- Ecs in *.
  assert (Hlt : (cur <? maxDepth)%nat = true).
  { apply Nat.ltb_lt. simpl in Hd.
    pose proof (list_max_map_le (fun c => S (depth c)) cs c) as Hc.
    rewrite Ecs in Hc at 1. specialize (Hc (or_introl eq_refl)). cbv beta in Hc. lia. }
  rewrite Hlt. f_equal. rewrite List.map_map.
  apply list_sum_map_ext. rewrite List.Forall_forall in IH |- *.
  intros k Hk. apply IH; [done|]. simpl in Hd.
  pose proof (list_max_map_le (fun c => S (depth c)) cs k Hk) as Hc.
  cbv beta in Hc. lia.
Qed.

(** X3. serialize_frame on a frame whose nesting depth is at most 10: the snapshot
    has as many nodes as the frame's subtree, none is left out. *)
Theorem handleSerializeFrame_complete_up_to_ten_levels (doc : Document) (frameId : string)
    (node : SceneNode) :
  getNodeById doc frameId = Some node ->
  depth node <= 10 ->
  exists snapshot,
    handleSerializeFrame doc frameId = Ok snapshot /\
    countNodes snapshot = node_count node.
Proof.
  intros Hn Hd. unfold handleSerializeFrame. rewrite Hn. eexists. split; [done|].
  by apply serializeNode_holds_every_node_within_depth.
Qed.

Lemma handleSerializeFrame_complete_up_to_ten_levels_witness :
  exists snapshot,
    handleSerializeFrame {| page := [nested 10]; created := 11 |} "1:0" = Ok snapshot /\
    countNodes snapshot = node_count (nested 10).
Proof.
  apply (handleSerializeFrame_complete_up_to_ten_levels
           {| page := [nested 10]; created := 11 |} "1:0" (nested 10)).
  - vm_compute. reflexivity.
  - vm_compute. lia.
Defined.

(** *** restorePaint *)


(** *** The ids of a rebuilt subtree *)

Lemma Serialized_tree_ind (P : SerializedNode -> Prop) :
  (forall d, P (Serialized.mk d None)) ->
  (forall d cs, Forall P cs -> P (Serialized.mk d (Some cs))) ->
  forall n, P n.
Proof.
  intros Hleaf Hnode.
  fix IH 1. intros [d [cs|]]; [|apply Hleaf].
  apply Hnode. induction cs as [|c cs IHcs]; constructor; [apply IH|apply IHcs].
Qed.

Lemma id_restoreNodeProperties h t d : id (restoreNodeProperties h t d) = id t.
Proof. by destruct (restoreNodeProperties_slices h t d) as [? _]. Qed.

Lemma rebuildChildren_fresh_ids h cs :
  Forall (fun data => forall next,
            fresh_ids (rebuildNode h data next).1 next (rebuildNode h data next).2 data) cs ->
  forall next,
    let kids := (rebuildChildren h cs next).1 in
    (rebuildChildren h cs next).2 = next + list_sum (List.map node_count kids) /\
    List.map (fun k => id (props k)) (List.concat (List.map subtree kids))
    = List.map node_id (seq next (list_sum (List.map node_count kids))) /\
    list_sum (List.map node_count kids) <= list_sum (List.map countNodes cs).
Proof.
  induction 1 as [|data cs Hd _ IH]; intros next; simpl.
  - split; [lia|done].
  - specialize (Hd next). destruct (rebuildNode h data next) as [child nx1].
    specialize (IH nx1). destruct (rebuildChildren h cs nx1) as [rest nx2].
    simpl in *. destruct Hd as (-> & Hids & Hle). destruct IH as (-> & Hrest & Hle').
    split; [lia|]. split; [|lia].
    rewrite List.map_app, Hrest, seq_app, List.map_app. f_equal. exact Hids.
Qed.

Lemma ids_leaf p : ids (mkNode p None) = [id p].
Proof. reflexivity. Qed.

Lemma ids_empty p : ids (mkNode p (Some [])) = [id p].
Proof. reflexivity. Qed.

(** X5. rebuildNode, for any snapshot and any state of the creation counter: the
    counter advances by the number of nodes created, these nodes carry the
    consecutive ids from the counter on, in document order, and they are no
    more than the snapshot holds (the children of a snapshot that is not a
    FRAME are not rebuilt). *)
Theorem rebuildNode_assigns_fresh_consecutive_ids (h : Host) (data : SerializedNode)
    (next : nat) :
  let '(node, next') := rebuildNode h data next in
  next' = next + node_count node /\
  ids node = List.map node_id (seq next (node_count node)) /\
  node_count node <= countNodes data.
Proof.
  change (let '(node, next') := rebuildNode h data next in fresh_ids node next next' data).
  revert next. induction data as [d|d cs IH] using Serialized_tree_ind; intros next.
  - simpl. repeat case_match; simplify_eq; unfold fresh_ids; simpl;
      (split; [lia|]); (split; [|lia]);
      rewrite ?ids_leaf, ?ids_empty, ?id_restoreNodeProperties; reflexivity.
  - destruct (String.eqb_spec (Serialized.type d) "FRAME") as [Hf|Hf].
    + rewrite rebuildNode_frame by done.
      assert (IH' : Forall (fun data => forall next,
                fresh_ids (rebuildNode h data next).1 next (rebuildNode h data next).2 data) cs).
      { eapply Forall_impl; [exact IH|]. intros c Hc nx. specialize (Hc nx).
        by destruct (rebuildNode h c nx). }
      pose proof (rebuildChildren_fresh_ids h cs IH' (S next)) as Hk.
      destruct (rebuildChildren h cs (S next)) as [kids nx]. simpl in Hk.
      destruct Hk as (-> & Hids & Hle). unfold fresh_ids. simpl.
      split; [lia|]. split; [|lia].
      unfold ids. simpl. rewrite id_restoreNodeProperties. f_equal. exact Hids.
    + apply String.eqb_neq in Hf. simpl. rewrite Hf.
      repeat case_match; simplify_eq; unfold fresh_ids; simpl;
        (split; [lia|]); (split; [|lia]);
        rewrite ?ids_leaf, ?ids_empty, ?id_restoreNodeProperties; reflexivity.
Qed.

(** *** applyNodeProperties *)

(** X6. applyNodeProperties with the empty props object leaves every node as it
    is and does not throw. *)
Theorem applyNodeProperties_empty_props (h : Host) (node : NodeProps) :
  applyNodeProperties h node Props.empty = (node, None).
Proof.
  destruct node as [i t n v l [] [] [] []].
  unfold applyNodeProperties. cbn.
  destruct (String.eqb t "FRAME"); cbn; destruct (String.eqb t "TEXT"); reflexivity.
Qed.


(** *** handleBatchUpdate *)

Lemma run_updates_app h pre : forall post doc errs,
  run_updates h (pre ++ post) doc errs
  = let '(doc1, errs1) := run_updates h pre doc errs in run_updates h post doc1 errs1.
Proof.
  induction pre as [|u pre IH]; intros post doc errs; simpl; [done|].
  destruct (getNodeById doc (update_nodeId u)); [|apply IH].
  destruct (applyNodeProperties h (props s) (properties u)). apply IH.
Qed.

Lemma run_updates_errors h updates : forall doc errs,
  exists added,
    (run_updates h updates doc errs).2 = errs ++ added /\
    length added <= length updates /\
    Forall (fun e => exists u, In u updates /\ update_nodeId u = error_nodeId e) added.
Proof.
  induction updates as [|u updates IH]; intros doc errs; simpl.
  - exists []. by rewrite app_nil_r.
  - destruct (getNodeById doc (update_nodeId u)) as [node|].
    + destruct (applyNodeProperties h (props node) (properties u)) as [node' [m|]].
      * destruct (IH (modify doc (update_nodeId u) (fun _ => node'))
                    (errs ++ [{| error_nodeId := update_nodeId u; update_error := m |}]))
          as (added & -> & Hl & Hf).
        eexists (_ :: added). rewrite <- app_assoc. split; [done|]. split; [simpl; lia|].
        constructor; [by exists u; split; [left|]|].
        eapply Forall_impl; [exact Hf|]. intros e (u' & ? & ?). exists u'. split; [by right|done].
      * destruct (IH (modify doc (update_nodeId u) (fun _ => node')) errs)
          as (added & -> & Hl & Hf).
        exists added. split; [done|]. split; [lia|].
        eapply Forall_impl; [exact Hf|]. intros e (u' & ? & ?). exists u'. split; [by right|done].
    + destruct (IH doc
                  (errs ++ [{| error_nodeId := update_nodeId u;
                               update_error := "Node not found: " +:+ update_nodeId u |}]))
        as (added & -> & Hl & Hf).
      eexists (_ :: added). rewrite <- app_assoc. split; [done|]. split; [simpl; lia|].
      constructor; [by exists u; split; [left|]|].
      eapply Forall_impl; [exact Hf|]. intros e (u' & ? & ?). exists u'. split; [by right|done].
Qed.


(** *** DELETE and TRIM *)

Lemma find_concat_none {A} (f : A -> bool) (ls : list (list A)) :
  Forall (fun l => List.find f l = None) ls -> List.find f (List.concat ls) = None.
Proof. induction 1 as [|l ls Hl _ IH]; simpl; [done|]. by rewrite find_app, Hl. Qed.

Lemma remove_node_gone i n : forall n',
  remove_node i n = Some n' -> List.find (has_id i) (subtree n') = None.
Proof.
  induction n as [p|p cs IH] using SceneNode_tree_ind; intros n'; simpl.
  - destruct (String.eqb (id p) i) eqn:E; [done|]. intros [= <-]. simpl.
    unfold has_id. simpl. by rewrite E.
  - destruct (String.eqb (id p) i) eqn:E; [done|]. intros [= <-]. simpl.
    unfold has_id at 1. simpl. rewrite E.
    apply find_concat_none. apply Forall_forall. intros l Hl.
    apply list_elem_of_In, List.in_map_iff in Hl as (k' & <- & Hk').
    apply list_elem_of_In, list_elem_of_omap in Hk' as (k & Hk & Hrem).
    rewrite Forall_forall in IH. by apply (IH k Hk).
Qed.

Lemma getNodeById_remove doc i : getNodeById (remove doc i) i = None.
Proof.
  unfold getNodeById, remove, forest_nodes, remove_from. simpl.
  apply find_concat_none. apply Forall_forall. intros l Hl.
  apply list_elem_of_In, List.in_map_iff in Hl as (k' & <- & Hk').
  apply list_elem_of_In, list_elem_of_omap in Hk' as (k & Hk & Hrem).
  by apply (remove_node_gone i k).
Qed.



(** X10. TRIM changes nothing: whether it succeeds or throws, the document and the
    bindings are as before (the export result is not used). *)
Theorem TRIM_changes_nothing (h : Host) (o : Operation.t) (doc : Document)
    (variables : list (string * string)) :
  Operation.op o = "TRIM" ->
  match exec_op h o doc variables with
  | Applied doc' variables' entry =>
      doc' = doc /\ variables' = variables /\ success entry = true
  | Failed doc' entry => doc' = doc /\ success entry = false
  | Unknown _ => False
  end.
Proof.
  intros Hop. unfold exec_op. rewrite Hop. simpl. unfold with_target, caught.
  repeat case_match; simplify_eq; simpl; repeat split; done.
Qed.

Lemma TRIM_changes_nothing_witness :
  exists entry,
    exec_op sample_host (operation "TRIM" None None (Some "1:0") None)
      {| page := [sample_ad]; created := 6 |} []
    = Applied {| page := [sample_ad]; created := 6 |} [] entry.
Proof.
  pose proof (TRIM_changes_nothing sample_host
                (operation "TRIM" None None (Some "1:0") None)
                {| page := [sample_ad]; created := 6 |} [] eq_refl) as H.
  destruct (exec_op sample_host (operation "TRIM" None None (Some "1:0") None)
              {| page := [sample_ad]; created := 6 |} []) as [doc' vars' entry| |] eqn:E;
    [|vm_compute in E; discriminate..].
  destruct H as (-> & -> & _). by exists entry.
Defined.

(** *** Scripts that pass, and what a CREATE binds *)

(** X11. A batch none of whose operations throws: every operation gets its entry,
    in order, with success true unless the switch has no case for its kind;
    with known kinds only, [errors] is empty. *)
Theorem handleBatchOperations_all_pass (h : Host) (operations : list Operation.t)
    (doc doc1 : Document) (vars1 : list (string * string)) (rs1 : list OpResult) :
  passes h operations doc [] [] = Some (doc1, vars1, rs1) ->
  handleBatchOperations h operations doc = (doc1, batch_result rs1 vars1) /\
  Forall2 (fun o e => result_op e = Operation.op o /\
                      success e = known_kind (Operation.op o)) operations rs1 /\
  (forallb (fun o => known_kind (Operation.op o)) operations = true ->
   errors (batch_result rs1 vars1) = []).
Proof.
  intros Hp.
  pose proof (passes_run h operations _ _ _ _ _ _ [] Hp) as Hrun.
  rewrite app_nil_r in Hrun. simpl in Hrun.
  pose proof (passes_flags h operations _ _ _ _ _ _ Hp) as (added & Heq & Hflags).
  simpl in Heq. subst added.
  split; [unfold handleBatchOperations; by rewrite Hrun|]. split; [done|].
  intros Hk. simpl. clear Hp Hrun.
  induction Hflags as [|o e os es [_ He] _ IH]; [done|].
  simpl in Hk. apply andb_true_iff in Hk as [Hko Hk].
  simpl. rewrite He, Hko. simpl. by apply IH.
Qed.

Lemma handleBatchOperations_all_pass_witness :
  exists doc1,
    handleBatchOperations sample_host (take 2 sample_script) empty_page
    = (doc1, batch_result
               [ {| result_op := "CREATE_FRAME"; result_variable := Some "card";
                    result_nodeId := Some "1:0"; success := true; error := None |};
                 {| result_op := "CREATE_RECT"; result_variable := Some "bg";
                    result_nodeId := Some "1:1"; success := true; error := None |} ]
               [("card", "1:0"); ("bg", "1:1")]).
Proof.
  edestruct (handleBatchOperations_all_pass sample_host (take 2 sample_script) empty_page)
    as [Hrun _].
  - vm_compute. reflexivity.
  - eexists. exact Hrun.
Defined.

Lemma assoc_map_set_same {A} k (v : A) m : JS.assoc k (JS.map_set k v m) = Some v.
Proof.
  induction m as [|[k' v'] m IH]; simpl.
  - by rewrite String.eqb_refl.
  - destruct (String.eqb k k') eqn:E; simpl; by rewrite ?String.eqb_refl, ?E.
Qed.

Lemma created_place_child doc parent child index doc' :
  place_child doc parent child index = Ok doc' -> created doc' = created doc.
Proof.
  unfold place_child. intros H. repeat case_match; simplify_eq; done.
Qed.

Lemma created_append_to_parent doc parentId child index doc' :
  append_to_parent doc parentId child index = Ok doc' -> created doc' = created doc.
Proof.
  unfold append_to_parent. intros H.
  repeat case_match; simplify_eq; try done; by eapply created_place_child.
Qed.

Lemma created_apply_props h doc i p : created (apply_props h doc i p).1 = created doc.
Proof.
  unfold apply_props. repeat case_match; simpl; try done.
Qed.

Lemma create_shape_applied h o fresh_node doc vars doc' vars' e :
  create_shape h o fresh_node doc vars = Applied doc' vars' e ->
  result_nodeId e = Some (id (props fresh_node)) /\
  created doc' = S (created doc) /\
  vars' = bind_variable o (id (props fresh_node)) vars.
Proof.
  unfold create_shape.
  destruct (resolveVarRef (Operation.parent o) vars) as [parentId|m]; [|done].
  destruct (append_to_parent _ parentId _ None) as [d1|m] eqn:Ha; [|done].
  apply created_append_to_parent in Ha.
  pose proof (created_apply_props h d1 (id (props fresh_node)) (Operation.props o)) as Hc.
  destruct (apply_props h d1 _ _) as [d2 [m|]]; [done|].
  intros [= <- <- <-]. simpl in *. repeat split. congruence.
Qed.

Lemma created_modify doc i f : created (modify doc i f) = created doc.
Proof. reflexivity. Qed.

Lemma create_text_applied h o doc vars doc' vars' e :
  create_text h o doc vars = Applied doc' vars' e ->
  result_nodeId e = Some (node_id (created doc)) /\
  created doc' = S (created doc) /\
  vars' = bind_variable o (node_id (created doc)) vars.
Proof.
  unfold create_text.
  destruct (load_text_font _ _ _) as [loaded|m]; [|done].
  match goal with |- context [let '(d, p) := ?c in let '(d', p') := @?k d p in _] =>
    destruct c as [d1 p1] eqn:E1 end.
  assert (Hc1 : created d1 = S (created doc)).
  { destruct (JS.truthy (from_option JS.Str JS.Undefined
                          (Operation.props o ≫= Props.characters)));
      inversion E1; subst; reflexivity. }
  match goal with |- context [let '(d', p') := ?c in _] =>
    destruct c as [d2 p2] eqn:E2 end.
  assert (Hc2 : created d2 = S (created doc)).
  { destruct (JS.truthy (from_option JS.Num JS.Undefined (p1 ≫= Props.fontSize)));
      inversion E2; subst; simpl; exact Hc1. }
  destruct (resolveVarRef (Operation.parent o) vars) as [parentId|m]; [|done].
  destruct (append_to_parent _ parentId _ None) as [d3|m] eqn:Ha; [|done].
  apply created_append_to_parent in Ha.
  pose proof (created_apply_props h d3 (node_id (created doc)) p2) as Hc.
  destruct (apply_props h d3 _ _) as [d4 [m|]]; [done|].
  intros [= <- <- <-]. simpl in *. repeat split. congruence.
Qed.

Lemma node_id_truthy n : String.eqb (node_id n) "" = false.
Proof. reflexivity. Qed.



End PluginProofs.

(** ** The pipeline: references *)
Module PipelineProofs.
Import JS Pipeline.

Lemma split_on_nonempty sep s : split_on sep s <> [].
Proof.
  induction s as [|c s IH]; simpl; [done|].
  destruct (Ascii.eqb c sep); [done|]. by destruct (split_on sep s).
Qed.

Lemma split_on_no_sep sep s : no_sep sep s = true -> split_on sep s = [s].
Proof.
  induction s as [|c s IH]; simpl; [done|].
  intros [Hc Hs]%andb_true_iff. apply negb_true_iff in Hc. rewrite Hc.
  by rewrite (IH Hs).
Qed.

Lemma split_on_cons sep a b :
  no_sep sep a = true ->
  split_on sep (a +:+ String sep b) = a :: split_on sep b.
Proof.
  induction a as [|c a IH]; simpl.
  - intros _. by rewrite Ascii.eqb_refl.
  - intros [Hc Hs]%andb_true_iff. apply negb_true_iff in Hc. rewrite Hc.
    by rewrite (IH Hs).
Qed.

Lemma split_on_join sep (segs : list string) :
  segs <> [] ->
  forallb (no_sep sep) segs = true ->
  split_on sep (join (String sep EmptyString) segs) = segs.
Proof.
  induction segs as [|a segs IH]; [done|]. intros _.
  simpl. intros [Ha Hs]%andb_true_iff.
  destruct segs as [|b segs]; [by apply split_on_no_sep|].
  change ((a +:+ String sep "" +:+ join (String sep "") (b :: segs)))
    with (a +:+ String sep (join (String sep "") (b :: segs))).
  rewrite split_on_cons by done. f_equal. by apply IH.
Qed.

Lemma traverse_follow obj path i v rest :
  match follow v rest with
  | Some w => traverse obj path i v rest = Ok w
  | None => exists at_, traverse obj path i v rest
                        = Throw ("Cannot resolve " +:+ obj +:+ ": null at " +:+ dq
                                 +:+ at_ +:+ dq)
  end.
Proof.
  revert i v. induction rest as [|seg rest IH]; intros i v; simpl; [done|].
  destruct (nullish v); [eauto|]. apply IH.
Qed.

Lemma follow_app v pre post :
  follow v (pre ++ post) = follow v pre ≫= fun u => follow u post.
Proof.
  revert v. induction pre as [|seg pre IH]; intros v; simpl; [done|].
  destruct (nullish v); [done|]. apply IH.
Qed.

Lemma resolveVariables_Arr bindings items :
  resolveVariables bindings (Arr items)
  = match all_ok (List.map (resolveVariables bindings) items) with
    | Ok l => Ok (Arr l)
    | Throw m => Throw m
    end.
Proof.
  cbn [resolveVariables].
  match goal with |- match ?f items with _ => _ end = _ =>
    assert (E : forall l, f l = all_ok (List.map (resolveVariables bindings) l)) end.
  { induction l as [|x l IH]; [done|]. cbn [List.map all_ok].
    destruct (resolveVariables bindings x); [|done]. by rewrite IH. }
  by rewrite E.
Qed.

Lemma resolveVariables_Obj bindings fields :
  resolveVariables bindings (Obj fields)
  = match all_ok (List.map (resolve_field bindings) fields) with
    | Ok l => Ok (Obj l)
    | Throw m => Throw m
    end.
Proof.
  cbn [resolveVariables].
  match goal with |- match ?f fields with _ => _ end = _ =>
    assert (E : forall l, f l = all_ok (List.map (resolve_field bindings) l)) end.
  { induction l as [|[k x] l IH]; [done|]. cbn [List.map all_ok].
    unfold resolve_field at 1. cbn [fst snd].
    destruct (resolveVariables bindings x); [|done]. by rewrite IH. }
  by rewrite E.
Qed.



(** *** checkpoint.ts and batchPipeline *)

Lemma assoc_map_set {A} k (v : A) m : assoc k (map_set k v m) = Some v.
Proof.
  induction m as [|[k' v'] m IH]; simpl.
  - by rewrite String.eqb_refl.
  - destruct (String.eqb k k') eqn:E; simpl; by rewrite ?String.eqb_refl, ?E.
Qed.

Section Loop.
Variable h : Plugin.Host.
Variable handlers : string -> option Handler.

Lemma steps_return_loop pre rest : forall i w b c l w1 b1 c1 l1,
  steps_return handlers pre i w b c l = Some (w1, b1, c1, l1) ->
  pipeline_loop h handlers (pre ++ rest) i w b c l
  = pipeline_loop h handlers rest (i + length pre) w1 b1 c1 l1.
Proof.
  induction pre as [|s pre IH]; intros i w b c l w1 b1 c1 l1 H; simpl in *.
  - inversion H; subst. by rewrite Nat.add_0_r.
  - destruct (handlers (Step.tool s)) as [hd|]; [|done].
    destruct (run_step hd b s w) as [w' [answer|m]]; [|done].
    destruct (if (i =? 0)%nat && truthy (frameId_of answer) then _ else _) as [w'' l''].
    rewrite (IH _ _ _ _ _ _ _ _ _ H). f_equal. lia.
Qed.

Lemma steps_return_completed pre : forall i w b c l w1 b1 c1 l1,
  steps_return handlers pre i w b c l = Some (w1, b1, c1, l1) ->
  List.map completed_id c1 = List.map completed_id c ++ List.map Step.id pre /\
  List.map completed_tool c1 = List.map completed_tool c ++ List.map Step.tool pre.
Proof.
  induction pre as [|s pre IH]; intros i w b c l w1 b1 c1 l1 H; simpl in *.
  - inversion H; subst. by rewrite !app_nil_r.
  - destruct (handlers (Step.tool s)) as [hd|]; [|done].
    destruct (run_step hd b s w) as [w' [answer|m]]; [|done].
    destruct (if (i =? 0)%nat && truthy (frameId_of answer) then _ else _) as [w'' l''].
    destruct (IH _ _ _ _ _ _ _ _ _ H) as [-> ->].
    rewrite !List.map_app. simpl. by rewrite <- !app_assoc.
Qed.

Lemma run_step_checkpoints hd toolName b s w :
  keeps_checkpoints handlers -> handlers toolName = Some hd ->
  checkpoints (run_step hd b s w).1 = checkpoints w.
Proof.
  intros Hk Hh. unfold run_step.
  destruct (resolveVariables b (Step.args s)); [|done]. by apply (Hk toolName).
Qed.

Lemma steps_return_later pre : forall i w b c l w1 b1 c1 l1,
  steps_return handlers pre (S i) w b c l = Some (w1, b1, c1, l1) ->
  l1 = l /\ (keeps_checkpoints handlers -> checkpoints w1 = checkpoints w).
Proof.
  induction pre as [|s pre IH]; intros i w b c l w1 b1 c1 l1 H; simpl in *.
  - by inversion H; subst.
  - destruct (handlers (Step.tool s)) as [hd|] eqn:Hh; [|done].
    destruct (run_step hd b s w) as [w' [answer|m]] eqn:Hr; [|done].
    destruct (IH _ _ _ _ _ _ _ _ _ H) as [-> Hc]. split; [done|].
    intros Hk. rewrite (Hc Hk).
    by rewrite <- (run_step_checkpoints hd _ b s w Hk Hh), Hr.
Qed.

Lemma auto_checkpoint_saved answer w w' l :
  auto_checkpoint answer w = (w', Some l) ->
  l = "_pipeline_auto" /\
  exists frame node,
    frameId_of answer = Str frame /\
    Plugin.getNodeById (doc w) frame = Some node /\
    assoc l (checkpoints w')
    = Some {| frameId := frame; data := Plugin.serializeNode node 10 0; savedAt := now w |}.
Proof.
  unfold auto_checkpoint. destruct (truthy (frameId_of answer)); [|done].
  destruct (frameId_of answer) as [| | | |frame| |]; try done.
  unfold saveCheckpoint, sendCommand, Plugin.handleSerializeFrame.
  destruct (connected w); [|done].
  destruct (Plugin.getNodeById (doc w) frame) as [node|] eqn:Hn; [|done].
  destruct (String.eqb _ ""); [done|].
  intros H. inversion H; subst. split; [done|].
  exists frame, node. split; [done|]. split; [done|]. simpl. apply assoc_map_set.
Qed.

Lemma auto_checkpoint_label answer w :
  (auto_checkpoint answer w).2 = None \/ (auto_checkpoint answer w).2 = Some "_pipeline_auto".
Proof.
  destruct (auto_checkpoint answer w) as [w' [l|]] eqn:E; [|by left].
  right. simpl. by apply auto_checkpoint_saved in E as [-> _].
Qed.

Lemma rollback_spec label w :
  if (rollback h label w).2
  then exists l cp d' k,
         label = Some l /\ assoc l (checkpoints w) = Some cp /\ connected w = true /\
         Plugin.handleRestoreCheckpoint h (doc w) (frameId cp) (data cp) = Ok (d', k) /\
         (rollback h label w).1 = set_doc d' w
  else (rollback h label w).1 = w.
Proof.
  unfold rollback. destruct label as [l|]; [|done].
  unfold restoreCheckpoint. destruct (assoc l (checkpoints w)) as [cp|] eqn:Hcp; [|done].
  unfold sendCommand. destruct (connected w) eqn:Hc; [|done].
  destruct (Plugin.handleRestoreCheckpoint h (doc w) (frameId cp) (data cp))
    as [[d' k]|m] eqn:Hr; simpl.
  - by exists l, cp, d', k.
  - by destruct w.
Qed.

End Loop.




(** C2: the code at a frame nested twelve levels deep.  serialize_frame is
    answered with [serializeNode(node, 10)]: of the 13 nodes of the frame the
    stored snapshot holds 11, those at most ten levels below the root. *)
Theorem saveCheckpoint_drops_nodes_below_depth_10 :
  exists w' answer checkpoint,
    saveCheckpoint "1:0" "deep" deep_world = (w', Ok answer) /\
    assoc "deep" (checkpoints w') = Some checkpoint /\
    Plugin.getNodeById (doc deep_world) "1:0" = Some (Plugin.nested 12) /\
    Plugin.node_count (Plugin.nested 12) = 13 /\
    Plugin.countNodes (data checkpoint) = 11 /\
    get_property answer "nodeCount" = Num 11.
Proof.
  eexists _, _, _. split; [vm_compute; reflexivity|].
  split; [vm_compute; reflexivity|].
  repeat split; vm_compute; reflexivity.
Qed.

(** *** More on the pipeline and the checkpoint store *)

(** X13. When all the steps return, the pipeline returns the completed steps, one
    per step and in order, the bindings summary and the message with the
    number of steps. *)
Theorem batchPipeline_completes (h : Plugin.Host) (handlers : string -> option Handler)
    (steps : list Step.t) (w w1 : World) (bindings1 : list (string * value))
    (completed1 : list CompletedStep) (label1 : option string) :
  steps_return handlers steps 0 w [] [] None = Some (w1, bindings1, completed1, label1) ->
  batchPipeline h handlers steps w
  = (w1, Completed completed1
           (List.map (fun kv => (kv.1, strip_content kv.2)) bindings1)
           ("Pipeline completed: " +:+ pretty (length steps) +:+ " steps executed")) /\
  List.map completed_id completed1 = List.map Step.id steps /\
  List.map completed_tool completed1 = List.map Step.tool steps.
Proof.
  intros Hs.
  pose proof (steps_return_completed handlers steps _ _ _ _ _ _ _ _ _ Hs) as [Hid Htool].
  simpl in Hid, Htool. split; [|done].
  unfold batchPipeline.
  pose proof (steps_return_loop h handlers steps [] _ _ _ _ _ _ _ _ _ Hs) as Hl.
  rewrite app_nil_r in Hl. rewrite Hl. simpl. do 4 f_equal.
  by rewrite <- (length_map completed_id), Hid, length_map.
Qed.

Lemma batchPipeline_completes_witness :
  exists w1 bindings,
    batchPipeline Plugin.sample_host sample_tools (take 2 sample_pipeline) blank_world
    = (w1, Completed
             [ {| completed_id := "s1"; completed_tool := "build_ad_skeleton";
                  summary := "Created feed frame (1080x1080px) with 80px padding. " |};
               {| completed_id := "s2"; completed_tool := "create_shape";
                  summary := "Created rectangle (200x100px)" |} ]
             bindings "Pipeline completed: 2 steps executed").
Proof.
  destruct (batchPipeline_completes Plugin.sample_host sample_tools
              (take 2 sample_pipeline) blank_world
              sample_pipeline_state.1.1.1 sample_pipeline_state.1.1.2
              sample_pipeline_state.1.2 sample_pipeline_state.2) as [Hrun _].
  - vm_compute. reflexivity.
  - eexists _, _. etransitivity; [exact Hrun|]. vm_compute. reflexivity.
Defined.

(** X14. A step whose tool is not in the registry stops the pipeline with
    "Unknown tool" and rolledBack false; no restore is attempted, the world is
    as the steps before left it. *)
Theorem batchPipeline_unknown_tool_stops_without_rollback
    (h : Plugin.Host) (handlers : string -> option Handler)
    (pre : list Step.t) (step : Step.t) (post : list Step.t)
    (w w1 : World) (bindings1 : list (string * value))
    (completed1 : list CompletedStep) (label1 : option string) :
  steps_return handlers pre 0 w [] [] None = Some (w1, bindings1, completed1, label1) ->
  handlers (Step.tool step) = None ->
  batchPipeline h handlers (pre ++ step :: post) w
  = (w1, Stopped completed1
           {| failed_step := Step.id step; failed_tool := Step.tool step;
              error := "Unknown tool: " +:+ Step.tool step |}
           false).
Proof.
  intros Hs Hh. unfold batchPipeline.
  rewrite (steps_return_loop h handlers pre _ _ _ _ _ _ _ _ _ _ Hs). simpl.
  by rewrite Hh.
Qed.

Lemma batchPipeline_unknown_tool_stops_without_rollback_witness :
  (batchPipeline Plugin.sample_host sample_tools
     (take 2 sample_pipeline ++ [step "s3" "export_ad" []]) blank_world).2
  = Stopped sample_pipeline_state.1.2
      {| failed_step := "s3"; failed_tool := "export_ad";
         error := "Unknown tool: export_ad" |} false.
Proof.
  rewrite (batchPipeline_unknown_tool_stops_without_rollback Plugin.sample_host sample_tools
             (take 2 sample_pipeline) (step "s3" "export_ad" []) [] blank_world
             sample_pipeline_state.1.1.1 sample_pipeline_state.1.1.2
             sample_pipeline_state.1.2 sample_pipeline_state.2);
    [reflexivity| vm_compute; reflexivity | vm_compute; reflexivity].
Defined.

Lemma all_ok_map_id {A} (f : A -> result A) (l : list A) :
  Forall (fun a => f a = Ok a) l -> all_ok (List.map f l) = Ok l.
Proof. induction 1 as [|a l Ha _ IH]; simpl; [done|]. by rewrite Ha, IH. Qed.

Lemma value_nested_ind (P : value -> Prop) :
  P Undefined -> P Null -> (forall b, P (Bool b)) -> (forall n, P (Num n)) ->
  (forall s, P (Str s)) ->
  (forall items, Forall P items -> P (Arr items)) ->
  (forall fields, Forall (fun kv => P kv.2) fields -> P (Obj fields)) ->
  forall v, P v.
Proof.
  intros HU HN HB HNum HS HA HO. fix IH 1.
  intros [| |b|n|s|items|fields];
    [exact HU|exact HN|apply HB|apply HNum|apply HS| |].
  - apply HA. induction items as [|i items IHi]; constructor; [apply IH|apply IHi].
  - apply HO. induction fields as [|[k x] fields IHf]; constructor; [apply IH|apply IHf].
Qed.

(** X15. Args in which no string starts with the sigil, at any depth, resolve to
    themselves, whatever the bindings. *)
Theorem resolveVariables_keeps_values_without_references
    (bindings : list (string * value)) (v : value) :
  no_refs v = true -> resolveVariables bindings v = Ok v.
Proof.
  induction v as [| | | |s|items IH|fields IH] using value_nested_ind; intros Hn; try done.
  - simpl in *. by destruct (starts_with "$" s).
  - rewrite resolveVariables_Arr. rewrite all_ok_map_id; [done|].
    simpl in Hn. rewrite forallb_forall in Hn. rewrite List.Forall_forall in IH |- *.
    intros a Ha. apply IH; [done|]. by apply Hn.
  - rewrite resolveVariables_Obj. rewrite all_ok_map_id; [done|].
    simpl in Hn. rewrite forallb_forall in Hn. rewrite List.Forall_forall in IH |- *.
    intros [k x] Ha. pose proof (IH (k, x) Ha (Hn (k, x) Ha)) as E. simpl in E.
    unfold resolve_field. simpl. by rewrite E.
Qed.

Lemma resolveVariables_keeps_values_without_references_witness :
  resolveVariables [("s1", Obj [("frameId", Str "1:0")])]
    (Obj [("shape", Str "rectangle"); ("size", Arr [Num 200; Num 100])])
  = Ok (Obj [("shape", Str "rectangle"); ("size", Arr [Num 200; Num 100])]).
Proof.
  apply (resolveVariables_keeps_values_without_references
           [("s1", Obj [("frameId", Str "1:0")])]). reflexivity.
Defined.

Lemma assoc_map_set_other {A} k k' (v : A) m :
  k' <> k -> assoc k' (map_set k v m) = assoc k' m.
Proof.
  intros Hne. induction m as [|[k0 v0] m IH]; simpl.
  - destruct (String.eqb_spec k' k); [done|done].
  - destruct (String.eqb_spec k k0) as [->|Hk]; simpl.
    + destruct (String.eqb_spec k' k0); [done|done].
    + destruct (String.eqb_spec k' k0); [done|exact IH].
Qed.

Lemma set_doc_same w : set_doc (doc w) w = w.
Proof. by destruct w. Qed.

(** X16. saveCheckpoint, when it returns: the bridge was open and the frame exists;
    the label now maps to the snapshot of the frame, the other labels are as
    before, the document is unchanged and nodeCount counts the snapshot.  When
    it throws, the world is unchanged. *)
Theorem saveCheckpoint_stores_under_the_label (frame label : string) (w : World) :
  match saveCheckpoint frame label w with
  | (w', Ok answer) =>
      exists node,
        connected w = true /\
        Plugin.getNodeById (doc w) frame = Some node /\
        assoc label (checkpoints w')
        = Some {| frameId := frame; data := Plugin.serializeNode node 10 0;
                  savedAt := now w |} /\
        (forall other, other <> label ->
           assoc other (checkpoints w') = assoc other (checkpoints w)) /\
        doc w' = doc w /\
        get_property answer "nodeCount"
        = Num (Z.of_nat (Plugin.countNodes (Plugin.serializeNode node 10 0)))
  | (w', Throw _) => w' = w
  end.
Proof.
  unfold saveCheckpoint, sendCommand, Plugin.handleSerializeFrame.
  destruct (connected w) eqn:Hc; [|done].
  destruct (Plugin.getNodeById (doc w) frame) as [node|] eqn:Hn; [|apply set_doc_same].
  destruct (String.eqb _ ""); [apply set_doc_same|].
  exists node. split; [done|]. split; [done|]. simpl.
  split; [apply assoc_map_set|]. split; [|done].
  intros other Hne. by apply assoc_map_set_other.
Qed.


Lemma filter_content fields :
  assoc "content" (List.filter (fun kv : string * value => negb (String.eqb kv.1 "content"))
                     fields) = None /\
  forall key, key <> "content" ->
    assoc key (List.filter (fun kv : string * value => negb (String.eqb kv.1 "content"))
                 fields) = assoc key fields.
Proof.
  induction fields as [|[k v] fields [IH1 IH2]]; [done|].
  cbn [List.filter fst]. destruct (String.eqb_spec k "content") as [->|Hk]; cbn [negb].
  - split; [exact IH1|]. intros key Hne. cbn [assoc].
    destruct (String.eqb_spec key "content"); [done|]. by apply IH2.
  - cbn [assoc]. split.
    + destruct (String.eqb_spec "content" k); [congruence|exact IH1].
    + intros key Hne. destruct (String.eqb key k); [done|]. by apply IH2.
Qed.

Lemma assoc_map_values {A B} (f : A -> B) key (l : list (string * A)) :
  assoc key (List.map (fun kv => (kv.1, f kv.2)) l) = f <$> assoc key l.
Proof.
  induction l as [|[k v] l IH]; [done|]. simpl. by destruct (String.eqb key k).
Qed.

(** X18. The bindings summary of a completed pipeline: the result of a step that
    is an object is listed without its [content] and with all its other
    properties. *)
Theorem batchPipeline_strips_content (h : Plugin.Host)
    (handlers : string -> option Handler) (steps : list Step.t) (w w1 : World)
    (bindings1 : list (string * value)) (completed1 : list CompletedStep)
    (label1 : option string) (stepId : string) (fields : list (string * value)) :
  steps_return handlers steps 0 w [] [] None = Some (w1, bindings1, completed1, label1) ->
  assoc stepId bindings1 = Some (Obj fields) ->
  exists bindings message summary,
    (batchPipeline h handlers steps w).2 = Completed completed1 bindings message /\
    assoc stepId bindings = Some (Obj summary) /\
    assoc "content" summary = None /\
    forall key, key <> "content" -> assoc key summary = assoc key fields.
Proof.
  intros Hs Hb. unfold batchPipeline.
  pose proof (steps_return_loop h handlers steps [] _ _ _ _ _ _ _ _ _ Hs) as Hl.
  rewrite app_nil_r in Hl. rewrite Hl. simpl.
  eexists _, _, _. split; [reflexivity|].
  rewrite (assoc_map_values strip_content), Hb. simpl. split; [reflexivity|].
  apply filter_content.
Qed.

Lemma batchPipeline_strips_content_witness :
  exists bindings message summary,
    (batchPipeline Plugin.sample_host sample_tools (take 2 sample_pipeline) blank_world).2
    = Completed sample_pipeline_state.1.2 bindings message /\
    assoc "s2" bindings = Some (Obj summary) /\
    assoc "content" summary = None /\
    forall key, key <> "content" ->
      assoc key summary
      = assoc key [("nodeId", Str "1:1"); ("message", Str "Created rectangle (200x100px)")].
Proof.
  apply (batchPipeline_strips_content Plugin.sample_host sample_tools
           (take 2 sample_pipeline) blank_world
           sample_pipeline_state.1.1.1 sample_pipeline_state.1.1.2
           sample_pipeline_state.1.2 sample_pipeline_state.2 "s2").
  - vm_compute. reflexivity.
  - vm_compute. reflexivity.
Defined.

(** *** build_ad_skeleton *)

Lemma find_snoc_fresh i (forest : list Plugin.SceneNode) (n : Plugin.SceneNode) :
  List.find (Plugin.has_id i) (Plugin.forest_nodes forest) = None ->
  Plugin.id (Plugin.props n) = i ->
  List.find (Plugin.has_id i) (Plugin.forest_nodes (forest ++ [n])) = Some n.
Proof.
  intros Hf Hn. unfold Plugin.forest_nodes in *.
  rewrite List.map_app, List.concat_app, PluginProofs.find_app, Hf. simpl.
  destruct n as [p ch]. simpl in *. unfold Plugin.has_id at 1. simpl.
  by rewrite Hn, String.eqb_refl.
Qed.

Lemma find_update_node_with i (g : Plugin.SceneNode -> Plugin.SceneNode) n :
  (forall k, Plugin.id (Plugin.props (g k)) = i) ->
  List.find (Plugin.has_id i) (Plugin.subtree (Plugin.update_node i g n))
  = g <$> List.find (Plugin.has_id i) (Plugin.subtree n).
Proof.
  intros Hg.
  assert (Hroot : forall k, List.find (Plugin.has_id i) (Plugin.subtree (g k)) = Some (g k)).
  { intros k. specialize (Hg k). destruct (g k) as [rp rch]. simpl in *.
    unfold Plugin.has_id at 1. simpl. by rewrite Hg, String.eqb_refl. }
  induction n as [p|p cs IH] using PluginProofs.SceneNode_tree_ind.
  - simpl. unfold Plugin.has_id at 2. simpl.
    destruct (String.eqb (Plugin.id p) i) eqn:E; [apply Hroot|].
    simpl. unfold Plugin.has_id. simpl. by rewrite E.
  - simpl. unfold Plugin.has_id at 2. simpl.
    destruct (String.eqb (Plugin.id p) i) eqn:E; [apply Hroot|].
    simpl. unfold Plugin.has_id at 1. simpl. rewrite E.
    induction IH as [|c cs Hc _ IHcs]; [done|].
    simpl. rewrite !PluginProofs.find_app, Hc.
    destruct (List.find (Plugin.has_id i) (Plugin.subtree c)); [done|exact IHcs].
Qed.

Lemma getNodeById_modify doc i (f : Plugin.NodeProps -> Plugin.NodeProps) :
  (forall p, Plugin.id (f p) = i) ->
  Plugin.getNodeById (Plugin.modify doc i f) i
  = (fun n => Plugin.mkNode (f (Plugin.props n)) (Plugin.children n))
      <$> Plugin.getNodeById doc i.
Proof.
  intros Hf. unfold Plugin.getNodeById, Plugin.modify, Plugin.forest_nodes,
    Plugin.update_forest. simpl.
  induction (Plugin.page doc) as [|n forest IH]; [done|].
  simpl. rewrite !PluginProofs.find_app, find_update_node_with by (intros k; apply Hf).
  destruct (List.find (Plugin.has_id i) (Plugin.subtree n)); [done|exact IH].
Qed.

(** X19. build_ad_skeleton.  A format other than story and feed without a width
    and a height that are not 0 throws before anything is sent.  With story
    or feed, an open bridge and a creation counter whose next id is not in
    use, one frame is created, 1080 wide and 1920 (story) or 1080 (feed)
    high, and its id is the frameId returned. *)
Theorem buildAdSkeleton_creates_one_frame (h : Plugin.Host)
    (hexToRgb : string -> Plugin.RGB) (input : BuildAdSkeletonInput.t) (w : World) :
  let format := BuildAdSkeletonInput.format input in
  let fresh := Plugin.node_id (Plugin.created (doc w)) in
  (* a custom format without both dimensions: nothing is sent *)
  (format <> "story" -> format <> "feed" ->
   Plugin.or_default (BuildAdSkeletonInput.width input) 0 = 0%Z \/
   Plugin.or_default (BuildAdSkeletonInput.height input) 0 = 0%Z ->
   buildAdSkeleton h hexToRgb input w
   = (w, Throw "Custom format requires width and height")) /\
  (* story and feed: one frame of the fixed size, whose id is returned *)
  (format = "story" \/ format = "feed" ->
   connected w = true ->
   Plugin.getNodeById (doc w) fresh = None ->
   exists w' answer frame,
     buildAdSkeleton h hexToRgb input w = (w', Ok answer) /\
     get_property answer "frameId" = Str fresh /\
     Plugin.getNodeById (doc w') fresh = Some frame /\
     Plugin.type (Plugin.props frame) = "FRAME" /\
     Plugin.width (Plugin.layout (Plugin.props frame)) = 1080%Z /\
     Plugin.height (Plugin.layout (Plugin.props frame))
     = (if String.eqb format "story" then 1920 else 1080)%Z /\
     Plugin.created (doc w') = S (Plugin.created (doc w)) /\
     checkpoints w' = checkpoints w).
Proof.
  intros format fresh. split.
  - intros Hs Hf Hdim. unfold buildAdSkeleton. fold format.
    destruct (String.eqb_spec format "story"); [done|].
    destruct (String.eqb_spec format "feed"); [done|].
    unfold Plugin.or_default in Hdim.
    destruct (BuildAdSkeletonInput.width input) as [wd|],
             (BuildAdSkeletonInput.height input) as [ht|]; try done.
    destruct (Z.eqb_spec wd 0), (Z.eqb_spec ht 0); simpl; try done.
    destruct Hdim as [Hd|Hd]; simpl in Hd.
    + destruct (wd =? 0)%Z eqn:E; [apply Z.eqb_eq in E; done|congruence].
    + destruct (ht =? 0)%Z eqn:E; [apply Z.eqb_eq in E; done|congruence].
  - intros Hfmt Hc Hfresh. unfold buildAdSkeleton. fold format.
    set (dims := if String.eqb format "story" then Ok (1080, 1920)%Z
                 else if String.eqb format "feed" then Ok (1080, 1080)%Z else _).
    assert (Hdims : dims = Ok (1080, if String.eqb format "story" then 1920 else 1080)%Z).
    { subst dims. destruct Hfmt as [-> | ->]; reflexivity. }
    rewrite Hdims. clearbody dims. clear Hdims.
    set (ht := (if String.eqb format "story" then 1920 else 1080)%Z).
    unfold sendCommand. rewrite Hc.
    unfold Plugin.figma_createFrame, Plugin.figma_create.
    cbn [Plugin.append_to_parent].
    set (node0 := Plugin.mkNode (Plugin.createFrame h (Plugin.created (doc w))) (Some [])).
    assert (Hfound : Plugin.getNodeById (Plugin.add_to_page (doc w) node0) fresh = Some node0).
    { unfold Plugin.getNodeById, Plugin.add_to_page. simpl.
      apply find_snoc_fresh; [exact Hfresh|reflexivity]. }
    change (Plugin.id (Plugin.props node0)) with fresh.
    unfold Plugin.apply_props. rewrite Hfound.
    match goal with |- context [Plugin.applyNodeProperties h (Plugin.props node0) ?p] =>
      set (opts := p) end.
    assert (Happ : exists node',
              Plugin.applyNodeProperties h (Plugin.props node0) opts = (node', None) /\
              Plugin.id node' = fresh /\ Plugin.type node' = "FRAME" /\
              Plugin.width (Plugin.layout node') = 1080%Z /\
              Plugin.height (Plugin.layout node') = ht).
    { eexists. split; [reflexivity|]. repeat split. }
    destruct Happ as (node' & -> & Hid & Hty & Hw & Hh).
    eexists _, _, (Plugin.mkNode node' (Some [])).
    split; [reflexivity|]. split; [reflexivity|].
    split.
    { simpl. rewrite getNodeById_modify by (intros; exact Hid). by rewrite Hfound. }
    repeat split; done.
Qed.

Lemma buildAdSkeleton_creates_one_frame_witness :
  exists w' answer frame,
    buildAdSkeleton Plugin.sample_host sample_hexToRgb
      {| BuildAdSkeletonInput.format := "story"; BuildAdSkeletonInput.width := None;
         BuildAdSkeletonInput.height := None; BuildAdSkeletonInput.name := None;
         BuildAdSkeletonInput.backgroundColor := None;
         BuildAdSkeletonInput.padding := None |} blank_world = (w', Ok answer) /\
    get_property answer "frameId" = Str "1:0" /\
    Plugin.getNodeById (doc w') "1:0" = Some frame /\
    Plugin.height (Plugin.layout (Plugin.props frame)) = 1920%Z.
Proof.
  destruct (buildAdSkeleton_creates_one_frame Plugin.sample_host sample_hexToRgb
              {| BuildAdSkeletonInput.format := "story"; BuildAdSkeletonInput.width := None;
                 BuildAdSkeletonInput.height := None; BuildAdSkeletonInput.name := None;
                 BuildAdSkeletonInput.backgroundColor := None;
                 BuildAdSkeletonInput.padding := None |} blank_world) as [_ H].
  destruct H as (w' & answer & frame & Hrun & Hid & Hget & _ & _ & Hh & _);
    [by left|reflexivity|reflexivity|].
  by exists w', answer, frame.
Defined.

End PipelineProofs.

(** ** The batch script language *)
Module DslProofs.
Import JS Dsl.

Lemma starts_with_sigil name : starts_with "$" ("$" +:+ name) = true.
Proof. reflexivity. Qed.

(** C7, amended.  The parser turns the literal token "null" into a null
    parent and keeps every other token as it is; the parent of a CREATE
    operation is the first argument so resolved.  The plugin leaves a null
    reference null; resolves a token that starts with the sigil to the node
    bound to that name by an earlier creation, and throws "Unresolved
    variable" when the name is not bound; and takes any other token as a
    literal node identifier.  A new node stays at the top level when its
    parent is null or names no node. *)
Theorem reference_tokens :
  resolveRef "null" = None /\
  (forall ref, ref <> "null" -> resolveRef ref = Some ref) /\
  (forall JSON_parse ToNumber kind var args line o,
     parseCreateOp JSON_parse ToNumber kind var args line = Ok o ->
     exists first rest fields,
       splitArgs JSON_parse args line = Ok (first :: rest, fields) /\
       parent o = Some (resolveRef first) /\ variable o = Some var) /\
  (forall variables, Plugin.resolveVarRef None variables = Ok None) /\
  (forall variables name node,
     assoc name variables = Some node -> node <> "" ->
     Plugin.resolveVarRef (Some ("$" +:+ name)) variables = Ok (Some node)) /\
  (forall variables name,
     assoc name variables = None ->
     Plugin.resolveVarRef (Some ("$" +:+ name)) variables
     = Throw ("Unresolved variable: $" +:+ name)) /\
  (forall variables ref,
     starts_with "$" ref = false ->
     Plugin.resolveVarRef (Some ref) variables = Ok (Some ref)) /\
  (forall doc child index, Plugin.append_to_parent doc None child index = Ok doc) /\
  (forall doc ref child index,
     Plugin.getNodeById doc ref = None ->
     Plugin.append_to_parent doc (Some ref) child index = Ok doc).
Proof.
  split; [reflexivity|].
  split.
  { intros ref Hne. unfold resolveRef. destruct (String.eqb_spec ref "null"); congruence. }
  split.
  { intros JSON_parse ToNumber kind var args line o. unfold parseCreateOp.
    destruct (splitArgs JSON_parse args line) as [[[|first rest] fields]|m]; try done.
    intros H. exists first, rest, fields. split; [done|].
    destruct fields as [fields|]; [|by inversion H].
    destruct (String.eqb kind "CREATE_TEXT"); [|by inversion H].
    repeat case_match; by inversion H. }
  split; [reflexivity|].
  split.
  { intros variables name node Hn Hne. unfold Plugin.resolveVarRef.
    rewrite starts_with_sigil.
    change (tail ("$" +:+ name)) with name. rewrite Hn.
    destruct (String.eqb_spec node ""); congruence. }
  split.
  { intros variables name Hn. unfold Plugin.resolveVarRef.
    rewrite starts_with_sigil.
    change (tail ("$" +:+ name)) with name. by rewrite Hn. }
  split.
  { intros variables ref Hs. unfold Plugin.resolveVarRef. by rewrite Hs. }
  split; [reflexivity|].
  intros doc ref child index Hn. unfold Plugin.append_to_parent.
  destruct (String.eqb ref ""); [done|]. by rewrite Hn.
Qed.

(** A literal identifier, a bound and an unbound variable. *)
Lemma reference_tokens_witness :
  resolveRef "1:2" = Some "1:2" /\
  Plugin.resolveVarRef (Some "$card") [("card", "1:0")] = Ok (Some "1:0") /\
  Plugin.resolveVarRef (Some "$bg") [("card", "1:0")] = Throw "Unresolved variable: $bg" /\
  Plugin.resolveVarRef (Some "1:2") [("card", "1:0")] = Ok (Some "1:2").
Proof.
  destruct reference_tokens as (_ & Hlit & _ & _ & Hbound & Hfree & Hid & _).
  split; [apply Hlit; discriminate|].
  split; [apply (Hbound [("card", "1:0")] "card" "1:0"); [reflexivity|discriminate]|].
  split; [apply (Hfree [("card", "1:0")] "bg"); reflexivity|].
  apply Hid. reflexivity.
Defined.

(** C7 as stated fails: the token "none" is not the token for no parent; it
    is kept by the parser and by the plugin as a node identifier. *)
Lemma resolveRef_none_is_an_identifier :
  resolveRef "none" = Some "none" /\
  resolveRef "null" = None /\
  Plugin.resolveVarRef (Some "none") [] = Ok (Some "none").
Proof. repeat split. Qed.

Section Batch.
Variable JSON_parse : string -> result (list (string * value)).
Variable ToNumber : value -> option Z.
Variable hexToRgb hexToRgba : value -> result value.
Variable rotationToGradientTransform : value -> value.
Variable readFileSync : value -> result string.
Variable toString : value -> string.
Variable W : Type.
Variable logBatchOperations : list ParsedOperation -> W -> W.
Variable sendCommand : list ParsedOperation -> W -> W * result value.

Local Abbreviation prepare :=
  (prepare JSON_parse ToNumber hexToRgb hexToRgba rotationToGradientTransform
     readFileSync toString).
Local Abbreviation batchOperations :=
  (batchOperations JSON_parse ToNumber hexToRgb hexToRgba rotationToGradientTransform
     readFileSync toString W logBatchOperations sendCommand).

Lemma all_ok_length {A} (l : list (result A)) r : all_ok l = Ok r -> length r = length l.
Proof.
  revert r. induction l as [|[a|m] l IH]; intros r; simpl; [by inversion 1| |done].
  destruct (all_ok l); [|done]. inversion 1; subst. simpl. by rewrite IH.
Qed.

Lemma prepare_ok operations processed :
  prepare operations = Ok processed ->
  exists parsed,
    parseDSL JSON_parse ToNumber operations = Ok parsed /\
    length processed = length parsed /\
    (1 <= length parsed <= 50)%nat.
Proof.
  unfold Dsl.prepare. destruct (parseDSL JSON_parse ToNumber operations) as [parsed|m]; [|done].
  destruct (50 <? length parsed)%nat eqn:H50; [done|].
  destruct (length parsed =? 0)%nat eqn:H0; [done|].
  intros H. exists parsed. split; [done|]. split; [by apply all_ok_length in H; rewrite H, length_map|].
  apply Nat.ltb_ge in H50. apply Nat.eqb_neq in H0. lia.
Qed.

End Batch.

(** C8.  batchOperations parses the script, then validates the count, then
    processes the operations, and only then logs and sends them, all in one
    command.  A parse error is thrown as it is; a script that parses to more
    than 50 operations fails with "Too many operations"; one that parses to
    none fails with "No operations parsed from DSL"; and whenever these
    steps throw, the state the bridge acts on is untouched.  When they
    succeed, between 1 and 50 operations are sent and the state changes by
    the log and the one send only. *)
Theorem batchOperations_validates_before_sending
    (JSON_parse : string -> result (list (string * value)))
    (ToNumber : value -> option Z)
    (hexToRgb hexToRgba : value -> result value)
    (rotationToGradientTransform : value -> value)
    (readFileSync : value -> result string)
    (toString : value -> string)
    (W : Type)
    (logBatchOperations : list ParsedOperation -> W -> W)
    (sendCommand : list ParsedOperation -> W -> W * result value)
    (operations : string) (w : W) :
  let run := batchOperations JSON_parse ToNumber hexToRgb hexToRgba
               rotationToGradientTransform readFileSync toString W
               logBatchOperations sendCommand in
  let prepared := prepare JSON_parse ToNumber hexToRgb hexToRgba
                    rotationToGradientTransform readFileSync toString operations in
  (forall m, parseDSL JSON_parse ToNumber operations = Throw m ->
     run operations w = (w, Throw m)) /\
  (forall parsed, parseDSL JSON_parse ToNumber operations = Ok parsed ->
     (50 < length parsed)%nat ->
     run operations w
     = (w, Throw ("Too many operations: " +:+ pretty (length parsed) +:+ " (max 50)"))) /\
  (parseDSL JSON_parse ToNumber operations = Ok [] ->
     run operations w = (w, Throw "No operations parsed from DSL")) /\
  (forall m, prepared = Throw m -> run operations w = (w, Throw m)) /\
  (forall processed, prepared = Ok processed ->
     (exists parsed,
        parseDSL JSON_parse ToNumber operations = Ok parsed /\
        length processed = length parsed /\ (1 <= length parsed <= 50)%nat) /\
     (run operations w).1
     = (sendCommand processed (logBatchOperations processed w)).1).
Proof.
  intros run prepared. subst run prepared. unfold batchOperations.
  split; [|split; [|split; [|split]]].
  - intros m H. unfold prepare. by rewrite H.
  - intros parsed H Hlen. unfold prepare. rewrite H.
    apply Nat.ltb_lt in Hlen. by rewrite Hlen.
  - intros H. unfold prepare. by rewrite H.
  - by intros m ->.
  - intros processed Hp. split; [by eapply prepare_ok|].
    rewrite Hp. by destruct (sendCommand _ _) as [w' [a|m]].
Qed.

(** Fifty-one DELETE lines: nothing reaches the recording bridge. *)
Lemma batchOperations_validates_before_sending_witness :
  sample_batchOperations (delete_lines 51) []
  = ([], Throw "Too many operations: 51 (max 50)").
Proof.
  destruct (batchOperations_validates_before_sending
              sample_JSON_parse sample_ToNumber sample_conversion sample_conversion
              (fun v => v) sample_readFileSync sample_toString
              (list (list ParsedOperation)) (fun _ w => w) recording_bridge
              (delete_lines 51) []) as (_ & Hmany & _).
  refine (eq_trans (Hmany (default [] (match parseDSL sample_JSON_parse sample_ToNumber
                                               (delete_lines 51) with
                                       | Ok l => Some l | Throw _ => None end)) _ _) _).
  - vm_compute. reflexivity.
  - vm_compute. lia.
  - vm_compute. reflexivity.
Defined.

(** *** The parser and batchOperations, beyond the claims *)

Lemma has_cases set kind : has set kind = true -> In kind set.
Proof. unfold has. intros H. apply bool_decide_eq_true in H. by apply list_elem_of_In. Qed.

Ltac kinds H :=
  apply has_cases in H; simpl in H;
  repeat (destruct H as [<-|H]); [..|destruct H].

Ltac wf_goal :=
  unfold well_formed;
  cbn [op variable parent nodeId props fontFamily fontStyle base64 scaleMode
       newParent index];
  repeat split; intros; try done; try discriminate; eauto.

Section ParserFacts.
Variable JSON_parse : string -> result (list (string * value)).
Variable ToNumber : value -> option Z.

Lemma parseCreateOp_well_formed kind v args n o :
  has CREATE_OPS kind = true -> v <> "" ->
  parseCreateOp JSON_parse ToNumber kind v args n = Ok o -> well_formed o.
Proof.
  intros Hk Hv. unfold parseCreateOp.
  destruct (splitArgs JSON_parse args n) as [[[|first rest] parsedProps]|m]; try done.
  kinds Hk; destruct parsedProps as [fields|]; cbn [String.eqb Ascii.eqb Bool.eqb];
    repeat case_match; intros [= <-]; wf_goal.
Qed.

Lemma parseMutationOp_well_formed kind args n o :
  has MUTATION_OPS kind = true ->
  parseMutationOp JSON_parse kind args n = Ok o -> well_formed o.
Proof.
  intros Hk. unfold parseMutationOp.
  destruct (splitArgs JSON_parse args n) as [[[|first rest] parsedProps]|m]; try done.
  kinds Hk; intros [= <-]; wf_goal.
Qed.

Lemma parseSimpleOp_well_formed kind args n o :
  has SIMPLE_OPS kind = true ->
  parseSimpleOp JSON_parse kind args n = Ok o -> well_formed o.
Proof.
  intros Hk. unfold parseSimpleOp.
  destruct (splitArgs JSON_parse args n) as [[[|first rest] parsedProps]|m]; try done.
  kinds Hk; intros [= <-]; wf_goal.
Qed.

Lemma parseReparentOp_well_formed args n o :
  parseReparentOp JSON_parse args n = Ok o -> well_formed o.
Proof.
  unfold parseReparentOp.
  destruct (splitArgs JSON_parse args n) as [[[|node [|target more]] parsedProps]|m];
    try done.
  destruct more as [|third more]; [intros [= <-]; wf_goal|].
  destruct (parseInt third); [|done]. intros [= <-]; wf_goal.
Qed.

Lemma parseLine_well_formed line n o :
  parseLine JSON_parse ToNumber line n = Ok o -> well_formed o.
Proof.
  unfold parseLine.
  match goal with |- context [let '(a, b) := ?c in _] => destruct c as [variableName rest] end.
  destruct (indexOf "(" rest) as [openParen|]; [|done].
  set (kind := trim (str_take openParen rest)).
  destruct (has ALL_OPS kind) eqn:Hall; [|done]. cbn [negb].
  destruct (findMatchingParen rest openParen) as [closeParen|]; [|done].
  destruct (has CREATE_OPS kind) eqn:Hc.
  { destruct variableName as [v|]; [|done].
    destruct (String.eqb_spec v ""); [done|]. by apply parseCreateOp_well_formed. }
  destruct (String.eqb_spec kind "REPARENT") as [Hr|Hr]; [apply parseReparentOp_well_formed|].
  destruct (has SIMPLE_OPS kind) eqn:Hs; [by apply parseSimpleOp_well_formed|].
  apply parseMutationOp_well_formed.
  clearbody kind. kinds Hall; try done.
Qed.

Lemma parse_lines_well_formed lines : forall i ops,
  parse_lines JSON_parse ToNumber lines i = Ok ops ->
  length ops <= length lines /\ Forall well_formed ops.
Proof.
  induction lines as [|raw lines IH]; intros i ops; simpl.
  - intros [= <-]. split; [simpl; lia|constructor].
  - destruct (String.eqb (trim raw) "" || String.prefix "//" (trim raw)).
    { intros H. apply IH in H as [? ?]. split; [simpl; lia|done]. }
    destruct (String.eqb (stripInlineComment (trim raw)) "").
    { intros H. apply IH in H as [? ?]. split; [simpl; lia|done]. }
    destruct (parseLine JSON_parse ToNumber _ (i + 1)) as [parsed|m] eqn:Hp; [|done].
    destruct (parse_lines JSON_parse ToNumber lines (S i)) as [rest|m] eqn:Hr; [|done].
    intros [= <-]. apply IH in Hr as [? ?]. split; [simpl; lia|].
    constructor; [by eapply parseLine_well_formed|done].
Qed.

End ParserFacts.

Lemma parseDSL_operations_well_formed
    (JSON_parse : string -> result (list (string * value)))
    (ToNumber : value -> option Z) (dsl : string) (operations : list ParsedOperation) :
  parseDSL JSON_parse ToNumber dsl = Ok operations ->
  length operations <= length (split_on (ascii_of_nat 10) dsl) /\
  Forall well_formed operations.
Proof. apply parse_lines_well_formed. Qed.

(** X20. What parseDSL hands to the plugin.  There are no more operations than
    lines, and each operation is well formed: a known name; for a CREATE a
    variable that is not empty, a parent and props; for any other operation a
    node reference and no variable; props for the mutation operations only;
    a new parent for REPARENT only; no image data. *)
Theorem parseDSL_operations_are_well_formed
    (JSON_parse : string -> result (list (string * value)))
    (ToNumber : value -> option Z) (dsl : string) (operations : list ParsedOperation) :
  parseDSL JSON_parse ToNumber dsl = Ok operations ->
  length operations <= length (split_on (ascii_of_nat 10) dsl) /\
  Forall well_formed operations.
Proof. apply parse_lines_well_formed. Qed.

Lemma parseDSL_operations_are_well_formed_witness :
  exists operations,
    parseDSL sample_JSON_parse sample_ToNumber (delete_lines 3) = Ok operations /\
    length operations <= 3 /\ Forall well_formed operations.
Proof.
  destruct (parseDSL sample_JSON_parse sample_ToNumber (delete_lines 3))
    as [operations|m] eqn:E; [|vm_compute in E; discriminate].
  exists operations. split; [done|].
  exact (parseDSL_operations_are_well_formed sample_JSON_parse sample_ToNumber
           (delete_lines 3) operations E).
Defined.

Lemma assoc_map_set_cases {A} key k (v : A) m x :
  assoc key (map_set k v m) = Some x -> key = k \/ assoc key m = Some x.
Proof.
  induction m as [|[k0 v0] m IH]; simpl.
  - destruct (String.eqb_spec key k); [by left|done].
  - destruct (String.eqb_spec k k0) as [->|Hk]; simpl.
    + destruct (String.eqb_spec key k0); [by left|by right].
    + destruct (String.eqb_spec key k0); [by right|exact IH].
Qed.

Lemma keys_in_nil allowed : keys_in allowed [].
Proof. by intros key x. Qed.

Lemma keys_in_map_set allowed k v m :
  existsb (String.eqb k) allowed = true -> keys_in allowed m ->
  keys_in allowed (map_set k v m).
Proof.
  intros Hk Hm key x H. apply assoc_map_set_cases in H as [->|H]; [done|by eapply Hm].
Qed.

Lemma keys_in_copy_defined allowed keys p : forall m,
  forallb (fun k => existsb (String.eqb k) allowed) keys = true ->
  keys_in allowed m -> keys_in allowed (copy_defined keys p m).
Proof.
  unfold copy_defined. induction keys as [|k keys IH]; intros m Hk Hm; simpl; [done|].
  simpl in Hk. apply andb_true_iff in Hk as [Hk1 Hk2]. apply IH; [done|].
  destruct (assoc k p) as [[]|]; try done; by apply keys_in_map_set.
Qed.

Lemma keys_in_pass_through allowed keys p : forall m,
  forallb (fun k => existsb (String.eqb k) allowed) keys = true ->
  keys_in allowed m -> keys_in allowed (pass_through keys p m).
Proof.
  unfold pass_through. induction keys as [|k keys IH]; intros m Hk Hm; simpl; [done|].
  simpl in Hk. apply andb_true_iff in Hk as [Hk1 Hk2]. apply IH; [done|].
  destruct (assoc k p) as [[]|]; try done;
    destruct (assoc k m) as [[]|]; try done; by apply keys_in_map_set.
Qed.

Section Conversion.
Variable hexToRgb hexToRgba : value -> result value.

Lemma convertProperties_keys p converted :
  convertProperties hexToRgb hexToRgba p = Ok converted -> keys_in figma_keys converted.
Proof.
  unfold convertProperties.
  set (m1 := copy_defined _ p []).
  assert (H1 : keys_in figma_keys m1)
    by (apply keys_in_copy_defined; [reflexivity|apply keys_in_nil]).
  clearbody m1.
  match goal with |- match ?c with _ => _ end = _ -> _ => destruct c as [m2|e] eqn:E2 end;
    [|done].
  assert (H2 : keys_in figma_keys m2).
  { destruct (truthy _); [|by injection E2 as <-].
    destruct (hexToRgba _); [|done]. injection E2 as <-.
    by apply keys_in_map_set. }
  clear E2 H1 m1.
  match goal with |- match ?c with _ => _ end = _ -> _ => destruct c as [m3|e] eqn:E3 end;
    [|done].
  assert (H3 : keys_in figma_keys m3).
  { destruct (truthy _); [|by injection E3 as <-].
    destruct (hexToRgba _); [|done]. injection E3 as <-.
    by apply keys_in_map_set. }
  clear E3 H2 m2.
  set (m4 := copy_defined _ p m3).
  assert (H4 : keys_in figma_keys m4) by (by apply keys_in_copy_defined).
  clearbody m4.
  match goal with |- match ?c with _ => _ end = _ -> _ => destruct c as [m5|e] eqn:E5 end;
    [|done].
  assert (H5 : keys_in figma_keys m5).
  { destruct (truthy _); [|by injection E5 as <-].
    destruct (hexToRgb _); [|done]. injection E5 as <-.
    by apply keys_in_map_set. }
  set (m6 := copy_defined _ p m5).
  assert (H6 : keys_in figma_keys m6) by (by apply keys_in_copy_defined).
  clearbody m6. by intros [= <-].
Qed.

Lemma existsb_In key allowed : existsb (String.eqb key) allowed = true -> In key allowed.
Proof.
  intros H. apply existsb_exists in H as (k & Hk & He).
  apply String.eqb_eq in He. by subst.
Qed.

Lemma convertToolProps_keys p converted :
  convertToolProps hexToRgb hexToRgba p = Ok converted -> keys_in figma_keys converted.
Proof.
  unfold convertToolProps.
  destruct (convertProperties hexToRgb hexToRgba p) as [c|m] eqn:Hc; [|done].
  set (m := pass_through _ p c).
  assert (Hm : keys_in figma_keys m).
  { apply keys_in_pass_through; [reflexivity|]. by eapply convertProperties_keys. }
  clearbody m. by intros [= <-].
Qed.

(** X21. convertToolProps answers with known keys only: the keys convertProperties
    copies or builds and the five passthrough keys.  Whatever else the props
    of a script line hold (imagePath, gradientStops, radius, ...) is not in
    the result. *)
Theorem convertToolProps_keeps_known_keys_only (p converted : list (string * value))
    (key : string) (x : value) :
  convertToolProps hexToRgb hexToRgba p = Ok converted ->
  assoc key converted = Some x ->
  In key figma_keys.
Proof.
  intros Hc H. apply existsb_In. by eapply (convertToolProps_keys p converted).
Qed.

End Conversion.

Lemma convertToolProps_keeps_known_keys_only_witness :
  convertToolProps sample_conversion sample_conversion
    [("width", Num 10); ("imagePath", Str "/tmp/a.png")] = Ok [("width", Num 10)] /\
  In "width" figma_keys.
Proof.
  split; [reflexivity|].
  apply (convertToolProps_keeps_known_keys_only sample_conversion sample_conversion
           [("width", Num 10); ("imagePath", Str "/tmp/a.png")] [("width", Num 10)]
           "width" (Num 10)); reflexivity.
Defined.

Section ImageFill.
Variable JSON_parse : string -> result (list (string * value)).
Variable ToNumber : value -> option Z.
Variable hexToRgb hexToRgba : value -> result value.
Variable rotationToGradientTransform : value -> value.
Variable readFileSync : value -> result string.
Variable toString : value -> string.
Variable W : Type.
Variable logBatchOperations : list ParsedOperation -> W -> W.
Variable sendCommand : list ParsedOperation -> W -> W * result value.

Local Abbreviation process :=
  (process hexToRgb hexToRgba rotationToGradientTransform readFileSync toString).

Lemma process_image_fill_throws o fields :
  op o = "SET_IMAGE_FILL" -> props o = Some fields ->
  exists m, process o = Throw m.
Proof.
  intros Hop Hp. unfold Dsl.process. rewrite Hp.
  assert (Hno : forall converted,
            convertToolProps hexToRgb hexToRgba fields = Ok converted ->
            assoc "imagePath" converted = None).
  { intros converted Hc. destruct (assoc "imagePath" converted) as [x|] eqn:Hx; [|done].
    pose proof (convertToolProps_keys hexToRgb hexToRgba _ _ Hc _ _ Hx) as Hin.
    by vm_compute in Hin. }
  destruct fields as [|f fs].
  - rewrite Hp, Hop. simpl. eauto.
  - destruct (convertToolProps hexToRgb hexToRgba (f :: fs)) as [converted|m] eqn:Hc;
      [|eauto].
    cbn [props set_props op]. rewrite Hop. cbn [String.eqb Ascii.eqb Bool.eqb].
    rewrite (Hno converted eq_refl). simpl. eauto.
Qed.

End ImageFill.

Lemma all_ok_throws {A B} (f : A -> result B) (l : list A) a :
  In a l -> (exists m, f a = Throw m) -> exists m, all_ok (List.map f l) = Throw m.
Proof.
  intros Hin [m Hm]. induction l as [|b l IH]; [done|]. simpl.
  destruct Hin as [->|Hin].
  - rewrite Hm. eauto.
  - destruct (f b); [|eauto]. destruct (IH Hin) as [m' ->]. eauto.
Qed.

(** X22. A script that parses and holds a SET_IMAGE_FILL is never sent:
    batchOperations throws while processing, the state of the bridge
    untouched.  The props of the operation are empty or have lost imagePath
    in convertToolProps, so the image path is always missing. *)
Theorem batchOperations_never_sends_an_image_fill
    (JSON_parse : string -> result (list (string * value)))
    (ToNumber : value -> option Z)
    (hexToRgb hexToRgba : value -> result value)
    (rotationToGradientTransform : value -> value)
    (readFileSync : value -> result string)
    (toString : value -> string)
    (W : Type)
    (logBatchOperations : list ParsedOperation -> W -> W)
    (sendCommand : list ParsedOperation -> W -> W * result value)
    (operations : string) (w : W) (parsed : list ParsedOperation) (o : ParsedOperation) :
  parseDSL JSON_parse ToNumber operations = Ok parsed ->
  In o parsed -> op o = "SET_IMAGE_FILL" ->
  exists m,
    batchOperations JSON_parse ToNumber hexToRgb hexToRgba rotationToGradientTransform
      readFileSync toString W logBatchOperations sendCommand operations w
    = (w, Throw m).
Proof.
  intros Hparse Hin Hop.
  assert (Hprep : exists m,
            prepare JSON_parse ToNumber hexToRgb hexToRgba rotationToGradientTransform
              readFileSync toString operations = Throw m).
  { unfold prepare. rewrite Hparse.
    destruct (50 <? length parsed)%nat; [eauto|].
    destruct (length parsed =? 0)%nat; [eauto|].
    apply (all_ok_throws _ parsed o Hin).
    pose proof (parseDSL_operations_well_formed JSON_parse ToNumber _ _ Hparse) as [_ Hwf].
    rewrite List.Forall_forall in Hwf. specialize (Hwf o Hin).
    destruct Hwf as (_ & _ & _ & Hmut & _).
    destruct Hmut as [fields Hfields]; [by rewrite Hop|].
    by eapply process_image_fill_throws. }
  destruct Hprep as [m Hm]. exists m. unfold batchOperations. by rewrite Hm.
Qed.

Lemma batchOperations_never_sends_an_image_fill_witness :
  exists m, sample_batchOperations "SET_IMAGE_FILL(1:2, {})" [] = ([], Throw m).
Proof.
  apply (batchOperations_never_sends_an_image_fill
           sample_JSON_parse sample_ToNumber sample_conversion sample_conversion
           (fun v => v) sample_readFileSync sample_toString
           (list (list ParsedOperation)) (fun _ w => w) recording_bridge
           "SET_IMAGE_FILL(1:2, {})" []
           [ {| op := "SET_IMAGE_FILL"; variable := None; parent := None;
                nodeId := Some "1:2"; props := Some []; fontFamily := None;
                fontStyle := None; base64 := None; scaleMode := None;
                newParent := None; index := None |} ]
           {| op := "SET_IMAGE_FILL"; variable := None; parent := None;
              nodeId := Some "1:2"; props := Some []; fontFamily := None;
              fontStyle := None; base64 := None; scaleMode := None;
              newParent := None; index := None |}).
  - vm_compute. reflexivity.
  - by left.
  - reflexivity.
Defined.

Lemma append_cons x (a b : string) : String x a +:+ b = String x (a +:+ b).
Proof. reflexivity. Qed.

Lemma append_nil_l (b : string) : "" +:+ b = b.
Proof. reflexivity. Qed.

Lemma append_assoc_s (a b c : string) : (a +:+ b) +:+ c = a +:+ (b +:+ c).
Proof.
  induction a as [|x a IH]; [done|]. by rewrite !append_cons, IH.
Qed.

Lemma append_nil_r_s (a : string) : a +:+ "" = a.
Proof. induction a as [|x a IH]; [done|]. by rewrite append_cons, IH. Qed.

Lemma sep_after_app d l1 l2 : sep_after d (l1 ++ l2) = sep_after d l1 +:+ sep_after d l2.
Proof.
  induction l1 as [|a l1 IH]; [done|].
  cbn [sep_after app]. by rewrite IH, !append_assoc_s.
Qed.

Lemma join_cons d a b l : join d (a :: b :: l) = a +:+ d +:+ join d (b :: l).
Proof. reflexivity. Qed.

Lemma join_snoc d l c : join d (l ++ [c]) = sep_after d l +:+ c.
Proof.
  induction l as [|a l IH]; [done|].
  cbn [app sep_after]. destruct (l ++ [c]) as [|b l'] eqn:E; [by destruct l|].
  rewrite join_cons, IH. by rewrite !append_assoc_s.
Qed.

Lemma join_sep_after d l : l <> [] -> join d l +:+ d = sep_after d l.
Proof.
  induction l as [|a l IH]; [done|]. intros _.
  destruct l as [|b l].
  - cbn [join sep_after]. by rewrite append_nil_r_s.
  - rewrite join_cons. cbn [sep_after] in *. rewrite <- IH by done.
    by rewrite !append_assoc_s.
Qed.

Lemma split_scan_text d rest : forall inString prev depth current parts,
  let out := split_scan d inString prev depth current parts rest in
  let text := sep_after (String d "") (List.rev parts) +:+ current +:+ rest in
  join (String d "") out = text \/ join (String d "") out +:+ String d "" = text.
Proof.
  induction rest as [|ch rest IH]; intros inString prev depth current parts; simpl.
  - destruct (String.eqb_spec current "") as [->|Hne].
    + destruct (List.rev parts) as [|a l] eqn:E; [by left|].
      right. rewrite join_sep_after by done. by rewrite append_nil_r_s.
    + left. simpl. rewrite join_snoc. by rewrite append_nil_r_s.
  - assert (Hpush : sep_after (String d "") (List.rev parts) +:+ push_char current ch +:+ rest
                    = sep_after (String d "") (List.rev parts) +:+ current +:+ String ch rest).
    { unfold push_char. by rewrite append_assoc_s. }
    destruct inString as [stringChar|].
    { rewrite <- Hpush. apply IH. }
    destruct (is_quote ch); [rewrite <- Hpush; apply IH|].
    destruct (Ascii.eqb ch "{" || Ascii.eqb ch "(" || Ascii.eqb ch "[");
      [rewrite <- Hpush; apply IH|].
    destruct (Ascii.eqb ch "}" || Ascii.eqb ch ")" || Ascii.eqb ch "]");
      [rewrite <- Hpush; apply IH|].
    destruct (Ascii.eqb_spec ch d) as [->|Hd]; simpl;
      [destruct (depth =? 0)%Z|]; try (rewrite <- Hpush; apply IH).
    specialize (IH None (Some d) depth "" (current :: parts)). simpl in IH.
    rewrite sep_after_app in IH. simpl in IH.
    by rewrite !append_nil_r_s, !append_assoc_s in IH.
Qed.

(** X23. splitTopLevel keeps every character but a last delimiter: the parts joined
    by the delimiter are the string, or the string less the delimiter it ends
    with.  A string without the delimiter, if not empty, is its only part. *)
Theorem splitTopLevel_loses_only_a_last_delimiter (str : string) (delimiter : ascii) :
  let parts := splitTopLevel str delimiter in
  let d := String delimiter "" in
  (join d parts = str \/ join d parts +:+ d = str) /\
  (indexOf delimiter str = None -> str <> "" -> parts = [str]).
Proof.
  intros parts d. split; [apply (split_scan_text delimiter str None None 0%Z "" [])|].
  intros Hno Hne. subst parts. unfold splitTopLevel.
  assert (H : forall inString prev depth current,
            indexOf delimiter str = None ->
            split_scan delimiter inString prev depth current [] str
            = if String.eqb (current +:+ str) "" then [] else [current +:+ str]).
  { clear. induction str as [|ch str IH]; intros inString prev depth current Hno;
      cbn [split_scan].
    - rewrite append_nil_r_s. by destruct (String.eqb current "").
    - cbn [indexOf] in Hno. destruct (Ascii.eqb_spec ch delimiter) as [->|Hch]; [done|].
      assert (Hno' : indexOf delimiter str = None) by (by destruct (indexOf delimiter str)).
      assert (Hp : push_char current ch +:+ str = current +:+ String ch str).
      { unfold push_char. by rewrite append_assoc_s. }
      rewrite <- Hp.
      cbn [andb].
      destruct inString; [by apply IH|].
      destruct (is_quote ch); [by apply IH|].
      destruct (Ascii.eqb ch "{" || Ascii.eqb ch "(" || Ascii.eqb ch "["); [by apply IH|].
      destruct (Ascii.eqb ch "}" || Ascii.eqb ch ")" || Ascii.eqb ch "]"); by apply IH. }
  rewrite H by done. rewrite append_nil_l. by destruct (String.eqb_spec str "").
Qed.

Lemma get_str_drop n : forall s k, String.get k (str_drop n s) = String.get (n + k) s.
Proof.
  induction n as [|n IH]; intros s k; [done|].
  destruct s as [|c s]; [by destruct k|]. simpl. apply IH.
Qed.

Lemma matching_paren_index rest : forall inString prev depth i j,
  matching_paren inString prev depth i rest = Some j ->
  i <= j /\ String.get (j - i) rest = Some ")"%char.
Proof.
  induction rest as [|ch rest IH]; intros inString prev depth i j; simpl; [done|].
  assert (Hnext : forall a b c,
            matching_paren a b c (S i) rest = Some j ->
            i <= j /\ String.get (j - i) (String ch rest) = Some ")"%char).
  { intros a b c H. apply IH in H as [Hle Hget]. split; [lia|].
    replace (j - i) with (S (j - S i)) by lia. exact Hget. }
  destruct inString; [apply Hnext|].
  destruct (is_quote ch); [apply Hnext|].
  destruct (Ascii.eqb ch "("); [apply Hnext|].
  destruct (Ascii.eqb_spec ch ")") as [->|]; [|apply Hnext].
  destruct (depth - 1 =? 0)%Z; [|apply Hnext].
  intros [= <-]. split; [lia|]. by rewrite Nat.sub_diag.
Qed.

Lemma matching_brace_index rest : forall inString prev depth i j,
  matching_brace inString prev depth i rest = Some j ->
  i <= j /\ String.get (j - i) rest = Some "}"%char.
Proof.
  induction rest as [|ch rest IH]; intros inString prev depth i j; simpl; [done|].
  assert (Hnext : forall a b c,
            matching_brace a b c (S i) rest = Some j ->
            i <= j /\ String.get (j - i) (String ch rest) = Some "}"%char).
  { intros a b c H. apply IH in H as [Hle Hget]. split; [lia|].
    replace (j - i) with (S (j - S i)) by lia. exact Hget. }
  destruct inString; [apply Hnext|].
  destruct (is_quote ch); [apply Hnext|].
  destruct (Ascii.eqb ch "{"); [apply Hnext|].
  destruct (Ascii.eqb_spec ch "}") as [->|]; [|apply Hnext].
  destruct (depth - 1 =? 0)%Z; [|apply Hnext].
  intros [= <-]. split; [lia|]. by rewrite Nat.sub_diag.
Qed.

Lemma first_brace_index rest : forall inString prev i j,
  first_brace inString prev i rest = Some j ->
  i <= j /\ String.get (j - i) rest = Some "{"%char.
Proof.
  induction rest as [|ch rest IH]; intros inString prev i j; simpl; [done|].
  assert (Hnext : forall a b,
            first_brace a b (S i) rest = Some j ->
            i <= j /\ String.get (j - i) (String ch rest) = Some "{"%char).
  { intros a b H. apply IH in H as [Hle Hget]. split; [lia|].
    replace (j - i) with (S (j - S i)) by lia. exact Hget. }
  destruct inString; [apply Hnext|].
  destruct (is_quote ch); [apply Hnext|].
  destruct (Ascii.eqb_spec ch "{") as [->|]; [|apply Hnext].
  intros [= <-]. split; [lia|]. by rewrite Nat.sub_diag.
Qed.

(** X24. An index returned by findMatchingParen, findMatchingBrace or
    findFirstBrace is an index of the string, at which the closing
    parenthesis, the closing brace or the opening brace stands; the first two
    are not before the start. *)
Theorem finders_return_the_index_of_their_character (str : string) (start i : nat) :
  (findMatchingParen str start = Some i ->
   start <= i /\ String.get i str = Some ")"%char) /\
  (findMatchingBrace str start = Some i ->
   start <= i /\ String.get i str = Some "}"%char) /\
  (findFirstBrace str = Some i -> String.get i str = Some "{"%char).
Proof.
  split; [|split].
  - unfold findMatchingParen. intros H. apply matching_paren_index in H as [Hle Hget].
    split; [done|]. rewrite get_str_drop in Hget. by replace (start + (i - start)) with i in Hget by lia.
  - unfold findMatchingBrace. intros H. apply matching_brace_index in H as [Hle Hget].
    split; [done|]. rewrite get_str_drop in Hget. by replace (start + (i - start)) with i in Hget by lia.
  - unfold findFirstBrace. intros H. apply first_brace_index in H as [_ Hget].
    by rewrite Nat.sub_0_r in Hget.
Qed.

Lemma finders_return_the_index_of_their_character_witness :
  findMatchingParen "UPDATE(f(1), 2)" 6 = Some 14 /\
  String.get 14 "UPDATE(f(1), 2)" = Some ")"%char.
Proof.
  split; [reflexivity|].
  apply (finders_return_the_index_of_their_character "UPDATE(f(1), 2)" 6 14).
  reflexivity.
Defined.

Lemma parse_lines_skips JSON_parse ToNumber lines : forall i,
  forallb (fun raw => String.eqb (trim raw) "" || String.prefix "//" (trim raw)) lines = true ->
  parse_lines JSON_parse ToNumber lines i = Ok [].
Proof.
  induction lines as [|raw lines IH]; intros i; simpl; [done|].
  intros [Hraw Hrest]%andb_true_iff. rewrite Hraw. by apply IH.
Qed.

(** X25. A script of blank lines and comment lines parses to no operation, and
    batchOperations throws "No operations parsed from DSL" with the state of
    the bridge untouched. *)
Theorem scripts_of_comments_send_nothing
    (JSON_parse : string -> result (list (string * value)))
    (ToNumber : value -> option Z)
    (hexToRgb hexToRgba : value -> result value)
    (rotationToGradientTransform : value -> value)
    (readFileSync : value -> result string)
    (toString : value -> string)
    (W : Type)
    (logBatchOperations : list ParsedOperation -> W -> W)
    (sendCommand : list ParsedOperation -> W -> W * result value)
    (operations : string) (w : W) :
  forallb (fun raw => String.eqb (trim raw) "" || String.prefix "//" (trim raw))
    (split_on (ascii_of_nat 10) operations) = true ->
  parseDSL JSON_parse ToNumber operations = Ok [] /\
  batchOperations JSON_parse ToNumber hexToRgb hexToRgba rotationToGradientTransform
    readFileSync toString W logBatchOperations sendCommand operations w
  = (w, Throw "No operations parsed from DSL").
Proof.
  intros H. assert (Hp : parseDSL JSON_parse ToNumber operations = Ok [])
    by (by apply parse_lines_skips).
  split; [done|]. unfold batchOperations, prepare. by rewrite Hp.
Qed.

Lemma scripts_of_comments_send_nothing_witness :
  sample_batchOperations ("// header" +:+ newline +:+ "   " +:+ newline +:+ "// end") []
  = ([], Throw "No operations parsed from DSL").
Proof.
  apply (scripts_of_comments_send_nothing
           sample_JSON_parse sample_ToNumber sample_conversion sample_conversion
           (fun v => v) sample_readFileSync sample_toString
           (list (list ParsedOperation)) (fun _ w => w) recording_bridge
           ("// header" +:+ newline +:+ "   " +:+ newline +:+ "// end") []).
  reflexivity.
Defined.

End DslProofs.
